(** * DOLFIN degree-of-freedom maps and block matrices

    A shallow embedding of [dolfin/fem/UFCDofMap.cpp] and
    [dolfin/la/BlockMatrix.cpp], and the properties of the dof map that
    its specification states.

    - [dolfin::uint] is [unsigned int]: a natural number below [2^32];
      additions wrap ([uint_add]).
    - [error(...)] throws: fallible functions return a [result].
    - [ufc::dof_map] is an abstract class supplied by generated code: it
      is a type class [ufc.dof_map] over the type of descriptor states,
      and its mutating members return the new state.
    - [boost::shared_ptr<ufc::dof_map>] is a pointer into a heap of
      descriptors, so that two dof maps holding the same pointer see each
      other's initialisation.
    - [uint* dofs] output buffers are lists that the tabulation
      overwrites from position 0.

    Of [UFCDofMap], the constructor from a mutable mesh (which creates
    mesh entities), [tabulate_coordinates] and [str] are left out; of
    [BlockMatrix], [zero], [apply] and [str]. *)

From stdpp Require Import gmap strings list sorting pretty.

Local Open Scope N_scope.

(** ** Unsigned integers *)

Abbreviation uint := N (only parsing).

Definition UINT_MODULUS : N := 2 ^ 32.

(** [a + b] and [a += b] on [unsigned int]. *)
Definition uint_add (a b : uint) : uint := (a + b) mod UINT_MODULUS.

(** The values taken by [for (uint i = 0; i < n; i++)]. *)
Definition uint_range (n : uint) : list uint :=
  N.of_nat <$> seq 0 (N.to_nat n).

(** [std::endl], as far as the text goes. *)
Definition endl : string := String (Ascii.ascii_of_nat 10) EmptyString.

(** ** Errors *)

(** One constructor per [error(...)] call of the two files, and one for a
    failed [assert]. *)
Inductive error :=
| OrderingError
| MissingEntitiesError (d : uint)
| NoSubspacesError
| NoSubspaceSpecifiedError
| IndexOutOfRangeError (index available : uint)
| UnsupportedOperationError (msg : string)
| AssertionFailure.

Global Instance error_eq_dec : EqDecision error.
Proof. solve_decision. Defined.

(** What the conversion [%d] shows for an [unsigned int] argument: the
    32 bits are read as a signed number, so a value from [2 ^ 31] on is
    shown as the negative number that is [2 ^ 32] less. *)
Definition printf_d (x : uint) : string :=
  if x <? 2 ^ 31 then pretty x else "-" +:+ pretty (UINT_MODULUS - x).

(** The message each [error(...)] call formats. The index and the count
    of an [IndexOutOfRangeError] are formatted with [%d]. So is the
    dimension of a [MissingEntitiesError], which the loop of
    [init_ufc_dofmap] keeps at or below the topological dimension of a
    mesh, where [%d] shows the number itself. *)
Definition what (e : error) : string :=
  match e with
  | OrderingError =>
      "Mesh is not ordered according to the UFC numbering convention, consider calling mesh.order()."
  | MissingEntitiesError d =>
      "Unable to create function space, missing entities of dimension "
        +:+ pretty d +:+ ". Try calling mesh.init(" +:+ pretty d +:+ ")."
  | NoSubspacesError =>
      "Unable to extract sub system (there are no sub systems)."
  | NoSubspaceSpecifiedError =>
      "Unable to extract sub system (no sub system specified)."
  | IndexOutOfRangeError i n =>
      "Unable to extract sub system " +:+ printf_d i +:+ " (only "
        +:+ printf_d n +:+ " sub systems defined)."
  | UnsupportedOperationError msg => msg
  | AssertionFailure => "Assertion failed."
  end.

Inductive result (A : Type) :=
| Ok (a : A)
| Throw (e : error).
Global Arguments Ok {A} a.
Global Arguments Throw {A} e.

Global Instance result_ret : MRet result := λ A a, Ok a.
Global Instance result_bind : MBind result := λ A B f m,
  match m with
  | Ok a => f a
  | Throw e => Throw e
  end.

(** [assert(c)]. *)
Definition assert (c : bool) : result unit :=
  if c then Ok () else Throw AssertionFailure.

(** ** The mesh, as far as the dof map reads it *)

Module Cell.
(** Modelled from the spec: [Cell] is declared in [dolfin/mesh/Cell.h],
    which is not part of the sources. A cell has an index and the local
    topological data that the cell view hands to the descriptor. *)
Record t := mk {
  index : uint;
  (** the global indices of the cell's entities, by dimension *)
  entity_indices : list (list uint);
}.
End Cell.

Module Mesh.
(** Modelled from the spec: [Mesh] is declared in [dolfin/mesh/Mesh.h],
    which is not part of the sources. The mesh gives its topological
    dimension, the number of entities of each dimension, whether it is
    in the canonical order, and its cells in a fixed order. *)
Record t := mk {
  topology_dim : uint;
  geometry_dim : uint;
  (** the number of entities per dimension; 0 when the entities of that
      dimension have not been created *)
  entity_counts : list uint;
  ordered : bool;
  (** the cells, in the order [CellIterator] visits them *)
  cells : list Cell.t;
}.

(** Modelled from the spec: [Mesh::num_entities], not part of the
    sources. The number of entities of a dimension is zero as long as
    they have not been materialized. *)
Definition num_entities (mesh : t) (d : uint) : uint :=
  default 0 (entity_counts mesh !! N.to_nat d).
End Mesh.

Module UFCMesh.
(** Modelled from the spec: [UFCMesh] is declared in [UFCMesh.h], which
    is not part of the sources. It is the mesh summary: the dimensions
    and the per-dimension entity counts. *)
Record t := mk {
  topological_dimension : uint;
  geometric_dimension : uint;
  num_entities : list uint;
}.

(** Modelled from the spec: [UFCMesh::init] is declared in [UFCMesh.h],
    which is not part of the sources. The mesh summary holds the
    per-dimension entity counts of the mesh, rebuilt whenever the map is
    initialised against a mesh. *)
Definition init (mesh : Mesh.t) : t :=
  {| topological_dimension := Mesh.topology_dim mesh;
     geometric_dimension := Mesh.geometry_dim mesh;
     num_entities :=
       Mesh.num_entities mesh <$> uint_range (Mesh.topology_dim mesh + 1) |}.
End UFCMesh.

Module UFCCell.
(** Modelled from the spec: [UFCCell] is declared in [UFCCell.h], which is
    not part of the sources. It is the lightweight cell view handed to the
    descriptor, with the local topological data of a cell. *)
Record t := mk {
  topological_dimension : uint;
  entity_indices : list (list uint);
}.

(** Modelled from the spec: the constructor [UFCCell ufc_cell(mesh)], not
    part of the sources, builds a view for the cells of the mesh that
    points at no cell yet. *)
Definition create (mesh : Mesh.t) : t :=
  {| topological_dimension := Mesh.topology_dim mesh; entity_indices := [] |}.

(** Modelled from the spec: [ufc_cell.update(cell)], not part of the
    sources, points the view at a cell. *)
Definition update (ufc_cell : t) (cell : Cell.t) : t :=
  {| topological_dimension := topological_dimension ufc_cell;
     entity_indices := Cell.entity_indices cell |}.

(** Modelled from the spec: the constructor [UFCCell ufc_cell(cell)], not
    part of the sources, builds the view of a cell of the mesh. *)
Definition view (mesh : Mesh.t) (cell : Cell.t) : t :=
  update (create mesh) cell.
End UFCCell.

(** The loop that every pass over the cells shares: a [UFCCell] view is
    created for the mesh, and a [CellIterator] visits the cells in order;
    for each one the view is updated to it, then the body runs. The view
    is one object, updated in place. *)
Definition for_each_cell {S : Type} (mesh : Mesh.t)
    (body : UFCCell.t → Cell.t → S → S) (s : S) : S :=
  (foldl (λ '(ufc_cell, s) cell,
            let ufc_cell := UFCCell.update ufc_cell cell in
            (ufc_cell, body ufc_cell cell s))
         (UFCCell.create mesh, s) (Mesh.cells mesh)).2.

(** The same loop with a body that may throw. *)
Fixpoint for_each_cell_from {S : Type} (ufc_cell : UFCCell.t)
    (body : UFCCell.t → Cell.t → S → result S) (cells : list Cell.t) (s : S)
    : result S :=
  match cells with
  | [] => Ok s
  | cell :: cells =>
      let ufc_cell := UFCCell.update ufc_cell cell in
      s ← body ufc_cell cell s;
      for_each_cell_from ufc_cell body cells s
  end.

Definition for_each_cell_try {S : Type} (mesh : Mesh.t)
    (body : UFCCell.t → Cell.t → S → result S) (s : S) : result S :=
  for_each_cell_from (UFCCell.create mesh) body (Mesh.cells mesh) s.

(** ** The element dof descriptor *)

Module ufc.
(** Modelled from the spec: [ufc::dof_map] is declared in [ufc.h], which
    is not part of the sources. It is the interface of the element dof
    descriptor, with the members the specification lists. [D] is the type
    of descriptor states; [init_mesh], [init_cell] and
    [init_cell_finalize] are the members that change it.
    [tabulate_dofs d m c] is the sequence of values that
    [d.tabulate_dofs(dofs, m, c)] writes to [dofs[0]], [dofs[1]], ... *)
Class dof_map (D : Type) := {
  signature : D → string;
  needs_mesh_entities : D → uint → bool;
  init_mesh : D → UFCMesh.t → D * bool;
  init_cell : D → UFCMesh.t → UFCCell.t → D;
  init_cell_finalize : D → D;
  global_dimension : D → uint;
  local_dimension : D → UFCCell.t → uint;
  max_local_dimension : D → uint;
  geometric_dimension : D → uint;
  num_facet_dofs : D → uint;
  tabulate_dofs : D → UFCMesh.t → UFCCell.t → list uint;
  tabulate_facet_dofs : D → uint → list uint;
  num_sub_dof_maps : D → uint;
  create_sub_dof_map : D → uint → D;
}.
End ufc.

(** ** [dolfin::Set] *)

Module Set_.
(** Modelled from the spec: [dolfin::Set] is declared in
    [dolfin/common/Set.h], which is not part of the sources. It holds the
    set of all global indices touched as a sequence without duplicates:
    [insert] appends a value that is not yet present, and [sort] puts the
    sequence in ascending order. *)
Definition t := list uint.

(** Modelled from the spec: the constructor of [dolfin::Set], not part of
    the sources; a new set holds no index. *)
Definition empty : t := [].

(** Modelled from the spec: [Set::insert], not part of the sources; the
    set holds each index once, so a value already present is not added
    again. *)
Definition insert (x : uint) (s : t) : t :=
  if decide (x ∈ s) then s else s ++ [x].

(** Modelled from the spec: [Set::sort], not part of the sources; it puts
    the sequence in ascending order. *)
Definition sort (s : t) : t := merge_sort N.le s.
End Set_.

(** ** Output buffers *)

(** [dofs[i]] read from a buffer. Reading past the end is undefined
    in the source; here it yields 0, and the theorems about buffers assume
    that the descriptor stays within them. *)
Definition buffer_at (dofs : list uint) (i : uint) : uint :=
  default 0 (dofs !! N.to_nat i).

(** The descriptor writes its values to [dofs[0]], [dofs[1]], ...; the
    rest of the buffer keeps what it held. *)
Definition write_dofs (values dofs : list uint) : list uint :=
  take (length dofs) (values ++ drop (length values) dofs).

(** [for (uint i = 0; i < local_dim; i++) dofs[i] += offset;] *)
Definition add_offset (offset local_dim : uint) (dofs : list uint) : list uint :=
  foldl (λ dofs i, alter (λ x, uint_add x offset) (N.to_nat i) dofs)
        dofs (uint_range local_dim).

(** What a map with the given offset makes of a value the descriptor
    tabulated. *)
Definition shift (offset x : uint) : uint :=
  if 0 <? offset then uint_add x offset else x.

(** The descriptor stays within the buffers at a cell: it writes as many
    values as it reports for the local dimension, which is at most the
    maximum it reports. *)
Definition tabulates_local_dimension {D : Type} `{!ufc.dof_map D}
    (d : D) (m : UFCMesh.t) (c : UFCCell.t) : Prop :=
  length (ufc.tabulate_dofs d m c) = N.to_nat (ufc.local_dimension d c)
  ∧ ufc.local_dimension d c ≤ ufc.max_local_dimension d.

(** ** [UFCDofMap] *)

Abbreviation ptr := positive (only parsing).

Module UFCDofMap.
Record t := mk {
  _ufc_dofmap : ptr;
  _ufc_mesh : UFCMesh.t;
  _ufc_offset : uint;
  _parallel : bool;
}.

Definition with_ufc_mesh (self : t) (ufc_mesh : UFCMesh.t) : t :=
  mk (_ufc_dofmap self) ufc_mesh (_ufc_offset self) (_parallel self).

Definition with_ufc_offset (self : t) (ufc_offset : uint) : t :=
  mk (_ufc_dofmap self) (_ufc_mesh self) ufc_offset (_parallel self).

Section members.
Context {D : Type} `{!ufc.dof_map D}.
(** [MPI::num_processes()] *)
Variable num_processes : uint.

(** [assert(_ufc_dofmap)] followed by a use of [*_ufc_dofmap]. *)
Definition deref (h : gmap ptr D) (p : ptr) : result D :=
  match h !! p with
  | Some d => Ok d
  | None => Throw AssertionFailure
  end.

(** Modelled from the spec: [UFCDofMap::global_dimension] is defined in
    [UFCDofMap.h], which is not part of the sources. The global dimension
    of a map is that of its descriptor; the offset does not change it. *)
Definition global_dimension (h : gmap ptr D) (self : t) : result uint :=
  d ← deref h (_ufc_dofmap self); Ok (ufc.global_dimension d).

(** Modelled from the spec: [UFCDofMap::max_local_dimension] is defined
    in [UFCDofMap.h], which is not part of the sources. It is what the
    descriptor reports. *)
Definition max_local_dimension (h : gmap ptr D) (self : t) : result uint :=
  d ← deref h (_ufc_dofmap self); Ok (ufc.max_local_dimension d).

(** Modelled from the spec: [UFCDofMap::local_dimension] is defined in
    [UFCDofMap.h], which is not part of the sources. It is what the
    descriptor reports for the cell. *)
Definition local_dimension (h : gmap ptr D) (self : t) (ufc_cell : UFCCell.t)
    : result uint :=
  d ← deref h (_ufc_dofmap self); Ok (ufc.local_dimension d ufc_cell).

(** [UFCDofMap::tabulate_dofs(uint* dofs, const ufc::cell&, uint)] *)
Definition tabulate_dofs (h : gmap ptr D) (self : t) (dofs : list uint)
    (ufc_cell : UFCCell.t) (cell_index : uint) : result (list uint) :=
  d ← deref h (_ufc_dofmap self);
  let dofs := write_dofs (ufc.tabulate_dofs d (_ufc_mesh self) ufc_cell) dofs in
  if 0 <? _ufc_offset self then
    local_dim ← local_dimension h self ufc_cell;
    Ok (add_offset (_ufc_offset self) local_dim dofs)
  else Ok dofs.

(** [UFCDofMap::tabulate_dofs(uint* dofs, const Cell&)]; the mesh is the
    one the cell belongs to. *)
Definition tabulate_dofs_cell (h : gmap ptr D) (self : t) (dofs : list uint)
    (mesh : Mesh.t) (cell : Cell.t) : result (list uint) :=
  let ufc_cell := UFCCell.view mesh cell in
  tabulate_dofs h self dofs ufc_cell (Cell.index cell).

(** The local dof list of a cell, the way the loops of [collapse] and
    [dofs] obtain it: a buffer of the maximal local dimension is
    tabulated into, and the entries below the local dimension are read. *)
Definition cell_dofs (h : gmap ptr D) (self : t) (mesh : Mesh.t) (cell : Cell.t)
    : result (list uint) :=
  n ← max_local_dimension h self;
  dofs ← tabulate_dofs_cell h self (replicate (N.to_nat n) 0) mesh cell;
  local_dim ← local_dimension h self (UFCCell.view mesh cell);
  Ok (take (N.to_nat local_dim) dofs).

Definition tabulate_facet_dofs (h : gmap ptr D) (self : t) (dofs : list uint)
    (local_facet : uint) : result (list uint) :=
  d ← deref h (_ufc_dofmap self);
  Ok (write_dofs (ufc.tabulate_facet_dofs d local_facet) dofs).

Definition init_ufc_mesh (mesh : Mesh.t) : result UFCMesh.t :=
  if Mesh.ordered mesh then Ok (UFCMesh.init mesh) else Throw OrderingError.

(** The first loop of [init_ufc_dofmap], over the dimensions [ds]. *)
Fixpoint check_mesh_entities (dofmap : D) (mesh : Mesh.t) (ds : list uint)
    : result unit :=
  match ds with
  | [] => Ok ()
  | d :: ds =>
      if ufc.needs_mesh_entities dofmap d && (Mesh.num_entities mesh d =? 0)
      then Throw (MissingEntitiesError d)
      else check_mesh_entities dofmap mesh ds
  end.

Definition init_ufc_dofmap (dofmap : D) (ufc_mesh : UFCMesh.t) (mesh : Mesh.t)
    : result D :=
  _ ← check_mesh_entities dofmap mesh (uint_range (Mesh.topology_dim mesh + 1));
  let '(dofmap, init_cells) := ufc.init_mesh dofmap ufc_mesh in
  if init_cells then
    let dofmap :=
      for_each_cell mesh
        (λ ufc_cell _ dofmap, ufc.init_cell dofmap ufc_mesh ufc_cell) dofmap in
    Ok (ufc.init_cell_finalize dofmap)
  else Ok dofmap.

(** [UFCDofMap::init]: the map gets a new mesh summary and the descriptor
    it points to is initialised in place. *)
Definition init (h : gmap ptr D) (self : t) (mesh : Mesh.t)
    : result (t * gmap ptr D) :=
  ufc_mesh ← init_ufc_mesh mesh;
  let self := with_ufc_mesh self ufc_mesh in
  d ← deref h (_ufc_dofmap self);
  d ← init_ufc_dofmap d (_ufc_mesh self) mesh;
  Ok (self, <[_ufc_dofmap self := d]> h).

(** [UFCDofMap::UFCDofMap(shared_ptr<ufc::dof_map>, const Mesh&)] *)
Definition create (h : gmap ptr D) (ufc_dofmap : ptr) (mesh : Mesh.t)
    : result (t * gmap ptr D) :=
  let self := mk ufc_dofmap (UFCMesh.mk 0 0 []) 0 (1 <? num_processes) in
  _ ← deref h ufc_dofmap;
  init h self mesh.

(** The loop of the static [extract_sub_dofmap] over the preceding
    siblings: each is created, initialised and asked for its global
    dimension, which is added to [offset]. *)
Fixpoint add_sibling_dimensions (ufc_dofmap : D) (ufc_mesh : UFCMesh.t)
    (mesh : Mesh.t) (siblings : list uint) (offset : uint) : result uint :=
  match siblings with
  | [] => Ok offset
  | i :: siblings =>
      let _ufc_dofmap := ufc.create_sub_dof_map ufc_dofmap i in
      _ufc_dofmap ← init_ufc_dofmap _ufc_dofmap ufc_mesh mesh;
      add_sibling_dimensions ufc_dofmap ufc_mesh mesh siblings
        (uint_add offset (ufc.global_dimension _ufc_dofmap))
  end.

(** The static [UFCDofMap::extract_sub_dofmap(const ufc::dof_map&, uint&
    offset, ...)]. It returns the sub descriptor and the new value of
    [offset]. *)
Fixpoint extract_sub_dofmap_static (ufc_dofmap : D) (offset : uint)
    (component : list uint) (ufc_mesh : UFCMesh.t) (mesh : Mesh.t)
    : result (D * uint) :=
  if ufc.num_sub_dof_maps ufc_dofmap =? 0 then Throw NoSubspacesError else
  match component with
  | [] => Throw NoSubspaceSpecifiedError
  | component_0 :: sub_component =>
      if ufc.num_sub_dof_maps ufc_dofmap <=? component_0 then
        Throw (IndexOutOfRangeError component_0
                 (ufc.num_sub_dof_maps ufc_dofmap))
      else
        offset ← add_sibling_dimensions ufc_dofmap ufc_mesh mesh
                   (uint_range component_0) offset;
        let sub_dof_map := ufc.create_sub_dof_map ufc_dofmap component_0 in
        match sub_component with
        | [] => Ok (sub_dof_map, offset)
        | _ :: _ =>
            extract_sub_dofmap_static sub_dof_map offset sub_component
              ufc_mesh mesh
        end
  end.

(** The member [UFCDofMap::extract_sub_dofmap]. The sub descriptor gets a
    pointer of its own. *)
Definition extract_sub_dofmap (h : gmap ptr D) (self : t)
    (component : list uint) (mesh : Mesh.t) : result (t * gmap ptr D) :=
  let ufc_offset := 0 in
  d ← deref h (_ufc_dofmap self);
  '(sub, ufc_offset) ←
    extract_sub_dofmap_static d ufc_offset component (_ufc_mesh self) mesh;
  let ufc_sub_dof_map := fresh (dom h) in
  '(sub_dofmap, h) ← create (<[ufc_sub_dof_map := sub]> h) ufc_sub_dof_map mesh;
  Ok (with_ufc_offset sub_dofmap ufc_offset, h).

(** [for (uint i = 0; i < n; ++i) collapsed_map[collapsed_dofs[i]] =
    dofs[i];] *)
Definition add_to_map (n : uint) (collapsed_dofs dofs : list uint)
    (collapsed_map : gmap uint uint) : gmap uint uint :=
  foldl (λ m i, <[buffer_at collapsed_dofs i := buffer_at dofs i]> m)
        collapsed_map (uint_range n).

(** The body of the loop of [collapse] over the cells; the state is the
    two buffers and the map. *)
Definition collapse_cell (h : gmap ptr D) (self collapsed_dof_map : t)
    (ufc_cell : UFCCell.t) (cell : Cell.t)
    (s : list uint * list uint * gmap uint uint)
    : result (list uint * list uint * gmap uint uint) :=
  let '(dofs, collapsed_dofs, collapsed_map) := s in
  dofs ← tabulate_dofs h self dofs ufc_cell (Cell.index cell);
  collapsed_dofs ←
    tabulate_dofs h collapsed_dof_map collapsed_dofs ufc_cell (Cell.index cell);
  n ← local_dimension h collapsed_dof_map ufc_cell;
  Ok (dofs, collapsed_dofs, add_to_map n collapsed_dofs dofs collapsed_map).

(** [UFCDofMap::collapse]. [collapsed_map] is passed by reference: the
    second component is what it holds when the call returns or throws.
    The new map is built on the pointer of this one, so the descriptor
    they share is initialised again. *)
Definition collapse (h : gmap ptr D) (self : t)
    (collapsed_map : gmap uint uint) (mesh : Mesh.t)
    : result (t * gmap ptr D) * gmap uint uint :=
  match
    _ ← deref h (_ufc_dofmap self);
    '(collapsed_dof_map, h) ← create h (_ufc_dofmap self) mesh;
    collapsed_dimension ← global_dimension h collapsed_dof_map;
    dimension ← global_dimension h self;
    _ ← assert (collapsed_dimension =? dimension);
    Ok (collapsed_dof_map, h)
  with
  | Throw e => (Throw e, collapsed_map)
  | Ok (collapsed_dof_map, h) =>
      let collapsed_map : gmap uint uint := ∅ in
      match
        n ← max_local_dimension h self;
        collapsed_n ← max_local_dimension h collapsed_dof_map;
        for_each_cell_try mesh (collapse_cell h self collapsed_dof_map)
          (replicate (N.to_nat n) 0, replicate (N.to_nat collapsed_n) 0,
           collapsed_map)
      with
      | Throw e => (Throw e, collapsed_map)
      | Ok (_, _, collapsed_map) => (Ok (collapsed_dof_map, h), collapsed_map)
      end
  end.

(** The body of the loop of [dofs] over the cells; the state is the
    buffer and the set. *)
Definition dofs_cell (h : gmap ptr D) (self : t)
    (ufc_cell : UFCCell.t) (cell : Cell.t) (s : list uint * Set_.t)
    : result (list uint * Set_.t) :=
  let '(dofs, dof_list) := s in
  dofs ← tabulate_dofs h self dofs ufc_cell (Cell.index cell);
  n ← local_dimension h self ufc_cell;
  Ok (dofs,
      foldl (λ dof_list i, Set_.insert (buffer_at dofs i) dof_list)
            dof_list (uint_range n)).

(** [UFCDofMap::dofs] *)
Definition dofs (h : gmap ptr D) (self : t) (mesh : Mesh.t) (sort : bool)
    : result Set_.t :=
  n ← max_local_dimension h self;
  '(_, dof_list) ←
    for_each_cell_try mesh (dofs_cell h self)
      (replicate (N.to_nat n) 0, Set_.empty);
  Ok (if sort then Set_.sort dof_list else dof_list).

(** [UFCDofMap::str(false)], which [str(true)] calls for its first
    line. *)
Definition str_short (h : gmap ptr D) (self : t) : result string :=
  _ ← deref h (_ufc_dofmap self);
  dimension ← global_dimension h self;
  Ok ("<DofMap of global dimension " +:+ pretty dimension +:+ ">").

(** [UFCDofMap::str] *)
Definition str (h : gmap ptr D) (self : t) (verbose : bool) : result string :=
  d ← deref h (_ufc_dofmap self);
  if verbose then
    short ← str_short h self;
    Ok (short +:+ endl +:+ endl
        +:+ "  Signature:               " +:+ ufc.signature d +:+ endl
        +:+ "  Global dimension:        "
        +:+ pretty (ufc.global_dimension d) +:+ endl
        +:+ "  Maximum local dimension: "
        +:+ pretty (ufc.max_local_dimension d) +:+ endl
        +:+ "  Geometric dimension:     "
        +:+ pretty (ufc.geometric_dimension d) +:+ endl
        +:+ "  Number of sub dofmaps:   "
        +:+ pretty (ufc.num_sub_dof_maps d) +:+ endl
        +:+ "  Number of facet dofs:    "
        +:+ pretty (ufc.num_facet_dofs d) +:+ endl
        +:+ endl
        +:+ "To print the entire dofmap, call FunctionSpace::print_dofmap.")
  else str_short h self.

End members.
End UFCDofMap.

(** ** A descriptor that records its initialisation calls *)

Module Logged.
Inductive event :=
| InitMesh (m : UFCMesh.t)
| InitCell (m : UFCMesh.t) (c : UFCCell.t)
| InitCellFinalize.

(** A descriptor together with the calls of its mutating members so far,
    oldest first. *)
Record t (D : Type) := mk {
  descriptor : D;
  calls : list event;
}.
Global Arguments mk {D} descriptor calls.
Global Arguments descriptor {D} _.
Global Arguments calls {D} _.

(** A new object starts with no calls, and so does every sub descriptor it
    creates. *)
Definition new {D : Type} (d : D) : t D := mk d [].

Global Instance logged_dof_map {D : Type} `{!ufc.dof_map D}
    : ufc.dof_map (t D) := {|
  ufc.signature l := ufc.signature (descriptor l);
  ufc.needs_mesh_entities l := ufc.needs_mesh_entities (descriptor l);
  ufc.init_mesh l m :=
    let '(d, init_cells) := ufc.init_mesh (descriptor l) m in
    (mk d (calls l ++ [InitMesh m]), init_cells);
  ufc.init_cell l m c :=
    mk (ufc.init_cell (descriptor l) m c) (calls l ++ [InitCell m c]);
  ufc.init_cell_finalize l :=
    mk (ufc.init_cell_finalize (descriptor l)) (calls l ++ [InitCellFinalize]);
  ufc.global_dimension l := ufc.global_dimension (descriptor l);
  ufc.local_dimension l := ufc.local_dimension (descriptor l);
  ufc.max_local_dimension l := ufc.max_local_dimension (descriptor l);
  ufc.geometric_dimension l := ufc.geometric_dimension (descriptor l);
  ufc.num_facet_dofs l := ufc.num_facet_dofs (descriptor l);
  ufc.tabulate_dofs l := ufc.tabulate_dofs (descriptor l);
  ufc.tabulate_facet_dofs l := ufc.tabulate_facet_dofs (descriptor l);
  ufc.num_sub_dof_maps l := ufc.num_sub_dof_maps (descriptor l);
  ufc.create_sub_dof_map l i := new (ufc.create_sub_dof_map (descriptor l) i);
|}.
End Logged.

(** ** [BlockMatrix] *)

Module la.
(** Modelled from the spec: [GenericMatrix] and [GenericVector] are
    declared in [GenericMatrix.h] and [GenericVector.h], which are not
    part of the sources. They are the linear-algebra containers behind
    the blocks, as far as [BlockMatrix] calls them. [M] and [V] are the types of matrix and vector values; the
    members that change an object return its new value. *)
Class linear_algebra (M V : Type) := {
  (** [new Matrix()] *)
  new_matrix : M;
  (** [A.size(dim)] *)
  matrix_size : M → uint → uint;
  (** [A.mult(x, y)]: the new value of [y] *)
  matrix_mult : M → V → V → V;
  (** [A.factory().create_vector()] *)
  create_vector : M → V;
  vector_size : V → uint;
  vector_resize : V → uint → V;
  vector_zero : V → V;
  (** [y += z]: the new value of [y] *)
  vector_add : V → V → V;
}.
End la.

Module BlockVector.
Section members.
Context {V : Type}.

(** Modelled from the spec: [BlockVector] is declared in
    [BlockVector.h], which is not part of the sources. A block vector is
    the sequence of its blocks. *)
Definition t := list V.

(** Modelled from the spec: [BlockVector::get_block] is declared in
    [BlockVector.h], which is not part of the sources. It returns the
    block at the index, which must exist. *)
Definition get_block (x : t) (i : uint) : result V :=
  match x !! N.to_nat i with
  | Some v => Ok v
  | None => Throw AssertionFailure
  end.
End members.
Global Arguments t V : clear implicits.
End BlockVector.

Module BlockMatrix.
Section members.
Context {M V : Type} `{!la.linear_algebra M V}.

(** [std::vector<std::vector<boost::shared_ptr<GenericMatrix> > >
    matrices]; [None] is a null pointer. *)
Record t := mk { matrices : list (list (option M)) }.

(** [BlockMatrix::BlockMatrix(uint m, uint n)] *)
Definition create (m n : uint) : t :=
  mk (replicate (N.to_nat m) (replicate (N.to_nat n) (Some la.new_matrix))).

(** [matrices[i]]. Indexing past the end is undefined in the source; here
    it yields an empty row. *)
Definition row (self : t) (i : uint) : list (option M) :=
  default [] (matrices self !! N.to_nat i).

(** [assert(matrices[i][j])] followed by a use of [*matrices[i][j]]. *)
Definition block (self : t) (i j : uint) : result M :=
  match row self i !! N.to_nat j with
  | Some (Some A) => Ok A
  | _ => Throw AssertionFailure
  end.

Definition set_block (self : t) (i j : uint) (m : option M) : result t :=
  _ ← assert (bool_decide (N.to_nat i < length (matrices self))%nat);
  _ ← assert (bool_decide (N.to_nat j < length (row self i))%nat);
  Ok (mk (<[N.to_nat i := <[N.to_nat j := m]> (row self i)]> (matrices self))).

Definition get_block (self : t) (i j : uint) : result (option M) :=
  _ ← assert (bool_decide (N.to_nat i < length (matrices self))%nat);
  _ ← assert (bool_decide (N.to_nat j < length (row self i))%nat);
  Ok (default None (row self i !! N.to_nat j)).

(** [BlockMatrix::size] *)
Definition size (self : t) (dim : uint) : result uint :=
  if dim =? 0 then Ok (N.of_nat (length (matrices self)))
  else if dim =? 1 then Ok (N.of_nat (length (row self 0)))
  else Throw (UnsupportedOperationError "BlockMatrix has rank 2!").

(** The loop of [mult] over the block columns [js] of one block row: the
    state is the block [_y] of the result and the temporary [z_tmp]. *)
Fixpoint mult_columns (self : t) (x : BlockVector.t V) (row_index : uint)
    (js : list uint) (s : V * V) : result (V * V) :=
  match js with
  | [] => Ok s
  | j :: js =>
      let '(_y, z_tmp) := s in
      _x ← BlockVector.get_block x j;
      A ← block self row_index j;
      let z_tmp := la.matrix_mult A _x z_tmp in
      let _y := la.vector_add _y z_tmp in
      mult_columns self x row_index js (_y, z_tmp)
  end.

(** The loop of [mult] over the block rows: the state is [y] and
    [z_tmp]. *)
Fixpoint mult_rows (self : t) (x : BlockVector.t V) (rows : list uint)
    (s : BlockVector.t V * V) : result (BlockVector.t V * V) :=
  match rows with
  | [] => Ok s
  | row_index :: rows =>
      let '(y, z_tmp) := s in
      A ← block self row_index 0;
      _y ← BlockVector.get_block y row_index;
      let _y := la.vector_resize _y (la.matrix_size A 0) in
      let _y := la.vector_zero _y in
      let z_tmp := la.vector_resize z_tmp (la.vector_size _y) in
      let z_tmp := la.vector_zero z_tmp in
      '(_y, z_tmp) ←
        mult_columns self x row_index
          (uint_range (N.of_nat (length (row self row_index)))) (_y, z_tmp);
      mult_rows self x rows (<[N.to_nat row_index := _y]> y, z_tmp)
  end.

(** [BlockMatrix::mult] on block vectors [x] and [y] that are given by
    the values of their blocks: the new value of [y]. The blocks of [x]
    are read as they were when the call was made; [mult_shared] below is
    [mult] on block vectors that may hold the same block. *)
Definition mult (self : t) (x y : BlockVector.t V) (transposed : bool)
    : result (BlockVector.t V) :=
  if transposed then
    Throw (UnsupportedOperationError
             "BlockMatrix::mult: transposed not implemented.")
  else
    A ← block self 0 0;
    let z_tmp := la.create_vector A in
    '(y, _) ←
      mult_rows self x (uint_range (N.of_nat (length (matrices self))))
        (y, z_tmp);
    Ok y.

(** [mult] reaches the blocks of [x] and of [y] through the pointers the
    two block vectors hold, and a block may be held by both. For calls on
    such vectors the blocks live in a store, a block vector is the
    sequence of its pointers, and [mult] changes the store. The temporary
    [z_tmp] is a vector of its own, outside the store. *)

(** [*p] for the pointer to a block. *)
Definition vector_at (s : gmap ptr V) (p : ptr) : result V :=
  match s !! p with
  | Some v => Ok v
  | None => Throw AssertionFailure
  end.

(** The loop of [mult] over the block columns [js] of one block row,
    whose result block is the vector at [_y]: the state is the store and
    the temporary [z_tmp]. *)
Fixpoint mult_columns_shared (self : t) (x : BlockVector.t ptr)
    (row_index : uint) (_y : ptr) (js : list uint) (s : gmap ptr V * V)
    : result (gmap ptr V * V) :=
  match js with
  | [] => Ok s
  | j :: js =>
      let '(vectors, z_tmp) := s in
      _x ← BlockVector.get_block x j;
      x_j ← vector_at vectors _x;
      A ← block self row_index j;
      let z_tmp := la.matrix_mult A x_j z_tmp in
      y_row ← vector_at vectors _y;
      mult_columns_shared self x row_index _y js
        (<[_y := la.vector_add y_row z_tmp]> vectors, z_tmp)
  end.

(** The loop of [mult] over the block rows. *)
Fixpoint mult_rows_shared (self : t) (x y : BlockVector.t ptr)
    (rows : list uint) (s : gmap ptr V * V)
    : result (gmap ptr V * V) :=
  match rows with
  | [] => Ok s
  | row_index :: rows =>
      let '(vectors, z_tmp) := s in
      A ← block self row_index 0;
      _y ← BlockVector.get_block y row_index;
      y_row ← vector_at vectors _y;
      let y_row := la.vector_resize y_row (la.matrix_size A 0) in
      let y_row := la.vector_zero y_row in
      let vectors := <[_y := y_row]> vectors in
      let z_tmp := la.vector_resize z_tmp (la.vector_size y_row) in
      let z_tmp := la.vector_zero z_tmp in
      s ← mult_columns_shared self x row_index _y
             (uint_range (N.of_nat (length (row self row_index))))
             (vectors, z_tmp);
      mult_rows_shared self x y rows s
  end.

(** [BlockMatrix::mult] on block vectors whose blocks live in a store:
    the store it leaves. *)
Definition mult_shared (self : t) (x y : BlockVector.t ptr)
    (vectors : gmap ptr V) (transposed : bool) : result (gmap ptr V) :=
  if transposed then
    Throw (UnsupportedOperationError
             "BlockMatrix::mult: transposed not implemented.")
  else
    A ← block self 0 0;
    let z_tmp := la.create_vector A in
    '(vectors, _) ←
      mult_rows_shared self x y
        (uint_range (N.of_nat (length (matrices self)))) (vectors, z_tmp);
    Ok vectors.
Section printing.
(** [GenericMatrix::str], and [indent] of [dolfin/common/utils.h]; neither
    is part of the sources. *)
Variable matrix_str : M → bool → string.
Variable indent : string → string.

(** [BlockMatrix::str(false)] *)
Definition str_short (self : t) : string :=
  "<BlockMatrix containing " +:+ pretty (N.of_nat (length (matrices self)))
    +:+ " x " +:+ pretty (N.of_nat (length (row self 0))) +:+ " blocks>".

(** The inner loop of [str(true)] for the block row [i], from the column
    [j] on: [for (uint j = 0; i < matrices[0].size(); j++)]. Its condition
    does not mention [j], so the recursion is on a number of steps: [None]
    when they do not suffice. The first component of the state is the
    text so far. *)
Fixpoint str_columns (steps : nat) (self : t) (i j : uint) (s : string)
    : option (result string) :=
  match steps with
  | O => None
  | S steps =>
      if i <? N.of_nat (length (row self 0)) then
        let s :=
          s +:+ "  BlockMatrix (" +:+ pretty i +:+ ", " +:+ pretty j +:+ ")"
            +:+ endl +:+ endl in
        match block self i j with
        | Throw e => Some (Throw e)
        | Ok A =>
            str_columns steps self i (uint_add j 1)
              (s +:+ indent (indent (matrix_str A true)) +:+ endl)
        end
      else Some (Ok s)
  end.

(** The outer loop of [str(true)] over the block rows. *)
Fixpoint str_rows (steps : nat) (self : t) (rows : list uint) (s : string)
    : option (result string) :=
  match rows with
  | [] => Some (Ok s)
  | i :: rows =>
      match str_columns steps self i 0 s with
      | Some (Ok s) => str_rows steps self rows s
      | r => r
      end
  end.

(** [BlockMatrix::str], with the number of steps granted to each inner
    loop. *)
Definition str (steps : nat) (self : t) (verbose : bool)
    : option (result string) :=
  if verbose then
    str_rows steps self (uint_range (N.of_nat (length (matrices self))))
      (str_short self +:+ endl +:+ endl)
  else Some (Ok (str_short self)).
End printing.

End members.
Global Arguments t M : clear implicits.
End BlockMatrix.

(** ** Sample descriptors and meshes

    A family of concrete descriptors, on which the theorems below are
    exercised: elements with one dof per mesh entity of a dimension, and
    mixed elements whose sub-spaces are numbered one after the other. *)

Module sample.
#[warnings="-register-all"] Inductive element :=
| entity_dofs (dim per_cell : uint) (cell_pass : bool)
| mixed (subs : list element).

Record t := mk {
  shape : element;
  (** the mesh summary [init_mesh] received *)
  summary : UFCMesh.t;
  (** the number of [init_cell] calls *)
  cells_seen : uint;
  finalized : bool;
}.

Definition new (e : element) : t := mk e (UFCMesh.mk 0 0 []) 0 false.

Fixpoint dimension (m : UFCMesh.t) (e : element) : uint :=
  match e with
  | entity_dofs d _ _ => default 0 (UFCMesh.num_entities m !! N.to_nat d)
  | mixed subs => foldr (λ e n, uint_add (dimension m e) n) 0 subs
  end.

Fixpoint local_size (e : element) : uint :=
  match e with
  | entity_dofs _ n _ => n
  | mixed subs => foldr (λ e n, uint_add (local_size e) n) 0 subs
  end.

Fixpoint needs (e : element) (d : uint) : bool :=
  match e with
  | entity_dofs k _ _ => d =? k
  | mixed subs => existsb (λ e, needs e d) subs
  end.

Fixpoint wants_cell_pass (e : element) : bool :=
  match e with
  | entity_dofs _ _ b => b
  | mixed subs => existsb wants_cell_pass subs
  end.

Fixpoint tabulate (m : UFCMesh.t) (c : UFCCell.t) (e : element) : list uint :=
  match e with
  | entity_dofs k n _ =>
      take (N.to_nat n) (default [] (UFCCell.entity_indices c !! N.to_nat k))
  | mixed subs =>
      (fix go (subs : list element) (offset : uint) : list uint :=
         match subs with
         | [] => []
         | e :: subs =>
             ((λ x, uint_add x offset) <$> tabulate m c e)
               ++ go subs (uint_add offset (dimension m e))
         end) subs 0
  end.

Definition subs_of (e : element) : list element :=
  match e with
  | entity_dofs _ _ _ => []
  | mixed subs => subs
  end.

Global Instance sample_dof_map : ufc.dof_map t := {|
  ufc.signature d :=
    match shape d with entity_dofs _ _ _ => "entity_dofs" | mixed _ => "mixed" end;
  ufc.needs_mesh_entities d := needs (shape d);
  ufc.init_mesh d m :=
    (mk (shape d) m (cells_seen d) (finalized d), wants_cell_pass (shape d));
  ufc.init_cell d m c :=
    mk (shape d) (summary d) (uint_add (cells_seen d) 1) (finalized d);
  ufc.init_cell_finalize d := mk (shape d) (summary d) (cells_seen d) true;
  ufc.global_dimension d := dimension (summary d) (shape d);
  ufc.local_dimension d c := local_size (shape d);
  ufc.max_local_dimension d := local_size (shape d);
  ufc.geometric_dimension d := UFCMesh.geometric_dimension (summary d);
  ufc.num_facet_dofs d := 0;
  ufc.tabulate_dofs d m c := tabulate m c (shape d);
  ufc.tabulate_facet_dofs d local_facet := [];
  ufc.num_sub_dof_maps d := N.of_nat (length (subs_of (shape d)));
  ufc.create_sub_dof_map d i :=
    new (default (entity_dofs 0 0 false) (subs_of (shape d) !! N.to_nat i));
|}.

(** Two intervals: the vertices 0, 1, 2 and the cells 0, 1. *)
Definition intervals : Mesh.t :=
  Mesh.mk 1 1 [3; 2] true
    [Cell.mk 0 [[0; 1]; [0]]; Cell.mk 1 [[1; 2]; [1]]].

(** Two triangles on the vertices 0 to 3, whose edges have not been
    created. *)
Definition triangles : Mesh.t :=
  Mesh.mk 2 2 [4; 0; 2] true
    [Cell.mk 0 [[0; 1; 2]; []; [0]]; Cell.mk 1 [[1; 2; 3]; []; [1]]].

(** The same triangles in a mesh that has not been ordered. *)
Definition unordered_triangles : Mesh.t :=
  Mesh.mk 2 2 [4; 0; 2] false
    [Cell.mk 0 [[0; 1; 2]; []; [0]]; Cell.mk 1 [[1; 2; 3]; []; [1]]].

(** One dof per vertex of an interval, one per interval, and the mixed
    element of the first with the mixed element of both. *)
Definition P1 : element := entity_dofs 0 2 false.
Definition DG0 : element := entity_dofs 1 1 true.
Definition nested : element := mixed [P1; mixed [DG0; P1]].

(** One dof per vertex of a triangle, twice; and one dof per edge. *)
Definition P1_triangle : element := entity_dofs 0 3 false.
Definition P1xP1 : element := mixed [P1_triangle; P1_triangle].
Definition edge_dofs : element := entity_dofs 1 3 false.

(** The heap with one descriptor, at pointer 1, and the map built on it
    by the constructor, in a run on one process. *)
Definition heap_of (e : element) : gmap ptr t := {[ 1%positive := new e ]}.

Definition map_of (e : element) (mesh : Mesh.t)
    : result (UFCDofMap.t * gmap ptr t) :=
  UFCDofMap.create 1 (heap_of e) 1%positive mesh.

(** A map on pointer 1 that has not been initialised. *)
Definition uninitialised_map : UFCDofMap.t :=
  UFCDofMap.mk 1 (UFCMesh.mk 0 0 []) 0 false.

Definition offset_of (r : result (UFCDofMap.t * gmap ptr t)) : result uint :=
  '(m, _) ← r; Ok (UFCDofMap._ufc_offset m).

Definition shape_of (r : result (UFCDofMap.t * gmap ptr t))
    : result (option element) :=
  '(m, h) ← r; Ok (shape <$> h !! UFCDofMap._ufc_dofmap m).

Definition cell_dofs_of (r : result (UFCDofMap.t * gmap ptr t))
    (mesh : Mesh.t) (cell : Cell.t) : result (list uint) :=
  '(m, h) ← r; UFCDofMap.cell_dofs h m mesh cell.

(** The sub-space 0 of the sub-space 1 of [nested] on the intervals,
    extracted in one call, and in two calls through the map of the
    sub-space 1. *)
Definition nested_1 : result (UFCDofMap.t * gmap ptr t) :=
  '(m, h) ← map_of nested intervals;
  UFCDofMap.extract_sub_dofmap 1 h m [1] intervals.

Definition nested_10_direct : result (UFCDofMap.t * gmap ptr t) :=
  '(m, h) ← map_of nested intervals;
  UFCDofMap.extract_sub_dofmap 1 h m [1; 0] intervals.

Definition nested_10_stepwise : result (UFCDofMap.t * gmap ptr t) :=
  '(m, h) ← nested_1;
  UFCDofMap.extract_sub_dofmap 1 h m [0] intervals.

Definition interval_0 : Cell.t := Cell.mk 0 [[0; 1]; [0]].
Definition interval_1 : Cell.t := Cell.mk 1 [[1; 2]; [1]].
Definition triangle_0 : Cell.t := Cell.mk 0 [[0; 1; 2]; []; [0]].
Definition triangle_1 : Cell.t := Cell.mk 1 [[1; 2; 3]; []; [1]].

Definition triangle_1_view : UFCCell.t := UFCCell.view triangles triangle_1.

(** [P1xP1] on the triangles: the map of the whole space, and the map of
    its sub-space 1 with the heap in which it lives. *)
Definition triangles_summary : UFCMesh.t := UFCMesh.mk 2 2 [4; 0; 2].

Definition P1xP1_descriptor : t := mk P1xP1 triangles_summary 0 false.
Definition P1_descriptor : t := mk P1_triangle triangles_summary 0 false.

Definition P1xP1_heap : gmap ptr t := {[ 1%positive := P1xP1_descriptor ]}.
Definition P1xP1_map : UFCDofMap.t := UFCDofMap.mk 1 triangles_summary 0 false.

Definition P1xP1_sub_heap : gmap ptr t :=
  <[ 2%positive := P1_descriptor ]> P1xP1_heap.
Definition P1xP1_sub_map : UFCDofMap.t :=
  UFCDofMap.mk 2 triangles_summary 4 false.

(** The collapsed map of the sub-space 1 and its translation table. *)
Definition P1xP1_collapsed_map : UFCDofMap.t :=
  UFCDofMap.mk 2 triangles_summary 0 false.
Definition P1xP1_translation : gmap uint uint :=
  {[ 0 := 4; 1 := 5; 2 := 6; 3 := 7 ]}.

(** Dense matrices over the integers, by rows, for the blocks of a block
    matrix. *)
Definition dot (r x : list Z) : Z := foldr Z.add 0%Z (zip_with Z.mul r x).

Global Instance dense : la.linear_algebra (list (list Z)) (list Z) := {|
  la.new_matrix := [];
  la.matrix_size A dim :=
    if dim =? 0 then N.of_nat (length A)
    else N.of_nat (length (default [] (head A)));
  la.matrix_mult A x y := (λ r, dot r x) <$> A;
  la.create_vector A := [];
  la.vector_size x := N.of_nat (length x);
  la.vector_resize x n := take (N.to_nat n) (x ++ replicate (N.to_nat n) 0%Z);
  la.vector_zero x := (λ _, 0%Z) <$> x;
  la.vector_add y z := zip_with Z.add y z;
|}.

(** The block matrix [[A, B]] of two blocks of two rows. *)
Definition blocks : BlockMatrix.t (list (list Z)) :=
  BlockMatrix.mk
    [[Some [[1; 2]; [3; 4]]%Z; Some [[1]; [1]]%Z]].

(** The block vectors [x] with the blocks at the pointers 1 and 2 and
    [y] with the blocks at the pointers 3 and 4, in a store. *)
Definition vectors : gmap ptr (list Z) :=
  {[ 1%positive := [1; 1]%Z; 2%positive := [1]%Z;
     3%positive := [7]%Z; 4%positive := [8]%Z ]}.

(** The block matrix of the one block [[2]], and a store with the vector
    [[3]]. *)
Definition doubling : BlockMatrix.t (list (list Z)) :=
  BlockMatrix.mk [[Some [[2]]%Z]].
Definition three : gmap ptr (list Z) := {[ 1%positive := [3]%Z ]}.
End sample.

(** ** A descriptor numbered with a stride

    A second concrete descriptor: two dofs on every cell, numbered cell
    after cell with the stride that the mesh summary passed to
    [tabulate_dofs] gives, its topological dimension. With the summary of
    a mesh of triangles the cells have the dofs 0 and 1, 2 and 3, and so
    on; with the summary of a mesh of intervals the second dof of a cell
    is the first dof of the next one. *)

Module strided.
(** The state is the mesh summary [init_mesh] received. *)
Record t := mk { summary : UFCMesh.t }.

(** The index of the cell: the index of its entity of the topological
    dimension. *)
Definition cell_index (c : UFCCell.t) : uint :=
  default 0
    (UFCCell.entity_indices c !! N.to_nat (UFCCell.topological_dimension c)
       ≫= head).

Definition first_dof (m : UFCMesh.t) (c : UFCCell.t) : uint :=
  (UFCMesh.topological_dimension m * cell_index c) mod UINT_MODULUS.

Global Instance strided_dof_map : ufc.dof_map t := {|
  ufc.signature d := "strided";
  ufc.needs_mesh_entities d k := false;
  ufc.init_mesh d m := (mk m, false);
  ufc.init_cell d m c := d;
  ufc.init_cell_finalize d := d;
  ufc.global_dimension d :=
    (UFCMesh.topological_dimension (summary d)
     * default 0
         (UFCMesh.num_entities (summary d)
            !! N.to_nat (UFCMesh.topological_dimension (summary d))))
      mod UINT_MODULUS;
  ufc.local_dimension d c := 2;
  ufc.max_local_dimension d := 2;
  ufc.geometric_dimension d := UFCMesh.geometric_dimension (summary d);
  ufc.num_facet_dofs d := 0;
  ufc.tabulate_dofs d m c := [first_dof m c; uint_add (first_dof m c) 1];
  ufc.tabulate_facet_dofs d local_facet := [];
  ufc.num_sub_dof_maps d := 0;
  ufc.create_sub_dof_map d i := d;
|}.

(** A new descriptor at pointer 1, and the map that the constructor
    builds on it for the triangles, in a run on one process. *)
Definition new_heap : gmap ptr t := {[ 1%positive := mk (UFCMesh.mk 0 0 []) ]}.

Definition heap : gmap ptr t := {[ 1%positive := mk sample.triangles_summary ]}.
Definition map : UFCDofMap.t :=
  UFCDofMap.mk 1 sample.triangles_summary 0 false.

(** What [collapse] leaves when it is called on that map with the mesh
    of the intervals: the heap, the collapsed map and the translation
    table. *)
Definition collapsed_heap : gmap ptr t :=
  {[ 1%positive := mk (UFCMesh.init sample.intervals) ]}.
Definition collapsed_map : UFCDofMap.t :=
  UFCDofMap.mk 1 (UFCMesh.init sample.intervals) 0 false.
Definition translation : gmap uint uint := {[ 0 := 0; 1 := 2; 2 := 3 ]}.
End strided.

(** ** Vocabulary of the statements *)

(** The descriptor needs the entities of dimension [k] and the mesh has
    none. *)
Definition missing_entities {D : Type} `{!ufc.dof_map D}
    (d : D) (mesh : Mesh.t) (k : uint) : Prop :=
  ufc.needs_mesh_entities d k = true ∧ Mesh.num_entities mesh k = 0.

Global Instance missing_entities_dec {D : Type} `{!ufc.dof_map D}
    (d : D) (mesh : Mesh.t) (k : uint) : Decision (missing_entities d mesh k).
Proof. unfold missing_entities. apply _. Defined.

(** The sum of a list of dimensions, as a number. *)
Definition uint_sum (l : list uint) : N := foldr N.add 0 l.

(** Plain assignments [m[k] = v], in the order of the list: a later one
    replaces an earlier one for the same key. *)
Definition overwrite (m : gmap uint uint) (writes : list (uint * uint))
    : gmap uint uint :=
  foldl (λ m w, <[w.1 := w.2]> m) m writes.

(** The assignments the pass of [collapse] over the cells makes, in its
    order: cell after cell, and for each cell position after position,
    the dof of the collapsed map (which has the mesh summary of [mesh]
    and no offset) gets the dof of the map [self]. *)
Definition collapse_writes {D : Type} `{!ufc.dof_map D}
    (d : D) (self : UFCDofMap.t) (mesh : Mesh.t) : list (uint * uint) :=
  Mesh.cells mesh ≫= λ cell,
    zip (ufc.tabulate_dofs d (UFCMesh.init mesh) (UFCCell.view mesh cell))
        (shift (UFCDofMap._ufc_offset self)
           <$> ufc.tabulate_dofs d (UFCDofMap._ufc_mesh self)
                 (UFCCell.view mesh cell)).

(** The product of a block and a block of a vector: what [A.mult(x, z)]
    leaves in a new vector [z]. *)
Definition block_product {M V : Type} `{!la.linear_algebra M V}
    (A : M) (x : V) : V :=
  la.matrix_mult A x (la.create_vector A).

(** The products of the blocks of a block row and the blocks of a block
    vector, added one after the other to [y0]. *)
Definition block_row_sum {M V : Type} `{!la.linear_algebra M V}
    (blocks : list M) (x : list V) (y0 : V) : V :=
  foldl (λ y p, la.vector_add y (block_product p.1 p.2)) y0 (zip blocks x).

(** [A.mult(x, z)] overwrites [z]: what it leaves does not depend on what
    [z] held. *)
Definition mult_overwrites {M V : Type} `{!la.linear_algebra M V} : Prop :=
  ∀ (A : M) (v z z' : V), la.matrix_mult A v z = la.matrix_mult A v z'.

(** The calls of the per-cell initialisation pass over a mesh. *)
Definition cell_pass (m : UFCMesh.t) (mesh : Mesh.t) : list Logged.event :=
  ((λ cell, Logged.InitCell m (UFCCell.view mesh cell)) <$> Mesh.cells mesh)
    ++ [Logged.InitCellFinalize].

(** * Properties *)

(** ** Loops and buffers *)

Lemma elem_of_uint_range (n i : uint) : i ∈ uint_range n ↔ i < n.
Proof.
  unfold uint_range. rewrite list_elem_of_fmap. split.
  - intros (k & -> & Hk). apply elem_of_seq in Hk. lia.
  - intros Hi. exists (N.to_nat i). rewrite N2Nat.id, elem_of_seq. split; [done | lia].
Qed.

Lemma foldl_uint_range {A : Type} (f : A → uint → A) (a : A) (n : uint) :
  foldl f a (uint_range n) = foldl (λ a i, f a (N.of_nat i)) a (seq 0 (N.to_nat n)).
Proof. unfold uint_range. by rewrite foldl_fmap. Qed.

Lemma foldl_ext_eq {A B : Type} (f g : A → B → A) (a : A) (l : list B) :
  (∀ a b, f a b = g a b) → foldl f a l = foldl g a l.
Proof.
  intros Hfg. revert a. induction l as [|b l IH]; intros a; [done |].
  simpl. by rewrite Hfg, IH.
Qed.

Lemma update_view (mesh : Mesh.t) (ufc_cell : UFCCell.t) (cell : Cell.t) :
  UFCCell.topological_dimension ufc_cell = Mesh.topology_dim mesh →
  UFCCell.update ufc_cell cell = UFCCell.view mesh cell.
Proof. intros Hd. unfold UFCCell.view, UFCCell.update. simpl. by rewrite Hd. Qed.

(** The view a loop body sees is the view of the current cell: what the
    view held for the previous cell does not matter. *)
Lemma for_each_cell_foldl {S : Type} (mesh : Mesh.t)
    (body : UFCCell.t → Cell.t → S → S) (s : S) :
  for_each_cell mesh body s
  = foldl (λ s cell, body (UFCCell.view mesh cell) cell s) s (Mesh.cells mesh).
Proof.
  unfold for_each_cell.
  assert (Hd : UFCCell.topological_dimension (UFCCell.create mesh)
               = Mesh.topology_dim mesh) by done.
  revert Hd. generalize (UFCCell.create mesh). revert s.
  induction (Mesh.cells mesh) as [|cell cells IH]; intros s u Hd; [done |].
  simpl. rewrite (update_view mesh u cell Hd). by apply IH.
Qed.

Lemma fmap_shift_0 (l : list uint) : shift 0 <$> l = l.
Proof. unfold shift. simpl. apply list_fmap_id. Qed.

Lemma write_dofs_length (values dofs : list uint) :
  length (write_dofs values dofs) = length dofs.
Proof.
  unfold write_dofs. rewrite length_take, length_app, length_drop. lia.
Qed.

Lemma write_dofs_fits (values dofs : list uint) :
  (length values ≤ length dofs)%nat →
  write_dofs values dofs = values ++ drop (length values) dofs.
Proof.
  intros Hle. unfold write_dofs. apply take_ge.
  rewrite length_app, length_drop. lia.
Qed.

Lemma foldl_alter_lookup {A : Type} (f : A → A) (l : list A) (k i : nat) :
  foldl (λ l j, alter f j l) l (seq 0 k) !! i
  = if decide (i < k)%nat then f <$> l !! i else l !! i.
Proof.
  induction k as [|k IH]; [done |].
  rewrite seq_S, foldl_app. simpl.
  destruct (decide (i = k)) as [->|Hne].
  - rewrite list_lookup_alter, IH. repeat case_decide; (done || lia).
  - rewrite list_lookup_alter_ne by done. rewrite IH.
    repeat case_decide; (done || lia).
Qed.

Lemma add_offset_spec (offset local_dim : uint) (dofs : list uint) :
  add_offset offset local_dim dofs
  = ((λ x, uint_add x offset) <$> take (N.to_nat local_dim) dofs)
      ++ drop (N.to_nat local_dim) dofs.
Proof.
  unfold add_offset. rewrite foldl_uint_range.
  rewrite (foldl_ext_eq _ (λ l j, alter (λ x, uint_add x offset) j l))
    by (intros; by rewrite Nat2N.id).
  apply list_eq. intros i. rewrite foldl_alter_lookup.
  destruct (decide (i < N.to_nat local_dim)%nat) as [Hlt|Hge].
  - destruct (decide (i < length dofs)%nat) as [Hin|Hout].
    + rewrite lookup_app_l by (rewrite length_fmap, length_take; lia).
      by rewrite list_lookup_fmap, lookup_take_lt by done.
    + rewrite (lookup_ge_None_2 dofs) by lia. simpl. symmetry.
      apply lookup_ge_None_2.
      rewrite length_app, length_fmap, length_take, length_drop. lia.
  - rewrite lookup_app_r by (rewrite length_fmap, length_take; lia).
    rewrite length_fmap, length_take, lookup_drop.
    destruct (decide (i < length dofs)%nat) as [Hin|Hout].
    + f_equal. lia.
    + rewrite !lookup_ge_None_2; [done | lia | lia].
Qed.

(** ** Tabulation *)

Section tabulation.
Context {D : Type} `{!ufc.dof_map D}.
Implicit Types (h : gmap ptr D) (self : UFCDofMap.t) (d : D).

Lemma deref_Some h p d : h !! p = Some d → UFCDofMap.deref h p = Ok d.
Proof. intros Hp. unfold UFCDofMap.deref. by rewrite Hp. Qed.

Lemma deref_Ok h p d : UFCDofMap.deref h p = Ok d → h !! p = Some d.
Proof. unfold UFCDofMap.deref. by destruct (h !! p); intros [= ->]. Qed.

Lemma local_dimension_Ok h self d ufc_cell :
  h !! UFCDofMap._ufc_dofmap self = Some d →
  UFCDofMap.local_dimension h self ufc_cell = Ok (ufc.local_dimension d ufc_cell).
Proof. intros Hp. unfold UFCDofMap.local_dimension. by rewrite (deref_Some _ _ _ Hp). Qed.

Lemma max_local_dimension_Ok h self d :
  h !! UFCDofMap._ufc_dofmap self = Some d →
  UFCDofMap.max_local_dimension h self = Ok (ufc.max_local_dimension d).
Proof. intros Hp. unfold UFCDofMap.max_local_dimension. by rewrite (deref_Some _ _ _ Hp). Qed.

Lemma global_dimension_Ok h self d :
  h !! UFCDofMap._ufc_dofmap self = Some d →
  UFCDofMap.global_dimension h self = Ok (ufc.global_dimension d).
Proof. intros Hp. unfold UFCDofMap.global_dimension. by rewrite (deref_Some _ _ _ Hp). Qed.

(** When the descriptor writes [local_dimension] values and the buffer
    has room for them, the buffer afterwards starts with these values,
    shifted by the offset, and is unchanged behind them. *)
Lemma tabulate_dofs_fits h self d dofs ufc_cell cell_index :
  h !! UFCDofMap._ufc_dofmap self = Some d →
  length (ufc.tabulate_dofs d (UFCDofMap._ufc_mesh self) ufc_cell)
    = N.to_nat (ufc.local_dimension d ufc_cell) →
  (N.to_nat (ufc.local_dimension d ufc_cell) ≤ length dofs)%nat →
  UFCDofMap.tabulate_dofs h self dofs ufc_cell cell_index
  = Ok ((shift (UFCDofMap._ufc_offset self)
           <$> ufc.tabulate_dofs d (UFCDofMap._ufc_mesh self) ufc_cell)
        ++ drop (N.to_nat (ufc.local_dimension d ufc_cell)) dofs).
Proof.
  intros Hp Hlen Hroom. unfold UFCDofMap.tabulate_dofs.
  rewrite (deref_Some _ _ _ Hp). simpl.
  rewrite write_dofs_fits by lia. rewrite Hlen.
  unfold shift. destruct (0 <? UFCDofMap._ufc_offset self) eqn:Hoff.
  - rewrite (local_dimension_Ok _ _ _ _ Hp). simpl.
    rewrite add_offset_spec.
    by rewrite take_app_length', drop_app_length' by done.
  - by rewrite list_fmap_id.
Qed.

(** With a descriptor behind the pointer, [tabulate_dofs] returns. *)
Lemma tabulate_dofs_returns h self d dofs ufc_cell cell_index :
  h !! UFCDofMap._ufc_dofmap self = Some d →
  ∃ dofs', UFCDofMap.tabulate_dofs h self dofs ufc_cell cell_index = Ok dofs'.
Proof.
  intros Hp. unfold UFCDofMap.tabulate_dofs.
  rewrite (deref_Some _ _ _ Hp). simpl.
  destruct (0 <? UFCDofMap._ufc_offset self); [| eauto].
  rewrite (local_dimension_Ok _ _ _ _ Hp). simpl. eauto.
Qed.

(** A pass over the cells whose body returns does not throw. *)
Lemma for_each_cell_try_returns {S : Type} mesh
    (body : UFCCell.t → Cell.t → S → result S) (s : S) (e : error) :
  (∀ ufc_cell cell s, ∃ s', body ufc_cell cell s = Ok s') →
  for_each_cell_try mesh body s ≠ Throw e.
Proof.
  intros Hbody. unfold for_each_cell_try.
  generalize (UFCCell.create mesh). revert s.
  induction (Mesh.cells mesh) as [|cell cells IH]; intros s u; [done |].
  simpl. destruct (Hbody (UFCCell.update u cell) cell s) as [s' ->].
  simpl. apply IH.
Qed.

(** C4. For every cell, [tabulate_dofs] leaves in the buffer the
    descriptor's own tabulation for the cell with the offset of the map
    added to every entry, the entries being unchanged when the offset is
    zero; these are [local_dimension(cell)] entries, and the buffer is
    untouched behind them. The descriptor is assumed to write as many
    values as it reports for the local dimension, into a buffer with room
    for them. *)
Theorem tabulate_dofs_adds_offset h self d dofs ufc_cell cell_index :
  h !! UFCDofMap._ufc_dofmap self = Some d →
  length (ufc.tabulate_dofs d (UFCDofMap._ufc_mesh self) ufc_cell)
    = N.to_nat (ufc.local_dimension d ufc_cell) →
  (N.to_nat (ufc.local_dimension d ufc_cell) ≤ length dofs)%nat →
  ∃ local_dim dofs',
    UFCDofMap.local_dimension h self ufc_cell = Ok local_dim
    ∧ UFCDofMap.tabulate_dofs h self dofs ufc_cell cell_index = Ok dofs'
    ∧ take (N.to_nat local_dim) dofs'
      = (λ x, if 0 <? UFCDofMap._ufc_offset self
              then uint_add x (UFCDofMap._ufc_offset self) else x)
          <$> ufc.tabulate_dofs d (UFCDofMap._ufc_mesh self) ufc_cell
    ∧ (UFCDofMap._ufc_offset self = 0 →
       take (N.to_nat local_dim) dofs'
       = ufc.tabulate_dofs d (UFCDofMap._ufc_mesh self) ufc_cell)
    ∧ length (take (N.to_nat local_dim) dofs') = N.to_nat local_dim
    ∧ drop (N.to_nat local_dim) dofs' = drop (N.to_nat local_dim) dofs.
Proof.
  intros Hp Hlen Hroom.
  eexists _, _. split; [by apply local_dimension_Ok |].
  split; [by apply tabulate_dofs_fits |].
  assert (Hlen' : length (shift (UFCDofMap._ufc_offset self)
                    <$> ufc.tabulate_dofs d (UFCDofMap._ufc_mesh self) ufc_cell)
                  = N.to_nat (ufc.local_dimension d ufc_cell))
    by (by rewrite length_fmap).
  rewrite take_app_length', drop_app_length' by done.
  repeat split; [| done].
  intros ->. unfold shift. simpl. by rewrite list_fmap_id.
Qed.

End tabulation.

(** ** Initialisation *)

Section initialisation.
Context {D : Type} `{!ufc.dof_map D}.
Implicit Types (h : gmap ptr D) (self : UFCDofMap.t) (d : D).

Lemma check_mesh_entities_Ok d mesh (ds : list uint) :
  (∀ k, k ∈ ds → ¬ missing_entities d mesh k) →
  UFCDofMap.check_mesh_entities d mesh ds = Ok ().
Proof.
  induction ds as [|k ds IH]; intros Hds; [done |]. simpl.
  destruct (ufc.needs_mesh_entities d k && (Mesh.num_entities mesh k =? 0)) eqn:Hk.
  - exfalso. apply (Hds k); [apply list_elem_of_here |].
    apply andb_true_iff in Hk as [Hneeds Hzero]. split; [done | by apply N.eqb_eq].
  - apply IH. intros j Hj. apply Hds. by apply list_elem_of_further.
Qed.

(** The check stops at the first dimension, in the order of the loop,
    whose entities are missing. *)
Lemma check_mesh_entities_first d mesh (ds1 ds2 : list uint) (k : uint) :
  (∀ j, j ∈ ds1 → ¬ missing_entities d mesh j) →
  missing_entities d mesh k →
  UFCDofMap.check_mesh_entities d mesh (ds1 ++ k :: ds2)
  = Throw (MissingEntitiesError k).
Proof.
  intros Hds1 [Hneeds Hzero].
  induction ds1 as [|j ds1 IH]; simpl.
  - rewrite Hneeds, Hzero. done.
  - destruct (ufc.needs_mesh_entities d j && (Mesh.num_entities mesh j =? 0)) eqn:Hj.
    + exfalso. apply (Hds1 j); [apply list_elem_of_here |].
      apply andb_true_iff in Hj as [? ?]. split; [done | by apply N.eqb_eq].
    + apply IH. intros i Hi. apply Hds1. by apply list_elem_of_further.
Qed.

(** Below a dimension whose entities are missing there is a least such
    dimension. *)
Lemma least_missing_entities d mesh (k : uint) :
  missing_entities d mesh k →
  ∃ k', k' ≤ k ∧ missing_entities d mesh k'
        ∧ ∀ j, j < k' → ¬ missing_entities d mesh j.
Proof.
  induction k as [k IH] using (well_founded_induction N.lt_wf_0).
  intros Hk.
  destruct (decide (Exists (missing_entities d mesh) (uint_range k)))
    as [Hsome|Hnone].
  - apply Exists_exists in Hsome as (j & Hj & Hmiss).
    apply elem_of_uint_range in Hj.
    destruct (IH j Hj Hmiss) as (k' & Hle & Hk' & Hleast).
    exists k'. split; [lia | done].
  - exists k. split; [lia |]. split; [done |].
    intros j Hj Hmiss. apply Hnone. apply Exists_exists.
    exists j. by rewrite elem_of_uint_range.
Qed.

Lemma uint_range_split (n k : uint) :
  k < n → ∃ ds2, uint_range n = uint_range k ++ k :: ds2.
Proof.
  intros Hk.
  exists (N.of_nat <$> seq (S (N.to_nat k)) (N.to_nat n - S (N.to_nat k))).
  unfold uint_range.
  replace (N.to_nat n)
    with (N.to_nat k + S (N.to_nat n - S (N.to_nat k)))%nat at 1 by lia.
  rewrite seq_app, fmap_app. simpl. by rewrite N2Nat.id.
Qed.

Lemma init_ufc_dofmap_missing d (m : UFCMesh.t) mesh (k : uint) :
  k ≤ Mesh.topology_dim mesh →
  missing_entities d mesh k →
  (∀ j, j < k → ¬ missing_entities d mesh j) →
  UFCDofMap.init_ufc_dofmap d m mesh = Throw (MissingEntitiesError k).
Proof.
  intros Hk Hmiss Hleast. unfold UFCDofMap.init_ufc_dofmap.
  destruct (uint_range_split (Mesh.topology_dim mesh + 1) k) as [ds2 ->]; [lia |].
  rewrite check_mesh_entities_first; [done | | done].
  intros j Hj. apply Hleast. by apply elem_of_uint_range.
Qed.

(** Without missing entities the initialisation of the descriptor goes
    through: [init_mesh] is called, and the pass over the cells follows
    when it asks for one. *)
Lemma init_ufc_dofmap_Ok d (m : UFCMesh.t) mesh :
  (∀ k, k ≤ Mesh.topology_dim mesh → ¬ missing_entities d mesh k) →
  UFCDofMap.init_ufc_dofmap d m mesh
  = Ok (if (ufc.init_mesh d m).2
        then ufc.init_cell_finalize
               (foldl (λ d cell, ufc.init_cell d m (UFCCell.view mesh cell))
                      (ufc.init_mesh d m).1 (Mesh.cells mesh))
        else (ufc.init_mesh d m).1).
Proof.
  intros Hall. unfold UFCDofMap.init_ufc_dofmap.
  rewrite check_mesh_entities_Ok.
  - simpl. destruct (ufc.init_mesh d m) as [d1 [|]]; simpl; [| done].
    by rewrite for_each_cell_foldl.
  - intros k Hk. apply Hall. apply elem_of_uint_range in Hk. lia.
Qed.

End initialisation.

Section init_member.
Context {D : Type} `{!ufc.dof_map D}.
Implicit Types (h : gmap ptr D) (self : UFCDofMap.t) (d : D).

Lemma init_Ok_inv h self mesh self' h' :
  UFCDofMap.init h self mesh = Ok (self', h') →
  Mesh.ordered mesh = true
  ∧ ∃ d d', h !! UFCDofMap._ufc_dofmap self = Some d
      ∧ UFCDofMap.init_ufc_dofmap d (UFCMesh.init mesh) mesh = Ok d'
      ∧ self' = UFCDofMap.with_ufc_mesh self (UFCMesh.init mesh)
      ∧ h' = <[UFCDofMap._ufc_dofmap self := d']> h.
Proof.
  unfold UFCDofMap.init, UFCDofMap.init_ufc_mesh.
  destruct (Mesh.ordered mesh); [| done]. simpl.
  destruct (UFCDofMap.deref h (UFCDofMap._ufc_dofmap self)) as [d|] eqn:Hd; [| done].
  apply deref_Ok in Hd. simpl.
  destruct (UFCDofMap.init_ufc_dofmap d (UFCMesh.init mesh) mesh) as [d'|] eqn:Hd';
    [| done].
  simpl. intros [= <- <-]. split; [done |]. by exists d, d'.
Qed.

Lemma init_Ok h self mesh d d' :
  Mesh.ordered mesh = true →
  h !! UFCDofMap._ufc_dofmap self = Some d →
  UFCDofMap.init_ufc_dofmap d (UFCMesh.init mesh) mesh = Ok d' →
  UFCDofMap.init h self mesh
  = Ok (UFCDofMap.with_ufc_mesh self (UFCMesh.init mesh),
        <[UFCDofMap._ufc_dofmap self := d']> h).
Proof.
  intros Hord Hd Hd'. unfold UFCDofMap.init, UFCDofMap.init_ufc_mesh.
  rewrite Hord. simpl. rewrite (deref_Some _ _ _ Hd). simpl. by rewrite Hd'.
Qed.

Lemma create_Ok_inv (num_processes : uint) h (p : ptr) mesh self' h' :
  UFCDofMap.create num_processes h p mesh = Ok (self', h') →
  Mesh.ordered mesh = true
  ∧ ∃ d d', h !! p = Some d
      ∧ UFCDofMap.init_ufc_dofmap d (UFCMesh.init mesh) mesh = Ok d'
      ∧ self' = UFCDofMap.mk p (UFCMesh.init mesh) 0 (1 <? num_processes)
      ∧ h' = <[p := d']> h.
Proof.
  unfold UFCDofMap.create.
  destruct (UFCDofMap.deref h p) as [d0|] eqn:Hd0; [| done]. simpl.
  intros Hinit. apply init_Ok_inv in Hinit as (Hord & d & d' & Hd & Hd' & -> & ->).
  split; [done |]. by exists d, d'.
Qed.

Lemma create_Ok (num_processes : uint) h (p : ptr) mesh d d' :
  Mesh.ordered mesh = true →
  h !! p = Some d →
  UFCDofMap.init_ufc_dofmap d (UFCMesh.init mesh) mesh = Ok d' →
  UFCDofMap.create num_processes h p mesh
  = Ok (UFCDofMap.mk p (UFCMesh.init mesh) 0 (1 <? num_processes), <[p := d']> h).
Proof.
  intros Hord Hd Hd'. unfold UFCDofMap.create.
  rewrite (deref_Some _ _ _ Hd). simpl.
  by rewrite (init_Ok _ _ _ d d').
Qed.

(** C6. Whenever the descriptor needs the entities of some dimension [k]
    of the mesh and the mesh has none of them, the initialisation fails
    with a [MissingEntitiesError]: [init_ufc_dofmap] does for every mesh
    summary, and so does [init(mesh)] on every map that points to the
    descriptor, once its check that the mesh is ordered has passed. The
    error names the least such dimension, hence [k] itself when no lower
    one is missing, and its message tells the caller to call
    [mesh.init] for that dimension. *)
Theorem init_fails_on_missing_entities d mesh (k : uint) :
  k ≤ Mesh.topology_dim mesh →
  ufc.needs_mesh_entities d k = true →
  Mesh.num_entities mesh k = 0 →
  ∃ k', k' ≤ k
    ∧ ufc.needs_mesh_entities d k' = true
    ∧ Mesh.num_entities mesh k' = 0
    ∧ (∀ j, j < k' →
         ¬ (ufc.needs_mesh_entities d j = true ∧ Mesh.num_entities mesh j = 0))
    ∧ (∀ m : UFCMesh.t,
         UFCDofMap.init_ufc_dofmap d m mesh = Throw (MissingEntitiesError k'))
    ∧ (∀ h self,
         h !! UFCDofMap._ufc_dofmap self = Some d →
         Mesh.ordered mesh = true →
         UFCDofMap.init h self mesh = Throw (MissingEntitiesError k'))
    ∧ what (MissingEntitiesError k')
      = "Unable to create function space, missing entities of dimension "
          +:+ pretty k' +:+ ". Try calling mesh.init(" +:+ pretty k' +:+ ").".
Proof.
  intros Hk Hneeds Hzero.
  destruct (least_missing_entities d mesh k (conj Hneeds Hzero))
    as (k' & Hle & [Hneeds' Hzero'] & Hleast).
  assert (Hinit : ∀ m : UFCMesh.t,
            UFCDofMap.init_ufc_dofmap d m mesh = Throw (MissingEntitiesError k')).
  { intros m. apply init_ufc_dofmap_missing; [lia | done | done]. }
  exists k'. do 5 (split; [done |]). split; [| done].
  intros h self Hd Hord.
  unfold UFCDofMap.init, UFCDofMap.init_ufc_mesh. rewrite Hord. simpl.
  rewrite (deref_Some _ _ _ Hd). simpl. by rewrite Hinit.
Qed.

(** On a mesh that is not ordered, [init] fails with an [OrderingError]
    before it looks at the entities. *)
Lemma init_fails_on_unordered_mesh h self mesh :
  Mesh.ordered mesh = false →
  UFCDofMap.init h self mesh = Throw OrderingError.
Proof.
  intros Hord. unfold UFCDofMap.init, UFCDofMap.init_ufc_mesh. by rewrite Hord.
Qed.

Lemma logged_init_cells (m : UFCMesh.t) mesh (cells : list Cell.t)
    (l : Logged.t D) :
  foldl (λ l cell, ufc.init_cell l m (UFCCell.view mesh cell)) l cells
  = Logged.mk
      (foldl (λ d cell, ufc.init_cell d m (UFCCell.view mesh cell))
             (Logged.descriptor l) cells)
      (Logged.calls l
         ++ ((λ cell, Logged.InitCell m (UFCCell.view mesh cell)) <$> cells)).
Proof.
  revert l. induction cells as [|cell cells IH]; intros l.
  - simpl. rewrite app_nil_r. by destruct l.
  - simpl. rewrite IH. simpl. by rewrite <- app_assoc.
Qed.

(** C7. When no needed entities are missing, the initialisation of a
    descriptor calls [init_mesh], and then [init_cell] once per cell, in
    the order of the cells of the mesh, followed by
    [init_cell_finalize], if [init_mesh] returned true; it makes no
    further call if [init_mesh] returned false. So the pass over the
    cells is made if and only if [init_mesh] asks for it. The calls are
    observed on the logging descriptor, which behaves as the one it
    wraps. *)
Theorem init_cell_pass_iff_init_mesh d (m : UFCMesh.t) mesh :
  (∀ k, k ≤ Mesh.topology_dim mesh →
     ¬ (ufc.needs_mesh_entities d k = true ∧ Mesh.num_entities mesh k = 0)) →
  ∃ l, UFCDofMap.init_ufc_dofmap (Logged.new d) m mesh = Ok l
    ∧ UFCDofMap.init_ufc_dofmap d m mesh = Ok (Logged.descriptor l)
    ∧ Logged.calls l
      = Logged.InitMesh m
          :: (if (ufc.init_mesh d m).2 then cell_pass m mesh else [])
    ∧ ((ufc.init_mesh d m).2 = true
       ↔ Logged.InitCellFinalize ∈ Logged.calls l)
    ∧ ((ufc.init_mesh d m).2 = false ↔ Logged.calls l = [Logged.InitMesh m]).
Proof.
  intros Hall.
  rewrite (init_ufc_dofmap_Ok (Logged.new d)) by exact Hall.
  rewrite (init_ufc_dofmap_Ok d) by exact Hall.
  rewrite logged_init_cells.
  eexists. split; [done |]. simpl.
  destruct (ufc.init_mesh d m) as [d1 [|]]; simpl.
  - split; [done |]. split; [done |].
    split.
    + split; [intros _ | done].
      apply list_elem_of_further, elem_of_app. right. apply list_elem_of_here.
    + split; [done |]. unfold cell_pass. intros [= Heq].
      by destruct (Mesh.cells mesh).
  - split; [done |]. split; [done |]. split; [| done].
    split; [done |]. intros Hin. apply list_elem_of_singleton in Hin. done.
Qed.

End init_member.

(** ** Extraction of sub dof maps *)

Lemma foldl_uint_add (a : N) (l : list uint) :
  foldl uint_add (a mod UINT_MODULUS) l = (a + uint_sum l) mod UINT_MODULUS.
Proof.
  revert a. induction l as [|x l IH]; intros a; simpl.
  - by rewrite N.add_0_r.
  - unfold uint_add at 2. rewrite N.Div0.add_mod_idemp_l, IH.
    f_equal. lia.
Qed.

Section extraction.
Context {D : Type} `{!ufc.dof_map D}.
Implicit Types (h : gmap ptr D) (self : UFCDofMap.t) (d : D).

Lemma check_mesh_entities_Throw d mesh (ds : list uint) (e : error) :
  UFCDofMap.check_mesh_entities d mesh ds = Throw e →
  ∃ k, e = MissingEntitiesError k.
Proof.
  induction ds as [|k ds IH]; [done |]. simpl.
  destruct (ufc.needs_mesh_entities d k && (Mesh.num_entities mesh k =? 0)).
  - intros [= <-]. by exists k.
  - exact IH.
Qed.

(** The initialisation of a descriptor throws nothing but a
    [MissingEntitiesError]. *)
Lemma init_ufc_dofmap_Throw d (m : UFCMesh.t) mesh (e : error) :
  UFCDofMap.init_ufc_dofmap d m mesh = Throw e →
  ∃ k, e = MissingEntitiesError k.
Proof.
  unfold UFCDofMap.init_ufc_dofmap.
  destruct (UFCDofMap.check_mesh_entities d mesh _) as [[]|e'] eqn:Hcheck; simpl.
  - by destruct (ufc.init_mesh d m) as [d1 [|]].
  - intros [= <-]. by apply check_mesh_entities_Throw in Hcheck.
Qed.

Lemma add_sibling_dimensions_Throw d (m : UFCMesh.t) mesh (siblings : list uint)
    (offset : uint) (e : error) :
  UFCDofMap.add_sibling_dimensions d m mesh siblings offset = Throw e →
  ∃ k, e = MissingEntitiesError k.
Proof.
  revert offset. induction siblings as [|i siblings IH]; intros offset; [done |].
  simpl.
  destruct (UFCDofMap.init_ufc_dofmap (ufc.create_sub_dof_map d i) m mesh)
    as [di|e'] eqn:Hinit; simpl.
  - apply IH.
  - intros [= <-]. by apply init_ufc_dofmap_Throw in Hinit.
Qed.

(** The loop over the preceding siblings initialises each of them, in the
    order of the loop, and adds up their global dimensions. *)
Lemma add_sibling_dimensions_Ok d (m : UFCMesh.t) mesh (siblings : list uint)
    (offset offset' : uint) :
  UFCDofMap.add_sibling_dimensions d m mesh siblings offset = Ok offset' →
  ∃ ds : list D,
    Forall2 (λ i di,
               UFCDofMap.init_ufc_dofmap (ufc.create_sub_dof_map d i) m mesh
               = Ok di) siblings ds
    ∧ offset' = foldl uint_add offset (ufc.global_dimension <$> ds).
Proof.
  revert offset. induction siblings as [|i siblings IH]; intros offset; simpl.
  - intros [= <-]. by exists [].
  - destruct (UFCDofMap.init_ufc_dofmap (ufc.create_sub_dof_map d i) m mesh)
      as [di|e'] eqn:Hinit; [| done].
    simpl. intros Hrest. destruct (IH _ Hrest) as (ds & Hds & ->).
    exists (di :: ds). split; [by constructor | done].
Qed.

(** At every level of the extraction, that is for every descriptor,
    offset and component path the static [extract_sub_dofmap] is called
    with: a descriptor without sub-spaces makes it fail with a
    [NoSubspacesError]; otherwise a requested index that is not below the
    number of sub-spaces makes it fail with an [IndexOutOfRangeError] for
    the index and the number, whose message shows both as [%d] formats
    them, hence the two numbers themselves when the index is below
    [2 ^ 31]; otherwise this level raises neither error: if the loop over
    the preceding siblings fails, it is with a [MissingEntitiesError], and
    if it returns, the result is the sub descriptor for a path of length
    one and the result of the next level for a longer path. *)
Lemma extract_sub_dofmap_static_errors d (offset : uint)
    (component : list uint) (m : UFCMesh.t) mesh :
  (ufc.num_sub_dof_maps d = 0 →
   UFCDofMap.extract_sub_dofmap_static d offset component m mesh
   = Throw NoSubspacesError)
  ∧ (∀ i rest, component = i :: rest →
       ufc.num_sub_dof_maps d ≠ 0 →
       ufc.num_sub_dof_maps d ≤ i →
       UFCDofMap.extract_sub_dofmap_static d offset component m mesh
       = Throw (IndexOutOfRangeError i (ufc.num_sub_dof_maps d))
       ∧ what (IndexOutOfRangeError i (ufc.num_sub_dof_maps d))
         = "Unable to extract sub system " +:+ printf_d i +:+ " (only "
             +:+ printf_d (ufc.num_sub_dof_maps d) +:+ " sub systems defined)."
       ∧ (i < 2 ^ 31 →
          what (IndexOutOfRangeError i (ufc.num_sub_dof_maps d))
          = "Unable to extract sub system " +:+ pretty i +:+ " (only "
              +:+ pretty (ufc.num_sub_dof_maps d)
              +:+ " sub systems defined)."))
  ∧ (∀ i rest, component = i :: rest →
       i < ufc.num_sub_dof_maps d →
       match UFCDofMap.add_sibling_dimensions d m mesh (uint_range i) offset with
       | Throw e =>
           UFCDofMap.extract_sub_dofmap_static d offset component m mesh
           = Throw e
           ∧ ∃ k, e = MissingEntitiesError k
       | Ok offset' =>
           UFCDofMap.extract_sub_dofmap_static d offset component m mesh
           = match rest with
             | [] => Ok (ufc.create_sub_dof_map d i, offset')
             | _ :: _ =>
                 UFCDofMap.extract_sub_dofmap_static
                   (ufc.create_sub_dof_map d i) offset' rest m mesh
             end
       end).
Proof.
  split; [| split].
  - intros Hnone. destruct component; simpl; by rewrite Hnone.
  - intros i rest -> Hsome Hle. split; [| split; [done |]].
    + simpl. apply N.eqb_neq in Hsome. rewrite Hsome.
      apply N.leb_le in Hle. by rewrite Hle.
    + intros Hi. unfold what, printf_d.
      assert ((i <? 2 ^ 31) = true) as -> by (apply N.ltb_lt; lia).
      assert ((ufc.num_sub_dof_maps d <? 2 ^ 31) = true) as ->
        by (apply N.ltb_lt; lia).
      done.
  - intros i rest -> Hlt. simpl.
    assert ((ufc.num_sub_dof_maps d =? 0) = false) as ->
      by (apply N.eqb_neq; lia).
    assert ((ufc.num_sub_dof_maps d <=? i) = false) as ->
      by (apply N.leb_gt; lia).
    destruct (UFCDofMap.add_sibling_dimensions d m mesh (uint_range i) offset)
      as [offset'|e] eqn:Hsiblings; simpl.
    + by destruct rest.
    + split; [done |]. by apply add_sibling_dimensions_Throw in Hsiblings.
Qed.

Lemma extract_sub_dofmap_Ok_inv (num_processes : uint) h self d
    (component : list uint) mesh sub h' :
  h !! UFCDofMap._ufc_dofmap self = Some d →
  UFCDofMap.extract_sub_dofmap num_processes h self component mesh
  = Ok (sub, h') →
  ∃ sub_d offset sub0,
    UFCDofMap.extract_sub_dofmap_static d 0 component
      (UFCDofMap._ufc_mesh self) mesh = Ok (sub_d, offset)
    ∧ UFCDofMap.create num_processes (<[fresh (dom h) := sub_d]> h)
        (fresh (dom h)) mesh = Ok (sub0, h')
    ∧ sub = UFCDofMap.with_ufc_offset sub0 offset.
Proof.
  intros Hd. unfold UFCDofMap.extract_sub_dofmap.
  rewrite (deref_Some _ _ _ Hd). simpl.
  destruct (UFCDofMap.extract_sub_dofmap_static d 0 component _ mesh)
    as [[sub_d offset]|e] eqn:Hstatic; [| done].
  simpl.
  destruct (UFCDofMap.create num_processes _ _ mesh) as [[sub0 h0]|e] eqn:Hcreate;
    [| done].
  simpl. intros [= <- <-]. by exists sub_d, offset, sub0.
Qed.

(** C3. The map extracted for the sub-space [i] of a composite space has
    as offset the sum of the global dimensions of the sub-spaces
    [0 .. i-1]: each of them is created from the descriptor and
    initialised against the mesh, in ascending order of the index, and
    its global dimension is added to the offset, which starts at 0. The
    additions are those of [unsigned int]: the offset is the sum modulo
    [2^32], hence the sum itself when that is below [2^32]. The extracted
    map points to the descriptor of the sub-space [i], initialised. *)
Theorem extract_offset_sums_sibling_dimensions (num_processes : uint) h self d
    (i : uint) mesh sub h' :
  h !! UFCDofMap._ufc_dofmap self = Some d →
  UFCDofMap.extract_sub_dofmap num_processes h self [i] mesh = Ok (sub, h') →
  ∃ (siblings : list D) (di : D),
    Forall2 (λ j dj,
               UFCDofMap.init_ufc_dofmap (ufc.create_sub_dof_map d j)
                 (UFCDofMap._ufc_mesh self) mesh = Ok dj)
            (uint_range i) siblings
    ∧ UFCDofMap._ufc_offset sub
      = foldl uint_add 0 (ufc.global_dimension <$> siblings)
    ∧ UFCDofMap._ufc_offset sub
      = uint_sum (ufc.global_dimension <$> siblings) mod UINT_MODULUS
    ∧ (uint_sum (ufc.global_dimension <$> siblings) < UINT_MODULUS →
       UFCDofMap._ufc_offset sub
       = uint_sum (ufc.global_dimension <$> siblings))
    ∧ UFCDofMap.init_ufc_dofmap (ufc.create_sub_dof_map d i)
        (UFCMesh.init mesh) mesh = Ok di
    ∧ h' !! UFCDofMap._ufc_dofmap sub = Some di.
Proof.
  intros Hd Hextract.
  destruct (extract_sub_dofmap_Ok_inv _ _ _ _ _ _ _ _ Hd Hextract)
    as (sub_d & offset & sub0 & Hstatic & Hcreate & ->).
  simpl in Hstatic.
  destruct (ufc.num_sub_dof_maps d =? 0); [done |].
  destruct (ufc.num_sub_dof_maps d <=? i); [done |].
  destruct (UFCDofMap.add_sibling_dimensions d _ mesh (uint_range i) 0)
    as [offset'|e] eqn:Hsiblings; [| done].
  simpl in Hstatic. injection Hstatic as <- <-.
  destruct (add_sibling_dimensions_Ok _ _ _ _ _ _ Hsiblings) as (ds & Hds & ->).
  apply create_Ok_inv in Hcreate as (_ & d0 & d' & Hd0 & Hd' & -> & ->).
  rewrite lookup_insert_eq in Hd0. injection Hd0 as <-.
  exists ds, d'. split; [done |]. split; [done |].
  assert (Hsum : foldl uint_add 0 (ufc.global_dimension <$> ds)
                 = uint_sum (ufc.global_dimension <$> ds) mod UINT_MODULUS).
  { change 0 with (0 mod UINT_MODULUS) at 1. by rewrite foldl_uint_add. }
  split; [done |]. split.
  - intros Hsmall. simpl. rewrite Hsum. by apply N.mod_small.
  - split; [done |]. simpl. by rewrite lookup_insert_eq.
Qed.

(** An error of the static helper is the error of the member. *)
Lemma extract_sub_dofmap_Throw (num_processes : uint) h self d
    (component : list uint) mesh (e : error) :
  h !! UFCDofMap._ufc_dofmap self = Some d →
  UFCDofMap.extract_sub_dofmap_static d 0 component
    (UFCDofMap._ufc_mesh self) mesh = Throw e →
  UFCDofMap.extract_sub_dofmap num_processes h self component mesh = Throw e.
Proof.
  intros Hd Hstatic. unfold UFCDofMap.extract_sub_dofmap.
  rewrite (deref_Some _ _ _ Hd). simpl. by rewrite Hstatic.
Qed.

Lemma add_sibling_dimensions_returns d (m : UFCMesh.t) mesh
    (siblings : list uint) (offset : uint) :
  (∀ j k, j ∈ siblings → k ≤ Mesh.topology_dim mesh →
     ¬ missing_entities (ufc.create_sub_dof_map d j) mesh k) →
  ∃ offset', UFCDofMap.add_sibling_dimensions d m mesh siblings offset
             = Ok offset'.
Proof.
  revert offset. induction siblings as [|i siblings IH]; intros offset Hall.
  - by exists offset.
  - simpl. rewrite init_ufc_dofmap_Ok
      by (intros k Hk; apply (Hall i k); [apply list_elem_of_here | done]).
    simpl. apply IH. intros j k Hj. apply Hall. by apply list_elem_of_further.
Qed.

(** The extraction of the sub-space [i] returns when the index is below
    the number of sub-spaces, the mesh is ordered, and no sub-space up to
    [i] needs entities that the mesh does not have. *)
Lemma extract_sub_dofmap_returns (num_processes : uint) h self d (i : uint)
    mesh :
  h !! UFCDofMap._ufc_dofmap self = Some d →
  i < ufc.num_sub_dof_maps d →
  Mesh.ordered mesh = true →
  (∀ j k, j ≤ i → k ≤ Mesh.topology_dim mesh →
     ¬ missing_entities (ufc.create_sub_dof_map d j) mesh k) →
  ∃ sub h',
    UFCDofMap.extract_sub_dofmap num_processes h self [i] mesh = Ok (sub, h').
Proof.
  intros Hd Hi Hord Hall. unfold UFCDofMap.extract_sub_dofmap.
  rewrite (deref_Some _ _ _ Hd). simpl.
  assert ((ufc.num_sub_dof_maps d =? 0) = false) as ->
    by (apply N.eqb_neq; lia).
  assert ((ufc.num_sub_dof_maps d <=? i) = false) as ->
    by (apply N.leb_gt; lia).
  destruct (add_sibling_dimensions_returns d (UFCDofMap._ufc_mesh self) mesh
              (uint_range i) 0) as [offset ->].
  { intros j k Hj. apply Hall. apply elem_of_uint_range in Hj. lia. }
  simpl.
  erewrite create_Ok; [by eauto | done | apply lookup_insert_eq |].
  apply init_ufc_dofmap_Ok. intros k Hk. apply (Hall i k); [lia | done].
Qed.

End extraction.

(** ** Collapse *)

Lemma overwrite_app (m : gmap uint uint) (ws1 ws2 : list (uint * uint)) :
  overwrite m (ws1 ++ ws2) = overwrite (overwrite m ws1) ws2.
Proof. unfold overwrite. by rewrite foldl_app. Qed.

Lemma overwrite_lookup_notin (m : gmap uint uint) (ws : list (uint * uint))
    (k : uint) :
  k ∉ ws.*1 → overwrite m ws !! k = m !! k.
Proof.
  induction ws as [|w ws IH] using rev_ind; [done |].
  rewrite fmap_app, not_elem_of_app. simpl. intros [Hws Hw].
  rewrite overwrite_app. simpl.
  rewrite lookup_insert_ne; [by apply IH |].
  intros Heq. apply Hw. rewrite <- Heq. apply list_elem_of_here.
Qed.

(** The last assignment to a key decides its value. *)
Lemma overwrite_lookup_last (m : gmap uint uint)
    (ws1 ws2 : list (uint * uint)) (k v : uint) :
  k ∉ ws2.*1 → overwrite m (ws1 ++ (k, v) :: ws2) !! k = Some v.
Proof.
  intros Hk. rewrite overwrite_app. change ((k, v) :: ws2) with ([(k, v)] ++ ws2).
  rewrite overwrite_app, overwrite_lookup_notin by done.
  simpl. apply lookup_insert_eq.
Qed.

(** When every assigned value is the same function of its key, each
    assigned key holds that value, whatever was overwritten. *)
Lemma overwrite_lookup_fun (g : uint → uint) (m : gmap uint uint)
    (ws : list (uint * uint)) (k : uint) :
  Forall (λ w, w.2 = g w.1) ws →
  k ∈ ws.*1 →
  overwrite m ws !! k = Some (g k).
Proof.
  induction ws as [|w ws IH] using rev_ind.
  - intros _ Hk. by apply elem_of_nil in Hk.
  - rewrite Forall_app, Forall_singleton, fmap_app, elem_of_app.
    intros [Hws Hw] Hk. rewrite overwrite_app. simpl.
    destruct (decide (w.1 = k)) as [<-|Hne].
    + by rewrite lookup_insert_eq, Hw.
    + rewrite lookup_insert_ne by done. apply IH; [done |].
      destruct Hk as [Hk|Hk]; [done |].
      apply list_elem_of_singleton in Hk. congruence.
Qed.

Lemma overwrite_dom (m : gmap uint uint) (ws : list (uint * uint)) (k : uint) :
  is_Some (overwrite m ws !! k) ↔ is_Some (m !! k) ∨ k ∈ ws.*1.
Proof.
  induction ws as [|w ws IH] using rev_ind.
  - simpl. rewrite elem_of_nil. tauto.
  - rewrite overwrite_app, fmap_app, elem_of_app. simpl.
    rewrite list_elem_of_singleton.
    destruct (decide (w.1 = k)) as [<-|Hne].
    + rewrite lookup_insert_eq. split; [intros _; by right; right | eauto].
    + rewrite lookup_insert_ne by done. rewrite IH.
      split; [tauto |]. intros [?|[?|?]]; [tauto | tauto | congruence].
Qed.

Lemma overwrite_lookup_Some (m : gmap uint uint) (ws : list (uint * uint))
    (c o : uint) :
  overwrite m ws !! c = Some o → m !! c = Some o ∨ (c, o) ∈ ws.
Proof.
  induction ws as [|w ws IH] using rev_ind; [by left |].
  rewrite overwrite_app. simpl.
  destruct (decide (w.1 = c)) as [<-|Hne].
  - rewrite lookup_insert_eq. intros [= <-]. right.
    apply elem_of_app. right. destruct w. apply list_elem_of_here.
  - rewrite lookup_insert_ne by done. intros Hc.
    destruct (IH Hc) as [?|?]; [by left |].
    right. apply elem_of_app. by left.
Qed.

Lemma buffer_at_lookup (dofs : list uint) (i : nat) (x : uint) :
  dofs !! i = Some x → buffer_at dofs (N.of_nat i) = x.
Proof. intros Hi. unfold buffer_at. by rewrite Nat2N.id, Hi. Qed.

(** The inner loop of [collapse] makes the assignments of the first [n]
    entries of the two buffers, position after position. *)
Lemma add_to_map_zip (n : uint) (collapsed_dofs dofs : list uint)
    (m : gmap uint uint) :
  (N.to_nat n ≤ length collapsed_dofs)%nat →
  (N.to_nat n ≤ length dofs)%nat →
  UFCDofMap.add_to_map n collapsed_dofs dofs m
  = overwrite m (zip (take (N.to_nat n) collapsed_dofs) (take (N.to_nat n) dofs)).
Proof.
  unfold UFCDofMap.add_to_map. rewrite foldl_uint_range.
  generalize (N.to_nat n). clear n. intros k Hcd Hd.
  induction k as [|k IH]; [done |].
  destruct (lookup_lt_is_Some_2 collapsed_dofs k) as [c Hc]; [lia |].
  destruct (lookup_lt_is_Some_2 dofs k) as [o Ho]; [lia |].
  rewrite seq_S, foldl_app, IH by lia. simpl.
  rewrite (take_S_r _ _ _ Hc), (take_S_r _ _ _ Ho).
  rewrite zip_with_app by (rewrite !length_take; lia).
  rewrite overwrite_app. simpl.
  by rewrite (buffer_at_lookup _ _ _ Hc), (buffer_at_lookup _ _ _ Ho).
Qed.

Lemma for_each_cell_try_inv {S : Type} (I : S → Prop) (mesh : Mesh.t)
    (body : UFCCell.t → Cell.t → S → result S) (step : Cell.t → S → S)
    (s : S) :
  (∀ cell s, cell ∈ Mesh.cells mesh → I s →
     body (UFCCell.view mesh cell) cell s = Ok (step cell s) ∧ I (step cell s)) →
  I s →
  for_each_cell_try mesh body s = Ok (foldl (λ s cell, step cell s) s (Mesh.cells mesh)).
Proof.
  unfold for_each_cell_try.
  assert (Hd : UFCCell.topological_dimension (UFCCell.create mesh)
               = Mesh.topology_dim mesh) by done.
  revert Hd. generalize (UFCCell.create mesh). revert s.
  induction (Mesh.cells mesh) as [|cell cells IH]; intros s u Hd Hbody Hs; [done |].
  simpl. rewrite (update_view mesh u cell Hd).
  destruct (Hbody cell s) as [-> Hs']; [apply list_elem_of_here | done |].
  simpl. apply IH; [done | | done].
  intros c s' Hc. apply Hbody. by apply list_elem_of_further.
Qed.

Section collapse.
Context {D : Type} `{!ufc.dof_map D}.
Implicit Types (h : gmap ptr D) (self : UFCDofMap.t) (d : D).

(** What a call of [collapse] that returns has done: the mesh is ordered,
    the descriptor the map points to has been initialised again, in
    place; the new map points to it as well, with the mesh summary of the
    mesh and no offset; and the supplied map holds what the pass over the
    cells leaves in it when started on the empty map. *)
Lemma collapse_Ok_inv (num_processes : uint) h self
    (collapsed_map : gmap uint uint) mesh collapsed_dof_map h'
    (table : gmap uint uint) :
  UFCDofMap.collapse num_processes h self collapsed_map mesh
  = (Ok (collapsed_dof_map, h'), table) →
  Mesh.ordered mesh = true
  ∧ ∃ d d' (dofs collapsed_dofs : list uint),
      h !! UFCDofMap._ufc_dofmap self = Some d
      ∧ UFCDofMap.init_ufc_dofmap d (UFCMesh.init mesh) mesh = Ok d'
      ∧ collapsed_dof_map
        = UFCDofMap.mk (UFCDofMap._ufc_dofmap self) (UFCMesh.init mesh) 0
            (1 <? num_processes)
      ∧ h' = <[UFCDofMap._ufc_dofmap self := d']> h
      ∧ for_each_cell_try mesh (UFCDofMap.collapse_cell h' self collapsed_dof_map)
          (replicate (N.to_nat (ufc.max_local_dimension d')) 0,
           replicate (N.to_nat (ufc.max_local_dimension d')) 0, ∅)
        = Ok (dofs, collapsed_dofs, table).
Proof.
  unfold UFCDofMap.collapse.
  destruct (UFCDofMap.deref h (UFCDofMap._ufc_dofmap self)) as [d0|] eqn:Hd0;
    [| done].
  simpl.
  destruct (UFCDofMap.create num_processes h _ mesh) as [[cdm h1]|] eqn:Hcreate;
    [| done].
  simpl.
  apply create_Ok_inv in Hcreate as (Hord & d & d' & Hd & Hd' & -> & ->).
  assert (Hp : (<[UFCDofMap._ufc_dofmap self := d']> h)
                 !! UFCDofMap._ufc_dofmap self = Some d')
    by apply lookup_insert_eq.
  rewrite (global_dimension_Ok _ (UFCDofMap.mk _ _ _ _) d') by done.
  rewrite (global_dimension_Ok _ self d') by done.
  simpl. rewrite N.eqb_refl. simpl.
  rewrite (max_local_dimension_Ok _ (UFCDofMap.mk _ _ _ _) d') by done.
  rewrite (max_local_dimension_Ok _ self d') by done.
  simpl.
  destruct (for_each_cell_try mesh _ _) as [[[dofs cdofs] tbl]|] eqn:Hloop;
    [| done].
  intros [= <- <- <-]. split; [done |]. by exists d, d', dofs, cdofs.
Qed.

(** The pass of [collapse] over the cells makes the assignments
    [collapse_writes], as long as the descriptor stays within the
    buffers. *)
Lemma collapse_cells_writes h self collapsed_dof_map d' mesh (b : bool)
    (dofs collapsed_dofs : list uint) (table : gmap uint uint) :
  h !! UFCDofMap._ufc_dofmap self = Some d' →
  collapsed_dof_map
  = UFCDofMap.mk (UFCDofMap._ufc_dofmap self) (UFCMesh.init mesh) 0 b →
  (∀ cell, cell ∈ Mesh.cells mesh →
     tabulates_local_dimension d' (UFCDofMap._ufc_mesh self)
       (UFCCell.view mesh cell)
     ∧ tabulates_local_dimension d' (UFCMesh.init mesh)
         (UFCCell.view mesh cell)) →
  length dofs = N.to_nat (ufc.max_local_dimension d') →
  length collapsed_dofs = N.to_nat (ufc.max_local_dimension d') →
  ∃ dofs' collapsed_dofs',
    for_each_cell_try mesh (UFCDofMap.collapse_cell h self collapsed_dof_map)
      (dofs, collapsed_dofs, table)
    = Ok (dofs', collapsed_dofs',
          overwrite table (collapse_writes d' self mesh)).
Proof.
  intros Hp -> Hfits Hdofs Hcdofs.
  set (writes cell :=
         zip (ufc.tabulate_dofs d' (UFCMesh.init mesh) (UFCCell.view mesh cell))
             (shift (UFCDofMap._ufc_offset self)
                <$> ufc.tabulate_dofs d' (UFCDofMap._ufc_mesh self)
                      (UFCCell.view mesh cell))).
  set (step cell (s : list uint * list uint * gmap uint uint) :=
         ((shift (UFCDofMap._ufc_offset self)
             <$> ufc.tabulate_dofs d' (UFCDofMap._ufc_mesh self)
                   (UFCCell.view mesh cell))
            ++ drop (N.to_nat (ufc.local_dimension d' (UFCCell.view mesh cell)))
                 s.1.1,
          ufc.tabulate_dofs d' (UFCMesh.init mesh) (UFCCell.view mesh cell)
            ++ drop (N.to_nat (ufc.local_dimension d' (UFCCell.view mesh cell)))
                 s.1.2,
          overwrite s.2 (writes cell))).
  rewrite (for_each_cell_try_inv
             (λ s, length s.1.1 = N.to_nat (ufc.max_local_dimension d')
                   ∧ length s.1.2 = N.to_nat (ufc.max_local_dimension d'))
             mesh _ step); [| | done].
  - unfold collapse_writes. fold writes.
    clear Hfits Hdofs Hcdofs.
    change table with (dofs, collapsed_dofs, table).2 at 2.
    generalize (dofs, collapsed_dofs, table). intros s.
    induction (Mesh.cells mesh) as [|cell cells IH] in s |- *.
    + exists s.1.1, s.1.2. by destruct s as [[? ?] ?].
    + simpl. destruct (IH (step cell s)) as (b1' & b2' & Heq).
      exists b1', b2'. by rewrite overwrite_app, Heq.
  - intros cell [[b1 b2] tbl] Hcell [Hb1 Hb2]. simpl in Hb1, Hb2.
    destruct (Hfits cell Hcell) as [[Hlen Hmax] [Hlen' _]].
    unfold UFCDofMap.collapse_cell.
    rewrite (tabulate_dofs_fits _ self d') by (done || lia).
    simpl.
    rewrite (tabulate_dofs_fits _ (UFCDofMap.mk _ _ _ _) d') by (done || lia).
    simpl.
    rewrite (local_dimension_Ok _ (UFCDofMap.mk _ _ _ _) d') by done.
    simpl. rewrite !fmap_shift_0.
    rewrite add_to_map_zip
      by (rewrite length_app, ?length_fmap, length_drop; lia).
    rewrite !take_app_length' by (by rewrite ?length_fmap).
    split; [done |]. unfold step. simpl.
    rewrite !length_app, length_fmap, !length_drop. lia.
Qed.

End collapse.

Lemma Forall_zip_fmap {A B : Type} (g : A → B) (l : list A) :
  Forall (λ w, w.2 = g w.1) (zip l (g <$> l)).
Proof. induction l as [|x l IH]; simpl; by constructor. Qed.

Lemma elem_of_zip_fmap {A B : Type} (g : A → B) (l : list A) (x : A) :
  x ∈ l → (x, g x) ∈ zip l (g <$> l).
Proof.
  induction 1 as [x l|x y l Hx IH]; simpl.
  - apply list_elem_of_here.
  - by apply list_elem_of_further.
Qed.

Section collapse_properties.
Context {D : Type} `{!ufc.dof_map D}.
Implicit Types (h : gmap ptr D) (self : UFCDofMap.t) (d : D).

(** The local dof list of a cell is the descriptor's tabulation, shifted
    by the offset of the map. *)
Lemma cell_dofs_fits h self d mesh cell :
  h !! UFCDofMap._ufc_dofmap self = Some d →
  tabulates_local_dimension d (UFCDofMap._ufc_mesh self) (UFCCell.view mesh cell) →
  UFCDofMap.cell_dofs h self mesh cell
  = Ok (shift (UFCDofMap._ufc_offset self)
          <$> ufc.tabulate_dofs d (UFCDofMap._ufc_mesh self)
                (UFCCell.view mesh cell)).
Proof.
  intros Hp [Hlen Hmax]. unfold UFCDofMap.cell_dofs, UFCDofMap.tabulate_dofs_cell.
  rewrite (max_local_dimension_Ok _ _ d) by done. simpl.
  rewrite (tabulate_dofs_fits _ _ d) by (rewrite ?length_replicate; (done || lia)).
  simpl. rewrite (local_dimension_Ok _ _ d) by done. simpl.
  by rewrite take_app_length' by (by rewrite length_fmap).
Qed.

(** The pairs that [collapse] assigns for a cell are the dofs of the
    collapsed and of the original map at the positions of the cell. *)
Lemma elem_of_zip_lookup {A B : Type} (l1 : list A) (l2 : list B) (x : A) (y : B) :
  (x, y) ∈ zip l1 l2 ↔ ∃ k : nat, l1 !! k = Some x ∧ l2 !! k = Some y.
Proof.
  rewrite list_elem_of_lookup. split.
  - intros [k Hk]. exists k. apply lookup_zip_with_Some in Hk
      as (x' & y' & [= <- <-] & Hx & Hy).
    done.
  - intros (k & Hx & Hy). exists k. apply lookup_zip_with_Some. by exists x, y.
Qed.

(** C2. When [collapse(mesh)] returns, and the descriptor stays within
    the buffers on the cells of the mesh: the collapsed map is built on
    the same descriptor, with no offset. The translation table is the
    result of the assignments of the pass over the cells, made on the
    empty map in the order of the cells and of the positions: of several
    assignments to one key, the last one stands, whatever mesh summary
    the original map holds. For every cell and every local position [k],
    both maps being read in the heap the call leaves, the [k]-th dof [c]
    of the collapsed map on the cell is a key of the table; its value is
    the [k]-th dof of the original map on the cell if no position of any
    cell assigns another value to [c]; and no position does when the
    original map holds the mesh summary of [mesh], in which case the
    round trip holds for every cell and position. *)
Theorem collapse_round_trip (num_processes : uint) h self
    (collapsed_map : gmap uint uint) mesh collapsed_dof_map h'
    (table : gmap uint uint) :
  UFCDofMap.collapse num_processes h self collapsed_map mesh
  = (Ok (collapsed_dof_map, h'), table) →
  (∀ d' cell,
     h' !! UFCDofMap._ufc_dofmap self = Some d' →
     cell ∈ Mesh.cells mesh →
     tabulates_local_dimension d' (UFCDofMap._ufc_mesh self)
       (UFCCell.view mesh cell)
     ∧ tabulates_local_dimension d' (UFCMesh.init mesh)
         (UFCCell.view mesh cell)) →
  (UFCDofMap._ufc_dofmap collapsed_dof_map = UFCDofMap._ufc_dofmap self
   ∧ UFCDofMap._ufc_offset collapsed_dof_map = 0)
  ∧ (∃ d', h' !! UFCDofMap._ufc_dofmap self = Some d'
       ∧ table = overwrite ∅ (collapse_writes d' self mesh)
       ∧ ∀ ws1 c o ws2,
           collapse_writes d' self mesh = ws1 ++ (c, o) :: ws2 →
           c ∉ ws2.*1 →
           table !! c = Some o)
  ∧ (∀ cell, cell ∈ Mesh.cells mesh →
       ∃ collapsed original : list uint,
         UFCDofMap.cell_dofs h' collapsed_dof_map mesh cell = Ok collapsed
         ∧ UFCDofMap.cell_dofs h' self mesh cell = Ok original
         ∧ length collapsed = length original
         ∧ ∀ (k : nat) (c : uint),
             collapsed !! k = Some c →
             ∃ o, original !! k = Some o
               ∧ is_Some (table !! c)
               ∧ ((∀ cell' collapsed' original' (k' : nat) (o' : uint),
                     cell' ∈ Mesh.cells mesh →
                     UFCDofMap.cell_dofs h' collapsed_dof_map mesh cell'
                     = Ok collapsed' →
                     UFCDofMap.cell_dofs h' self mesh cell' = Ok original' →
                     collapsed' !! k' = Some c →
                     original' !! k' = Some o' →
                     o' = o) →
                  table !! c = Some o)
               ∧ (UFCDofMap._ufc_mesh self = UFCMesh.init mesh →
                  table !! c = Some o)).
Proof.
  intros Hcollapse Hfits.
  apply collapse_Ok_inv in Hcollapse
    as (Hord & d & d' & dofs & cdofs & Hd & Hd' & -> & -> & Hloop).
  assert (Hp : (<[UFCDofMap._ufc_dofmap self := d']> h)
                 !! UFCDofMap._ufc_dofmap self = Some d')
    by apply lookup_insert_eq.
  specialize (Hfits d').
  assert (Htable : table = overwrite ∅ (collapse_writes d' self mesh)).
  { destruct (collapse_cells_writes _ self _ d' mesh (1 <? num_processes)
                (replicate (N.to_nat (ufc.max_local_dimension d')) 0)
                (replicate (N.to_nat (ufc.max_local_dimension d')) 0) ∅
                Hp eq_refl) as (b1 & b2 & Heq).
    - intros cell Hcell. by apply Hfits.
    - apply length_replicate.
    - apply length_replicate.
    - rewrite Hloop in Heq. by injection Heq as _ _ ->. }
  assert (Hcollapsed : ∀ cell, cell ∈ Mesh.cells mesh →
            UFCDofMap.cell_dofs (<[UFCDofMap._ufc_dofmap self := d']> h)
              (UFCDofMap.mk (UFCDofMap._ufc_dofmap self) (UFCMesh.init mesh) 0
                 (1 <? num_processes)) mesh cell
            = Ok (ufc.tabulate_dofs d' (UFCMesh.init mesh)
                    (UFCCell.view mesh cell))).
  { intros cell Hcell.
    rewrite (cell_dofs_fits _ (UFCDofMap.mk _ _ _ _) d') by (done || by apply Hfits).
    simpl. by rewrite fmap_shift_0. }
  assert (Horiginal : ∀ cell, cell ∈ Mesh.cells mesh →
            UFCDofMap.cell_dofs (<[UFCDofMap._ufc_dofmap self := d']> h)
              self mesh cell
            = Ok (shift (UFCDofMap._ufc_offset self)
                    <$> ufc.tabulate_dofs d' (UFCDofMap._ufc_mesh self)
                          (UFCCell.view mesh cell))).
  { intros cell Hcell. apply (cell_dofs_fits _ self d'); [done |].
    by apply Hfits. }
  split; [done |]. split.
  { exists d'. split; [done |]. split; [done |].
    intros ws1 c o ws2 Hws Hc. rewrite Htable, Hws.
    by apply overwrite_lookup_last. }
  intros cell Hcell.
  eexists _, _. split; [by apply Hcollapsed |]. split; [by apply Horiginal |].
  destruct (Hfits cell Hp Hcell) as [[Hlen _] [Hlen' _]].
  split; [by rewrite length_fmap, Hlen, Hlen' |].
  intros k c Hk.
  destruct (lookup_lt_is_Some_2
              (ufc.tabulate_dofs d' (UFCDofMap._ufc_mesh self)
                 (UFCCell.view mesh cell)) k) as [x Hx].
  { apply lookup_lt_Some in Hk. lia. }
  exists (shift (UFCDofMap._ufc_offset self) x).
  assert (Hwrite : (c, shift (UFCDofMap._ufc_offset self) x)
                   ∈ collapse_writes d' self mesh).
  { unfold collapse_writes. apply list_elem_of_bind. exists cell.
    split; [| done]. apply elem_of_zip_lookup. exists k.
    by rewrite list_lookup_fmap, Hx. }
  assert (Hkey : is_Some (table !! c)).
  { rewrite Htable. apply overwrite_dom. right.
    apply list_elem_of_fmap. by eexists (_, _). }
  split; [by rewrite list_lookup_fmap, Hx |]. split; [done |].
  assert (Hsame : (∀ o', (c, o') ∈ collapse_writes d' self mesh →
                     o' = shift (UFCDofMap._ufc_offset self) x) →
                  table !! c = Some (shift (UFCDofMap._ufc_offset self) x)).
  { intros Hall. destruct Hkey as [o' Ho']. rewrite Ho'. f_equal.
    apply Hall. rewrite Htable in Ho'.
    apply overwrite_lookup_Some in Ho' as [Ho'|Ho']; [| done].
    by rewrite lookup_empty in Ho'. }
  split.
  - intros Hnone. apply Hsame. intros o' Ho'.
    unfold collapse_writes in Ho'. apply list_elem_of_bind in Ho'
      as (cell' & Ho' & Hcell').
    apply elem_of_zip_lookup in Ho' as (k' & Hc' & Ho').
    by apply (Hnone cell' _ _ k' o' Hcell' (Hcollapsed cell' Hcell')
                (Horiginal cell' Hcell')).
  - intros Hmesh. apply Hsame. intros o' Ho'.
    unfold collapse_writes in Ho'. apply list_elem_of_bind in Ho'
      as (cell' & Ho' & Hcell').
    rewrite Hmesh in Ho', Hx.
    apply elem_of_zip_lookup in Ho' as (k' & Hc' & Ho').
    rewrite list_lookup_fmap, Hc' in Ho'. simpl in Ho'. injection Ho' as <-.
    rewrite Hk in Hx. by injection Hx as ->.
Qed.

(** Whatever mesh summary the map holds, the table [collapse] leaves is
    the result of the assignments of the pass over the cells: its keys
    are the dofs of the collapsed map on the cells, and the value of a
    key is that of the last assignment to it. *)
Lemma collapse_last_write_wins (num_processes : uint) h self
    (collapsed_map : gmap uint uint) mesh collapsed_dof_map h'
    (table : gmap uint uint) d' :
  UFCDofMap.collapse num_processes h self collapsed_map mesh
  = (Ok (collapsed_dof_map, h'), table) →
  h' !! UFCDofMap._ufc_dofmap self = Some d' →
  (∀ cell, cell ∈ Mesh.cells mesh →
     tabulates_local_dimension d' (UFCDofMap._ufc_mesh self)
       (UFCCell.view mesh cell)
     ∧ tabulates_local_dimension d' (UFCMesh.init mesh)
         (UFCCell.view mesh cell)) →
  table = overwrite ∅ (collapse_writes d' self mesh)
  ∧ (∀ c, is_Some (table !! c) ↔ c ∈ (collapse_writes d' self mesh).*1)
  ∧ (∀ ws1 c o ws2,
       collapse_writes d' self mesh = ws1 ++ (c, o) :: ws2 →
       c ∉ ws2.*1 →
       table !! c = Some o).
Proof.
  intros Hcollapse Hp Hfits.
  apply collapse_Ok_inv in Hcollapse
    as (Hord & d & d0 & dofs & cdofs & Hd & Hd0 & -> & -> & Hloop).
  assert (Hp' := Hp). rewrite lookup_insert_eq in Hp'. injection Hp' as ->.
  assert (Htable : table = overwrite ∅ (collapse_writes d' self mesh)).
  { destruct (collapse_cells_writes _ self _ d' mesh (1 <? num_processes)
                (replicate (N.to_nat (ufc.max_local_dimension d')) 0)
                (replicate (N.to_nat (ufc.max_local_dimension d')) 0) ∅
                Hp eq_refl Hfits)
      as (b1 & b2 & Heq); [apply length_replicate | apply length_replicate |].
    rewrite Hloop in Heq. by injection Heq as _ _ ->. }
  split; [done |]. split.
  - intros c. rewrite Htable, overwrite_dom, lookup_empty.
    split; [intros [[? [=]]|?]; done | by right].
  - intros ws1 c o ws2 Hws Hc. rewrite Htable, Hws.
    by apply overwrite_lookup_last.
Qed.

(** C10. [collapse] empties the supplied map before it fills it: when the
    call returns, the map it leaves, as well as the collapsed dof map, are
    the same for any other contents of the supplied map, in particular
    for the empty one; and the map is what the pass of this call over the
    cells leaves when started on the empty map. *)
Theorem collapse_clears_map (num_processes : uint) h self
    (collapsed_map other_map : gmap uint uint) mesh collapsed_dof_map h'
    (table : gmap uint uint) :
  UFCDofMap.collapse num_processes h self collapsed_map mesh
  = (Ok (collapsed_dof_map, h'), table) →
  UFCDofMap.collapse num_processes h self other_map mesh
  = (Ok (collapsed_dof_map, h'), table)
  ∧ UFCDofMap.collapse num_processes h self ∅ mesh
    = (Ok (collapsed_dof_map, h'), table)
  ∧ ∃ (n : uint) (dofs collapsed_dofs : list uint),
      UFCDofMap.max_local_dimension h' self = Ok n
      ∧ for_each_cell_try mesh
          (UFCDofMap.collapse_cell h' self collapsed_dof_map)
          (replicate (N.to_nat n) 0, replicate (N.to_nat n) 0, ∅)
        = Ok (dofs, collapsed_dofs, table).
Proof.
  intros Hcollapse.
  assert (Hany : ∀ m : gmap uint uint,
            UFCDofMap.collapse num_processes h self m mesh
            = (Ok (collapsed_dof_map, h'), table)).
  { intros m. revert Hcollapse. unfold UFCDofMap.collapse.
    destruct (_ ← UFCDofMap.deref h (UFCDofMap._ufc_dofmap self); _)
      as [[cdm h1]|e]; [| done].
    by destruct (n ← UFCDofMap.max_local_dimension h1 self; _)
      as [[[dofs cdofs] tbl]|e]. }
  split; [apply Hany |]. split; [apply Hany |].
  apply collapse_Ok_inv in Hcollapse
    as (Hord & d & d' & dofs & cdofs & Hd & Hd' & -> & -> & Hloop).
  exists (ufc.max_local_dimension d'), dofs, cdofs. split; [| done].
  apply max_local_dimension_Ok, lookup_insert_eq.
Qed.

(** A call of [collapse] that throws leaves the supplied map as it
    was: the map is emptied only once the collapsed dof map exists, and
    the pass over the cells does not throw. *)
Lemma collapse_Throw_keeps_map (num_processes : uint) h self
    (collapsed_map : gmap uint uint) mesh (e : error) (table : gmap uint uint) :
  UFCDofMap.collapse num_processes h self collapsed_map mesh = (Throw e, table) →
  table = collapsed_map.
Proof.
  unfold UFCDofMap.collapse.
  destruct (_ ← UFCDofMap.deref h (UFCDofMap._ufc_dofmap self); _)
    as [[cdm h1]|e1] eqn:Hfirst; [| by intros [= <- <-]].
  destruct (UFCDofMap.deref h (UFCDofMap._ufc_dofmap self)) as [d0|] eqn:Hd0;
    [| done].
  simpl in Hfirst.
  destruct (UFCDofMap.create num_processes h _ mesh) as [[cdm0 h0]|] eqn:Hcreate;
    [| done].
  simpl in Hfirst.
  apply create_Ok_inv in Hcreate as (Hord & d & d' & Hd & Hd' & -> & ->).
  assert (Hp : (<[UFCDofMap._ufc_dofmap self := d']> h)
                 !! UFCDofMap._ufc_dofmap self = Some d')
    by apply lookup_insert_eq.
  rewrite (global_dimension_Ok _ (UFCDofMap.mk _ _ _ _) d') in Hfirst by done.
  rewrite (global_dimension_Ok _ self d') in Hfirst by done.
  simpl in Hfirst. rewrite N.eqb_refl in Hfirst. simpl in Hfirst.
  injection Hfirst as <- <-.
  rewrite (max_local_dimension_Ok _ (UFCDofMap.mk _ _ _ _) d') by done.
  rewrite (max_local_dimension_Ok _ self d') by done.
  simpl.
  destruct (for_each_cell_try mesh _ _) as [[[dofs cdofs] tbl]|e2] eqn:Hloop;
    [done |].
  exfalso. revert Hloop.
  apply for_each_cell_try_returns.
  intros u cell [[b1 b2] tbl]. unfold UFCDofMap.collapse_cell.
  destruct (tabulate_dofs_returns _ self d' b1 u (Cell.index cell) Hp)
    as [b1' ->].
  simpl.
  destruct (tabulate_dofs_returns _ (UFCDofMap.mk (UFCDofMap._ufc_dofmap self)
              (UFCMesh.init mesh) 0 (1 <? num_processes)) d' b2 u
              (Cell.index cell) Hp) as [b2' ->].
  simpl. rewrite (local_dimension_Ok _ (UFCDofMap.mk _ _ _ _) d') by done.
  simpl. eauto.
Qed.

End collapse_properties.

(** ** The set of dofs *)

Lemma elem_of_set_insert (x y : uint) (s : Set_.t) :
  y ∈ Set_.insert x s ↔ y = x ∨ y ∈ s.
Proof.
  unfold Set_.insert. destruct (decide (x ∈ s)) as [Hx|Hx].
  - split; [by right |]. by intros [->|?].
  - rewrite elem_of_app, list_elem_of_singleton. tauto.
Qed.

Lemma set_insert_NoDup (x : uint) (s : Set_.t) :
  NoDup s → NoDup (Set_.insert x s).
Proof.
  intros Hs. unfold Set_.insert. destruct (decide (x ∈ s)) as [Hx|Hx]; [done |].
  apply NoDup_app. split; [done |]. split; [| apply NoDup_singleton].
  intros y Hy Hyx. apply list_elem_of_singleton in Hyx. by subst.
Qed.

Lemma foldl_set_insert_NoDup {B : Type} (f : B → uint) (l : list B) (s : Set_.t) :
  NoDup s → NoDup (foldl (λ s i, Set_.insert (f i) s) s l).
Proof.
  revert s. induction l as [|i l IH]; intros s Hs; [done |].
  simpl. by apply IH, set_insert_NoDup.
Qed.

Lemma elem_of_foldl_set_insert (l : list uint) (s : Set_.t) (y : uint) :
  y ∈ foldl (λ s x, Set_.insert x s) s l ↔ y ∈ s ∨ y ∈ l.
Proof.
  revert s. induction l as [|x l IH]; intros s; simpl.
  - rewrite elem_of_nil. tauto.
  - rewrite IH, elem_of_set_insert, elem_of_cons. tauto.
Qed.

(** The inner loop of [dofs] inserts the first [n] entries of the
    buffer. *)
Lemma set_insert_loop_take (n : uint) (dofs : list uint) (s : Set_.t) :
  (N.to_nat n ≤ length dofs)%nat →
  foldl (λ s i, Set_.insert (buffer_at dofs i) s) s (uint_range n)
  = foldl (λ s x, Set_.insert x s) s (take (N.to_nat n) dofs).
Proof.
  rewrite foldl_uint_range. generalize (N.to_nat n). clear n. intros k Hk.
  induction k as [|k IH]; [done |].
  destruct (lookup_lt_is_Some_2 dofs k) as [x Hx]; [lia |].
  rewrite seq_S, foldl_app, IH by lia. simpl.
  rewrite (take_S_r _ _ _ Hx), foldl_app. simpl.
  by rewrite (buffer_at_lookup _ _ _ Hx).
Qed.

Lemma StronglySorted_le_lt (l : list uint) :
  StronglySorted N.le l → NoDup l → StronglySorted N.lt l.
Proof.
  induction 1 as [|x l Hl IH Hx]; intros Hnd; [constructor |].
  apply NoDup_cons in Hnd as [Hxl Hnd].
  constructor; [by apply IH |].
  apply Forall_forall. intros y Hy.
  rewrite Forall_forall in Hx. specialize (Hx y Hy).
  assert (x ≠ y) by (by intros ->). lia.
Qed.

(** Sorting a set without duplicates leaves a strictly ascending
    sequence of the same elements. *)
Lemma set_sort_strict (s : Set_.t) :
  NoDup s →
  StronglySorted N.lt (Set_.sort s) ∧ NoDup (Set_.sort s) ∧ Set_.sort s ≡ₚ s.
Proof.
  intros Hs. unfold Set_.sort.
  assert (Hperm : merge_sort N.le s ≡ₚ s) by apply merge_sort_Permutation.
  assert (Hnd : NoDup (merge_sort N.le s)) by (by rewrite Hperm).
  split; [| done].
  apply StronglySorted_le_lt; [| done].
  apply StronglySorted_merge_sort; apply _.
Qed.

Lemma for_each_cell_try_invariant {S : Type} (I : S → Prop) (mesh : Mesh.t)
    (body : UFCCell.t → Cell.t → S → result S) (s : S) :
  (∀ ufc_cell cell s, I s → ∃ s', body ufc_cell cell s = Ok s' ∧ I s') →
  I s →
  ∃ s', for_each_cell_try mesh body s = Ok s' ∧ I s'.
Proof.
  intros Hbody. unfold for_each_cell_try.
  generalize (UFCCell.create mesh). revert s.
  induction (Mesh.cells mesh) as [|cell cells IH]; intros s u Hs; [by exists s |].
  simpl. destruct (Hbody (UFCCell.update u cell) cell s Hs) as (s' & -> & Hs').
  simpl. by apply IH.
Qed.

Section dofs.
Context {D : Type} `{!ufc.dof_map D}.
Implicit Types (h : gmap ptr D) (self : UFCDofMap.t) (d : D).

(** With a descriptor behind the pointer, the pass of [dofs] over the
    cells returns, and what it collects has no duplicates. *)
Lemma dofs_cells_NoDup h self d mesh (dofs : list uint) :
  h !! UFCDofMap._ufc_dofmap self = Some d →
  ∃ dofs' dof_list,
    for_each_cell_try mesh (UFCDofMap.dofs_cell h self) (dofs, Set_.empty)
    = Ok (dofs', dof_list)
    ∧ NoDup dof_list.
Proof.
  intros Hp.
  destruct (for_each_cell_try_invariant (λ s, NoDup s.2) mesh
              (UFCDofMap.dofs_cell h self) (dofs, Set_.empty))
    as ([dofs' dof_list] & Hloop & Hnd).
  - intros u cell [b s] Hs. unfold UFCDofMap.dofs_cell.
    destruct (tabulate_dofs_returns _ self d b u (Cell.index cell) Hp) as [b' ->].
    simpl. rewrite (local_dimension_Ok _ _ d) by done. simpl.
    eexists. split; [done |]. simpl. by apply foldl_set_insert_NoDup.
  - apply NoDup_nil_2.
  - by exists dofs', dof_list.
Qed.

(** When the descriptor stays within the buffer, the pass collects the
    dofs of the cells. *)
Lemma dofs_cells_elem_of h self d mesh (dofs dofs' : list uint)
    (dof_list : Set_.t) :
  h !! UFCDofMap._ufc_dofmap self = Some d →
  (∀ cell, cell ∈ Mesh.cells mesh →
     tabulates_local_dimension d (UFCDofMap._ufc_mesh self)
       (UFCCell.view mesh cell)) →
  length dofs = N.to_nat (ufc.max_local_dimension d) →
  for_each_cell_try mesh (UFCDofMap.dofs_cell h self) (dofs, Set_.empty)
  = Ok (dofs', dof_list) →
  ∀ x, x ∈ dof_list
       ↔ ∃ cell, cell ∈ Mesh.cells mesh
           ∧ x ∈ shift (UFCDofMap._ufc_offset self)
                   <$> ufc.tabulate_dofs d (UFCDofMap._ufc_mesh self)
                         (UFCCell.view mesh cell).
Proof.
  intros Hp Hfits Hdofs.
  set (tab cell :=
         shift (UFCDofMap._ufc_offset self)
           <$> ufc.tabulate_dofs d (UFCDofMap._ufc_mesh self)
                 (UFCCell.view mesh cell)).
  set (step cell (s : list uint * Set_.t) :=
         (tab cell
            ++ drop (N.to_nat (ufc.local_dimension d (UFCCell.view mesh cell)))
                 s.1,
          foldl (λ s x, Set_.insert x s) s.2 (tab cell))).
  rewrite (for_each_cell_try_inv
             (λ s, length s.1 = N.to_nat (ufc.max_local_dimension d))
             mesh _ step); [| | done].
  - intros [= Heq] x.
    replace dof_list
      with (foldl (λ s cell, step cell s) (dofs, Set_.empty) (Mesh.cells mesh)).2
      by (by rewrite Heq).
    clear Heq.
    assert (Hgen : ∀ s : list uint * Set_.t,
              x ∈ (foldl (λ s cell, step cell s) s (Mesh.cells mesh)).2
              ↔ x ∈ s.2 ∨ ∃ cell, cell ∈ Mesh.cells mesh ∧ x ∈ tab cell).
    { clear. induction (Mesh.cells mesh) as [|cell cells IH]; intros s; simpl.
      - split; [by left |]. intros [?|(cell & Hcell & _)]; [done |].
        by apply elem_of_nil in Hcell.
      - rewrite IH. simpl. rewrite elem_of_foldl_set_insert. split.
        + intros [[?|?]|(c & Hc & Hx)]; [by left | |].
          * right. exists cell. split; [apply list_elem_of_here | done].
          * right. exists c. split; [by apply list_elem_of_further | done].
        + intros [?|(c & Hc & Hx)]; [by left; left |].
          apply elem_of_cons in Hc as [->|Hc]; [by left; right |].
          right. by exists c. }
    rewrite Hgen. simpl. unfold Set_.empty. rewrite elem_of_nil. tauto.
  - intros cell [b s] Hcell Hb. simpl in Hb.
    destruct (Hfits cell Hcell) as [Hlen Hmax].
    unfold UFCDofMap.dofs_cell.
    rewrite (tabulate_dofs_fits _ self d) by (done || lia).
    simpl. rewrite (local_dimension_Ok _ _ d) by done. simpl.
    rewrite set_insert_loop_take
      by (rewrite length_app, length_fmap, length_drop; lia).
    rewrite take_app_length' by (by rewrite length_fmap).
    split; [done |]. unfold step, tab. simpl.
    rewrite length_app, length_fmap, length_drop. lia.
Qed.

(** C8. With a descriptor behind the pointer of the map, [dofs(mesh,
    true)] returns a strictly ascending sequence, which has no
    duplicates, and [dofs(mesh, false)] returns a sequence without
    duplicates that is a permutation of it, so that both hold the same
    indices, each once. When the descriptor stays within the buffer on
    the cells of the mesh, these indices are exactly those in the local
    dof list of some cell of the mesh. *)
Theorem dofs_sorted_without_duplicates h self d mesh :
  h !! UFCDofMap._ufc_dofmap self = Some d →
  ∃ sorted unsorted : list uint,
    UFCDofMap.dofs h self mesh true = Ok sorted
    ∧ UFCDofMap.dofs h self mesh false = Ok unsorted
    ∧ StronglySorted N.lt sorted
    ∧ NoDup sorted
    ∧ NoDup unsorted
    ∧ sorted ≡ₚ unsorted
    ∧ (∀ x, x ∈ sorted ↔ x ∈ unsorted)
    ∧ ((∀ cell, cell ∈ Mesh.cells mesh →
          tabulates_local_dimension d (UFCDofMap._ufc_mesh self)
            (UFCCell.view mesh cell)) →
       ∀ x, x ∈ unsorted
            ↔ ∃ cell l, cell ∈ Mesh.cells mesh
                ∧ UFCDofMap.cell_dofs h self mesh cell = Ok l
                ∧ x ∈ l).
Proof.
  intros Hp. unfold UFCDofMap.dofs.
  rewrite (max_local_dimension_Ok _ _ d) by done. simpl.
  destruct (dofs_cells_NoDup h self d mesh
              (replicate (N.to_nat (ufc.max_local_dimension d)) 0) Hp)
    as (dofs' & dof_list & Hloop & Hnd).
  rewrite Hloop. simpl.
  destruct (set_sort_strict dof_list Hnd) as (Hsorted & Hnd' & Hperm).
  exists (Set_.sort dof_list), dof_list.
  do 6 (split; [done |]). split.
  - intros x. by rewrite Hperm.
  - intros Hfits x.
    rewrite (dofs_cells_elem_of _ _ _ _ _ _ _ Hp Hfits (length_replicate _ _) Hloop).
    split.
    + intros (cell & Hcell & Hx). eexists cell, _. split; [done |].
      split; [| exact Hx]. apply cell_dofs_fits; [done | by apply Hfits].
    + intros (cell & l & Hcell & Hl & Hx). exists cell. split; [done |].
      rewrite (cell_dofs_fits _ _ d) in Hl by (done || by apply Hfits).
      by injection Hl as <-.
Qed.

End dofs.

(** ** Block matrices *)

Section block_matrix.
Context {M V : Type} `{!la.linear_algebra M V}.

(** C9. [size] returns the number of block rows for dimension 0 and the
    number of block columns, that is the length of the first block row,
    for dimension 1; for any other dimension it fails with an
    [UnsupportedOperationError]. For the matrix built for [m] block rows
    and [n] block columns these numbers are [m], and [n] as soon as there
    is a block row. [mult] with [transposed] fails with an
    [UnsupportedOperationError], whatever the matrix and the vectors
    are. *)
Theorem block_matrix_size_and_transposed_mult (self : BlockMatrix.t M) :
  BlockMatrix.size self 0 = Ok (N.of_nat (length (BlockMatrix.matrices self)))
  ∧ (∀ r rows,
       BlockMatrix.matrices self = r :: rows →
       BlockMatrix.size self 1 = Ok (N.of_nat (length r)))
  ∧ (∀ dim, dim ≠ 0 → dim ≠ 1 →
       BlockMatrix.size self dim
       = Throw (UnsupportedOperationError "BlockMatrix has rank 2!"))
  ∧ (∀ x y : BlockVector.t V,
       BlockMatrix.mult self x y true
       = Throw (UnsupportedOperationError
                  "BlockMatrix::mult: transposed not implemented."))
  ∧ (∀ m n : uint,
       BlockMatrix.size (BlockMatrix.create (V:=V) m n) 0 = Ok m
       ∧ (0 < m → BlockMatrix.size (BlockMatrix.create (V:=V) m n) 1 = Ok n)).
Proof.
  split; [done |]. split; [| split; [| split; [done |]]].
  - intros r rows Hrows. unfold BlockMatrix.size, BlockMatrix.row. simpl.
    by rewrite Hrows.
  - intros dim H0 H1. unfold BlockMatrix.size.
    apply N.eqb_neq in H0, H1. by rewrite H0, H1.
  - intros m n. unfold BlockMatrix.size, BlockMatrix.row, BlockMatrix.create.
    simpl. rewrite length_replicate, N2Nat.id. split; [done |].
    intros Hm. destruct (N.to_nat m) as [|k] eqn:Hk; [lia |]. simpl.
    by rewrite length_replicate, N2Nat.id.
Qed.

End block_matrix.

(** ** The theorems on the sample descriptors *)

(** C1. On the mixed element [nested] over two intervals, whose
    sub-space 0 has global dimension 3 and whose dofs on the first cell
    are 0, 1, 3, 5, 6: the sub-space 0 of the sub-space 1 extracted in
    one call with the path [1; 0] has offset 3, and the same sub-space
    extracted from the map of the sub-space 1 with the path [0] has
    offset 0, although that map has offset 3 itself. Both maps are on the
    descriptor of the same element, and the dof they tabulate on the
    first cell is 3 for the one, as in the whole space, and 0 for the
    other: the member [extract_sub_dofmap] starts from offset 0, not from
    the offset of the map it is called on. So the two extractions do not
    give identical offsets and dof lists. *)
Theorem extract_nested_path_loses_offset :
  sample.cell_dofs_of (sample.map_of sample.nested sample.intervals)
    sample.intervals sample.interval_0 = Ok [0; 1; 3; 5; 6]
  ∧ sample.offset_of sample.nested_1 = Ok 3
  ∧ sample.offset_of sample.nested_10_direct = Ok 3
  ∧ sample.offset_of sample.nested_10_stepwise = Ok 0
  ∧ sample.shape_of sample.nested_10_direct = Ok (Some sample.DG0)
  ∧ sample.shape_of sample.nested_10_stepwise = Ok (Some sample.DG0)
  ∧ sample.cell_dofs_of sample.nested_10_direct sample.intervals
      sample.interval_0 = Ok [3]
  ∧ sample.cell_dofs_of sample.nested_10_stepwise sample.intervals
      sample.interval_0 = Ok [0]
  ∧ sample.offset_of sample.nested_10_direct
    ≠ sample.offset_of sample.nested_10_stepwise.
Proof. repeat split; by vm_compute. Qed.

(** The map a sub dof map is extracted from contributes its descriptor
    and its mesh summary, not its offset. *)
Lemma extract_sub_dofmap_ignores_offset {D : Type} `{!ufc.dof_map D}
    (num_processes : uint) (h : gmap ptr D) (self : UFCDofMap.t)
    (offset : uint) (component : list uint) (mesh : Mesh.t) :
  UFCDofMap.extract_sub_dofmap num_processes h
    (UFCDofMap.with_ufc_offset self offset) component mesh
  = UFCDofMap.extract_sub_dofmap num_processes h self component mesh.
Proof. done. Qed.

Lemma sample_fits_triangles (d' : sample.t) (cell : Cell.t) :
  sample.P1xP1_sub_heap !! 2%positive = Some d' →
  cell ∈ Mesh.cells sample.triangles →
  tabulates_local_dimension d' (UFCMesh.init sample.triangles)
    (UFCCell.view sample.triangles cell).
Proof.
  intros [= <-] Hcell. apply list_elem_of_In in Hcell. simpl in Hcell.
  destruct Hcell as [<-|[<-|[]]]; split; by vm_compute.
Qed.

Lemma tabulate_dofs_adds_offset_witness :
  sample.P1xP1_sub_heap !! UFCDofMap._ufc_dofmap sample.P1xP1_sub_map
  = Some sample.P1_descriptor
  ∧ length (ufc.tabulate_dofs sample.P1_descriptor
              (UFCDofMap._ufc_mesh sample.P1xP1_sub_map) sample.triangle_1_view)
    = N.to_nat (ufc.local_dimension sample.P1_descriptor sample.triangle_1_view)
  ∧ (N.to_nat (ufc.local_dimension sample.P1_descriptor sample.triangle_1_view)
     ≤ length [0; 0; 0; 9])%nat
  ∧ ∃ local_dim dofs',
      UFCDofMap.local_dimension sample.P1xP1_sub_heap sample.P1xP1_sub_map
        sample.triangle_1_view = Ok local_dim
      ∧ UFCDofMap.tabulate_dofs sample.P1xP1_sub_heap sample.P1xP1_sub_map
          [0; 0; 0; 9] sample.triangle_1_view 1 = Ok dofs'
      ∧ take (N.to_nat local_dim) dofs'
        = (λ x, if 0 <? UFCDofMap._ufc_offset sample.P1xP1_sub_map
                then uint_add x (UFCDofMap._ufc_offset sample.P1xP1_sub_map)
                else x)
            <$> ufc.tabulate_dofs sample.P1_descriptor
                  (UFCDofMap._ufc_mesh sample.P1xP1_sub_map) sample.triangle_1_view
      ∧ (UFCDofMap._ufc_offset sample.P1xP1_sub_map = 0 →
         take (N.to_nat local_dim) dofs'
         = ufc.tabulate_dofs sample.P1_descriptor
             (UFCDofMap._ufc_mesh sample.P1xP1_sub_map) sample.triangle_1_view)
      ∧ length (take (N.to_nat local_dim) dofs') = N.to_nat local_dim
      ∧ drop (N.to_nat local_dim) dofs' = drop (N.to_nat local_dim) [0; 0; 0; 9].
Proof.
  assert (H1 : sample.P1xP1_sub_heap
                 !! UFCDofMap._ufc_dofmap sample.P1xP1_sub_map
               = Some sample.P1_descriptor) by reflexivity.
  assert (H2 : length (ufc.tabulate_dofs sample.P1_descriptor
                         (UFCDofMap._ufc_mesh sample.P1xP1_sub_map) sample.triangle_1_view)
               = N.to_nat (ufc.local_dimension sample.P1_descriptor sample.triangle_1_view))
    by reflexivity.
  assert (H3 : (N.to_nat (ufc.local_dimension sample.P1_descriptor sample.triangle_1_view)
                ≤ length [0; 0; 0; 9])%nat) by (vm_compute; lia).
  exact (conj H1 (conj H2 (conj H3
           (tabulate_dofs_adds_offset sample.P1xP1_sub_heap
              sample.P1xP1_sub_map sample.P1_descriptor [0; 0; 0; 9] sample.triangle_1_view 1
              H1 H2 H3)))).
Defined.

Lemma extract_offset_sums_sibling_dimensions_witness :
  sample.P1xP1_heap !! UFCDofMap._ufc_dofmap sample.P1xP1_map
  = Some sample.P1xP1_descriptor
  ∧ UFCDofMap.extract_sub_dofmap 1 sample.P1xP1_heap sample.P1xP1_map [1]
      sample.triangles
    = Ok (sample.P1xP1_sub_map, sample.P1xP1_sub_heap)
  ∧ ∃ (siblings : list sample.t) (di : sample.t),
      Forall2 (λ j dj,
                 UFCDofMap.init_ufc_dofmap
                   (ufc.create_sub_dof_map sample.P1xP1_descriptor j)
                   (UFCDofMap._ufc_mesh sample.P1xP1_map) sample.triangles
                 = Ok dj)
              (uint_range 1) siblings
      ∧ UFCDofMap._ufc_offset sample.P1xP1_sub_map
        = foldl uint_add 0 (ufc.global_dimension <$> siblings)
      ∧ UFCDofMap._ufc_offset sample.P1xP1_sub_map
        = uint_sum (ufc.global_dimension <$> siblings) mod UINT_MODULUS
      ∧ (uint_sum (ufc.global_dimension <$> siblings) < UINT_MODULUS →
         UFCDofMap._ufc_offset sample.P1xP1_sub_map
         = uint_sum (ufc.global_dimension <$> siblings))
      ∧ UFCDofMap.init_ufc_dofmap
          (ufc.create_sub_dof_map sample.P1xP1_descriptor 1)
          (UFCMesh.init sample.triangles) sample.triangles = Ok di
      ∧ sample.P1xP1_sub_heap !! UFCDofMap._ufc_dofmap sample.P1xP1_sub_map
        = Some di.
Proof.
  assert (H1 : sample.P1xP1_heap !! UFCDofMap._ufc_dofmap sample.P1xP1_map
               = Some sample.P1xP1_descriptor) by reflexivity.
  assert (H2 : UFCDofMap.extract_sub_dofmap 1 sample.P1xP1_heap
                 sample.P1xP1_map [1] sample.triangles
               = Ok (sample.P1xP1_sub_map, sample.P1xP1_sub_heap))
    by (vm_compute; reflexivity).
  exact (conj H1 (conj H2
           (extract_offset_sums_sibling_dimensions 1 sample.P1xP1_heap
              sample.P1xP1_map sample.P1xP1_descriptor 1 sample.triangles
              sample.P1xP1_sub_map sample.P1xP1_sub_heap H1 H2))).
Defined.

Lemma sample_fits_triangles_twice (d' : sample.t) (cell : Cell.t) :
  sample.P1xP1_sub_heap !! UFCDofMap._ufc_dofmap sample.P1xP1_sub_map
  = Some d' →
  cell ∈ Mesh.cells sample.triangles →
  tabulates_local_dimension d' (UFCDofMap._ufc_mesh sample.P1xP1_sub_map)
    (UFCCell.view sample.triangles cell)
  ∧ tabulates_local_dimension d' (UFCMesh.init sample.triangles)
      (UFCCell.view sample.triangles cell).
Proof.
  intros Hd Hcell. split; exact (sample_fits_triangles d' cell Hd Hcell).
Qed.

Lemma strided_fits_intervals (d' : strided.t) (cell : Cell.t) :
  strided.collapsed_heap !! UFCDofMap._ufc_dofmap strided.map = Some d' →
  cell ∈ Mesh.cells sample.intervals →
  tabulates_local_dimension d' (UFCDofMap._ufc_mesh strided.map)
    (UFCCell.view sample.intervals cell)
  ∧ tabulates_local_dimension d' (UFCMesh.init sample.intervals)
      (UFCCell.view sample.intervals cell).
Proof. intros _ _. by repeat split. Qed.

Lemma collapse_round_trip_witness :
  (UFCDofMap.collapse 1 sample.P1xP1_sub_heap sample.P1xP1_sub_map
     {[ 7 := 9 ]} sample.triangles
   = (Ok (sample.P1xP1_collapsed_map, sample.P1xP1_sub_heap),
      sample.P1xP1_translation)
   ∧ (∀ d' cell,
        sample.P1xP1_sub_heap !! UFCDofMap._ufc_dofmap sample.P1xP1_sub_map
        = Some d' →
        cell ∈ Mesh.cells sample.triangles →
        tabulates_local_dimension d'
          (UFCDofMap._ufc_mesh sample.P1xP1_sub_map)
          (UFCCell.view sample.triangles cell)
        ∧ tabulates_local_dimension d' (UFCMesh.init sample.triangles)
            (UFCCell.view sample.triangles cell))
   ∧ (UFCDofMap._ufc_dofmap sample.P1xP1_collapsed_map
      = UFCDofMap._ufc_dofmap sample.P1xP1_sub_map
      ∧ UFCDofMap._ufc_offset sample.P1xP1_collapsed_map = 0)
   ∧ (∃ d', sample.P1xP1_sub_heap
              !! UFCDofMap._ufc_dofmap sample.P1xP1_sub_map = Some d'
        ∧ sample.P1xP1_translation
          = overwrite ∅
              (collapse_writes d' sample.P1xP1_sub_map sample.triangles)
        ∧ ∀ ws1 c o ws2,
            collapse_writes d' sample.P1xP1_sub_map sample.triangles
            = ws1 ++ (c, o) :: ws2 →
            c ∉ ws2.*1 →
            sample.P1xP1_translation !! c = Some o)
   ∧ (∀ cell, cell ∈ Mesh.cells sample.triangles →
        ∃ collapsed original : list uint,
          UFCDofMap.cell_dofs sample.P1xP1_sub_heap
            sample.P1xP1_collapsed_map sample.triangles cell = Ok collapsed
          ∧ UFCDofMap.cell_dofs sample.P1xP1_sub_heap sample.P1xP1_sub_map
              sample.triangles cell = Ok original
          ∧ length collapsed = length original
          ∧ ∀ (k : nat) (c : uint),
              collapsed !! k = Some c →
              ∃ o, original !! k = Some o
                ∧ is_Some (sample.P1xP1_translation !! c)
                ∧ ((∀ cell' collapsed' original' (k' : nat) (o' : uint),
                      cell' ∈ Mesh.cells sample.triangles →
                      UFCDofMap.cell_dofs sample.P1xP1_sub_heap
                        sample.P1xP1_collapsed_map sample.triangles cell'
                      = Ok collapsed' →
                      UFCDofMap.cell_dofs sample.P1xP1_sub_heap
                        sample.P1xP1_sub_map sample.triangles cell'
                      = Ok original' →
                      collapsed' !! k' = Some c →
                      original' !! k' = Some o' →
                      o' = o) →
                   sample.P1xP1_translation !! c = Some o)
                ∧ (UFCDofMap._ufc_mesh sample.P1xP1_sub_map
                   = UFCMesh.init sample.triangles →
                   sample.P1xP1_translation !! c = Some o)))
  ∧ (UFCDofMap.collapse 1 strided.heap strided.map {[ 7 := 9 ]}
       sample.intervals
     = (Ok (strided.collapsed_map, strided.collapsed_heap),
        strided.translation)
     ∧ (∀ d' cell,
          strided.collapsed_heap !! UFCDofMap._ufc_dofmap strided.map
          = Some d' →
          cell ∈ Mesh.cells sample.intervals →
          tabulates_local_dimension d' (UFCDofMap._ufc_mesh strided.map)
            (UFCCell.view sample.intervals cell)
          ∧ tabulates_local_dimension d' (UFCMesh.init sample.intervals)
              (UFCCell.view sample.intervals cell))
     ∧ (UFCDofMap._ufc_dofmap strided.collapsed_map
        = UFCDofMap._ufc_dofmap strided.map
        ∧ UFCDofMap._ufc_offset strided.collapsed_map = 0)
     ∧ (∃ d', strided.collapsed_heap !! UFCDofMap._ufc_dofmap strided.map
              = Some d'
          ∧ strided.translation
            = overwrite ∅ (collapse_writes d' strided.map sample.intervals)
          ∧ ∀ ws1 c o ws2,
              collapse_writes d' strided.map sample.intervals
              = ws1 ++ (c, o) :: ws2 →
              c ∉ ws2.*1 →
              strided.translation !! c = Some o)
     ∧ (∀ cell, cell ∈ Mesh.cells sample.intervals →
          ∃ collapsed original : list uint,
            UFCDofMap.cell_dofs strided.collapsed_heap strided.collapsed_map
              sample.intervals cell = Ok collapsed
            ∧ UFCDofMap.cell_dofs strided.collapsed_heap strided.map
                sample.intervals cell = Ok original
            ∧ length collapsed = length original
            ∧ ∀ (k : nat) (c : uint),
                collapsed !! k = Some c →
                ∃ o, original !! k = Some o
                  ∧ is_Some (strided.translation !! c)
                  ∧ ((∀ cell' collapsed' original' (k' : nat) (o' : uint),
                        cell' ∈ Mesh.cells sample.intervals →
                        UFCDofMap.cell_dofs strided.collapsed_heap
                          strided.collapsed_map sample.intervals cell'
                        = Ok collapsed' →
                        UFCDofMap.cell_dofs strided.collapsed_heap
                          strided.map sample.intervals cell'
                        = Ok original' →
                        collapsed' !! k' = Some c →
                        original' !! k' = Some o' →
                        o' = o) →
                     strided.translation !! c = Some o)
                  ∧ (UFCDofMap._ufc_mesh strided.map
                     = UFCMesh.init sample.intervals →
                     strided.translation !! c = Some o))).
Proof.
  assert (H1 : UFCDofMap.collapse 1 sample.P1xP1_sub_heap sample.P1xP1_sub_map
                 {[ 7 := 9 ]} sample.triangles
               = (Ok (sample.P1xP1_collapsed_map, sample.P1xP1_sub_heap),
                  sample.P1xP1_translation))
    by (vm_compute; reflexivity).
  assert (H2 : UFCDofMap.collapse 1 strided.heap strided.map {[ 7 := 9 ]}
                 sample.intervals
               = (Ok (strided.collapsed_map, strided.collapsed_heap),
                  strided.translation))
    by (vm_compute; reflexivity).
  exact (conj
           (conj H1 (conj sample_fits_triangles_twice
              (collapse_round_trip 1 sample.P1xP1_sub_heap
                 sample.P1xP1_sub_map {[ 7 := 9 ]} sample.triangles
                 sample.P1xP1_collapsed_map sample.P1xP1_sub_heap
                 sample.P1xP1_translation H1 sample_fits_triangles_twice)))
           (conj H2 (conj strided_fits_intervals
              (collapse_round_trip 1 strided.heap strided.map {[ 7 := 9 ]}
                 sample.intervals strided.collapsed_map
                 strided.collapsed_heap strided.translation
                 H2 strided_fits_intervals)))).
Defined.

(** The round trip fails on a map that holds the mesh summary of another
    mesh. The map of the strided descriptor is built by the constructor
    for the triangles, and [collapse] is called on it with the mesh of the
    two intervals. On the first interval both maps have the dofs 0 and 1;
    on the second one the collapsed map has the dofs 1 and 2 and the
    original map the dofs 2 and 3. The assignment for the second interval
    replaces the entry of the dof 1, so the table sends the second dof of
    the collapsed map on the first interval to 2, not to the second dof of
    the original map on that interval, which is 1. *)
Lemma collapse_round_trip_counterexample :
  UFCDofMap.create 1 strided.new_heap 1%positive sample.triangles
  = Ok (strided.map, strided.heap)
  ∧ UFCDofMap.collapse 1 strided.heap strided.map ∅ sample.intervals
    = (Ok (strided.collapsed_map, strided.collapsed_heap),
       strided.translation)
  ∧ Mesh.cells sample.intervals = [sample.interval_0; sample.interval_1]
  ∧ UFCDofMap.cell_dofs strided.collapsed_heap strided.collapsed_map
      sample.intervals sample.interval_0 = Ok [0; 1]
  ∧ UFCDofMap.cell_dofs strided.collapsed_heap strided.map
      sample.intervals sample.interval_0 = Ok [0; 1]
  ∧ UFCDofMap.cell_dofs strided.collapsed_heap strided.collapsed_map
      sample.intervals sample.interval_1 = Ok [1; 2]
  ∧ UFCDofMap.cell_dofs strided.collapsed_heap strided.map
      sample.intervals sample.interval_1 = Ok [2; 3]
  ∧ strided.translation !! 1 = Some 2
  ∧ ¬ (∀ cell (collapsed original : list uint) (k : nat) (c o : uint),
         cell ∈ Mesh.cells sample.intervals →
         UFCDofMap.cell_dofs strided.collapsed_heap strided.collapsed_map
           sample.intervals cell = Ok collapsed →
         UFCDofMap.cell_dofs strided.collapsed_heap strided.map
           sample.intervals cell = Ok original →
         collapsed !! k = Some c →
         original !! k = Some o →
         strided.translation !! c = Some o).
Proof.
  do 8 (split; [by vm_compute |]).
  intros Hall.
  specialize (Hall sample.interval_0 [0; 1] [0; 1] 1%nat 1 1).
  assert (Hcell : sample.interval_0 ∈ Mesh.cells sample.intervals)
    by apply list_elem_of_here.
  specialize (Hall Hcell eq_refl eq_refl eq_refl eq_refl).
  by vm_compute in Hall.
Qed.

Lemma collapse_clears_map_witness :
  UFCDofMap.collapse 1 sample.P1xP1_sub_heap sample.P1xP1_sub_map
    {[ 7 := 9 ]} sample.triangles
  = (Ok (sample.P1xP1_collapsed_map, sample.P1xP1_sub_heap),
     sample.P1xP1_translation)
  ∧ (UFCDofMap.collapse 1 sample.P1xP1_sub_heap sample.P1xP1_sub_map
       {[ 0 := 0; 8 := 1 ]} sample.triangles
     = (Ok (sample.P1xP1_collapsed_map, sample.P1xP1_sub_heap),
        sample.P1xP1_translation)
     ∧ UFCDofMap.collapse 1 sample.P1xP1_sub_heap sample.P1xP1_sub_map
         ∅ sample.triangles
       = (Ok (sample.P1xP1_collapsed_map, sample.P1xP1_sub_heap),
          sample.P1xP1_translation)
     ∧ ∃ (n : uint) (dofs collapsed_dofs : list uint),
         UFCDofMap.max_local_dimension sample.P1xP1_sub_heap
           sample.P1xP1_sub_map = Ok n
         ∧ for_each_cell_try sample.triangles
             (UFCDofMap.collapse_cell sample.P1xP1_sub_heap
                sample.P1xP1_sub_map sample.P1xP1_collapsed_map)
             (replicate (N.to_nat n) 0, replicate (N.to_nat n) 0, ∅)
           = Ok (dofs, collapsed_dofs, sample.P1xP1_translation)).
Proof.
  assert (H1 : UFCDofMap.collapse 1 sample.P1xP1_sub_heap sample.P1xP1_sub_map
                 {[ 7 := 9 ]} sample.triangles
               = (Ok (sample.P1xP1_collapsed_map, sample.P1xP1_sub_heap),
                  sample.P1xP1_translation))
    by (vm_compute; reflexivity).
  exact (conj H1
           (collapse_clears_map 1 sample.P1xP1_sub_heap sample.P1xP1_sub_map
              {[ 7 := 9 ]} {[ 0 := 0; 8 := 1 ]} sample.triangles
              sample.P1xP1_collapsed_map sample.P1xP1_sub_heap
              sample.P1xP1_translation H1)).
Defined.

Lemma extract_sub_dofmap_static_errors_on_samples :
  (ufc.num_sub_dof_maps sample.P1_descriptor = 0
   ∧ UFCDofMap.extract_sub_dofmap_static sample.P1_descriptor 0 [0]
       sample.triangles_summary sample.triangles
     = Throw NoSubspacesError)
  ∧ (ufc.num_sub_dof_maps sample.P1xP1_descriptor ≠ 0
     ∧ ufc.num_sub_dof_maps sample.P1xP1_descriptor ≤ 2
     ∧ UFCDofMap.extract_sub_dofmap_static sample.P1xP1_descriptor 0 [2; 0]
         sample.triangles_summary sample.triangles
       = Throw (IndexOutOfRangeError 2
                  (ufc.num_sub_dof_maps sample.P1xP1_descriptor)))
  ∧ (1 < ufc.num_sub_dof_maps sample.P1xP1_descriptor
     ∧ UFCDofMap.extract_sub_dofmap_static sample.P1xP1_descriptor 0 [1]
         sample.triangles_summary sample.triangles
       = Ok (ufc.create_sub_dof_map sample.P1xP1_descriptor 1, 4)).
Proof.
  split; [| split].
  - assert (H0 : ufc.num_sub_dof_maps sample.P1_descriptor = 0) by reflexivity.
    exact (conj H0
             (proj1 (extract_sub_dofmap_static_errors sample.P1_descriptor 0
                       [0] sample.triangles_summary sample.triangles) H0)).
  - assert (H0 : ufc.num_sub_dof_maps sample.P1xP1_descriptor ≠ 0)
      by (vm_compute; discriminate).
    assert (H1 : ufc.num_sub_dof_maps sample.P1xP1_descriptor ≤ 2)
      by (vm_compute; discriminate).
    exact (conj H0 (conj H1
             (proj1 (proj1 (proj2
                (extract_sub_dofmap_static_errors sample.P1xP1_descriptor 0
                   [2; 0] sample.triangles_summary sample.triangles))
                2 [0] eq_refl H0 H1)))).
  - assert (H1 : 1 < ufc.num_sub_dof_maps sample.P1xP1_descriptor)
      by (vm_compute; reflexivity).
    exact (conj H1
             (proj2 (proj2
                (extract_sub_dofmap_static_errors sample.P1xP1_descriptor 0
                   [1] sample.triangles_summary sample.triangles))
                1 [] eq_refl H1)).
Qed.

(** C5. On the map of [P1xP1] over the triangles, whose descriptor has
    two sub-spaces, the extraction of the sub-space 2 fails with an
    [IndexOutOfRangeError] whose message names the index 2 and the count
    2. The extraction of the sub-space 3000000000, an [unsigned int] as
    well, fails with the same kind of error for the index 3000000000 and
    the count 2, through the static helper and through the member
    function alike; but its message, formatted with [%d], shows the
    index as -1294967296, and is not the message that names the index
    3000000000. *)
Theorem extract_index_message_shows_signed_index :
  ufc.num_sub_dof_maps sample.P1xP1_descriptor = 2
  ∧ UFCDofMap.extract_sub_dofmap_static sample.P1xP1_descriptor 0 [2]
      sample.triangles_summary sample.triangles
    = Throw (IndexOutOfRangeError 2 2)
  ∧ what (IndexOutOfRangeError 2 2)
    = "Unable to extract sub system 2 (only 2 sub systems defined)."
  ∧ 3000000000 < UINT_MODULUS
  ∧ UFCDofMap.extract_sub_dofmap_static sample.P1xP1_descriptor 0
      [3000000000] sample.triangles_summary sample.triangles
    = Throw (IndexOutOfRangeError 3000000000 2)
  ∧ UFCDofMap.extract_sub_dofmap 1 sample.P1xP1_heap sample.P1xP1_map
      [3000000000] sample.triangles
    = Throw (IndexOutOfRangeError 3000000000 2)
  ∧ what (IndexOutOfRangeError 3000000000 2)
    = "Unable to extract sub system -1294967296 (only 2 sub systems defined)."
  ∧ what (IndexOutOfRangeError 3000000000 2)
    ≠ "Unable to extract sub system 3000000000 (only 2 sub systems defined).".
Proof. repeat split; by vm_compute. Qed.

Lemma init_fails_on_missing_entities_witness :
  1 ≤ Mesh.topology_dim sample.triangles
  ∧ ufc.needs_mesh_entities (sample.new sample.edge_dofs) 1 = true
  ∧ Mesh.num_entities sample.triangles 1 = 0
  ∧ ∃ k', k' ≤ 1
      ∧ ufc.needs_mesh_entities (sample.new sample.edge_dofs) k' = true
      ∧ Mesh.num_entities sample.triangles k' = 0
      ∧ (∀ j, j < k' →
           ¬ (ufc.needs_mesh_entities (sample.new sample.edge_dofs) j = true
              ∧ Mesh.num_entities sample.triangles j = 0))
      ∧ (∀ m : UFCMesh.t,
           UFCDofMap.init_ufc_dofmap (sample.new sample.edge_dofs) m
             sample.triangles = Throw (MissingEntitiesError k'))
      ∧ (∀ h self,
           h !! UFCDofMap._ufc_dofmap self = Some (sample.new sample.edge_dofs) →
           Mesh.ordered sample.triangles = true →
           UFCDofMap.init h self sample.triangles
           = Throw (MissingEntitiesError k'))
      ∧ what (MissingEntitiesError k')
        = "Unable to create function space, missing entities of dimension "
            +:+ pretty k' +:+ ". Try calling mesh.init(" +:+ pretty k' +:+ ").".
Proof.
  assert (H1 : 1 ≤ Mesh.topology_dim sample.triangles)
    by (vm_compute; discriminate).
  assert (H2 : ufc.needs_mesh_entities (sample.new sample.edge_dofs) 1 = true)
    by reflexivity.
  assert (H3 : Mesh.num_entities sample.triangles 1 = 0) by reflexivity.
  exact (conj H1 (conj H2 (conj H3
           (init_fails_on_missing_entities (sample.new sample.edge_dofs)
              sample.triangles 1 H1 H2 H3)))).
Defined.

(** The scenario of the specification: on the triangles without edges,
    the constructor of a map for the element with one dof per edge fails
    and names dimension 1. *)
Example init_edge_dofs_on_triangles :
  sample.map_of sample.edge_dofs sample.triangles
  = Throw (MissingEntitiesError 1)
  ∧ sample.map_of sample.edge_dofs sample.unordered_triangles
    = Throw OrderingError
  ∧ what (MissingEntitiesError 1)
    = "Unable to create function space, missing entities of dimension 1. Try calling mesh.init(1).".
Proof. repeat split; by vm_compute. Qed.

Lemma sample_intervals_complete (k : uint) :
  k ≤ Mesh.topology_dim sample.intervals →
  ¬ (ufc.needs_mesh_entities (sample.new sample.DG0) k = true
     ∧ Mesh.num_entities sample.intervals k = 0).
Proof.
  intros _ [Hneeds Hzero]. simpl in Hneeds.
  apply N.eqb_eq in Hneeds. subst k. discriminate Hzero.
Qed.

Lemma init_cell_pass_iff_init_mesh_witness :
  (∀ k, k ≤ Mesh.topology_dim sample.intervals →
     ¬ (ufc.needs_mesh_entities (sample.new sample.DG0) k = true
        ∧ Mesh.num_entities sample.intervals k = 0))
  ∧ ∃ l, UFCDofMap.init_ufc_dofmap (Logged.new (sample.new sample.DG0))
           (UFCMesh.init sample.intervals) sample.intervals = Ok l
      ∧ UFCDofMap.init_ufc_dofmap (sample.new sample.DG0)
          (UFCMesh.init sample.intervals) sample.intervals
        = Ok (Logged.descriptor l)
      ∧ Logged.calls l
        = Logged.InitMesh (UFCMesh.init sample.intervals)
            :: (if (ufc.init_mesh (sample.new sample.DG0)
                      (UFCMesh.init sample.intervals)).2
                then cell_pass (UFCMesh.init sample.intervals) sample.intervals
                else [])
      ∧ ((ufc.init_mesh (sample.new sample.DG0)
            (UFCMesh.init sample.intervals)).2 = true
         ↔ Logged.InitCellFinalize ∈ Logged.calls l)
      ∧ ((ufc.init_mesh (sample.new sample.DG0)
            (UFCMesh.init sample.intervals)).2 = false
         ↔ Logged.calls l
           = [Logged.InitMesh (UFCMesh.init sample.intervals)]).
Proof.
  exact (conj sample_intervals_complete
           (init_cell_pass_iff_init_mesh (sample.new sample.DG0)
              (UFCMesh.init sample.intervals) sample.intervals
              sample_intervals_complete)).
Defined.

Lemma dofs_sorted_without_duplicates_witness :
  sample.P1xP1_sub_heap !! UFCDofMap._ufc_dofmap sample.P1xP1_sub_map
  = Some sample.P1_descriptor
  ∧ ∃ sorted unsorted : list uint,
      UFCDofMap.dofs sample.P1xP1_sub_heap sample.P1xP1_sub_map
        sample.triangles true = Ok sorted
      ∧ UFCDofMap.dofs sample.P1xP1_sub_heap sample.P1xP1_sub_map
          sample.triangles false = Ok unsorted
      ∧ StronglySorted N.lt sorted
      ∧ NoDup sorted
      ∧ NoDup unsorted
      ∧ sorted ≡ₚ unsorted
      ∧ (∀ x, x ∈ sorted ↔ x ∈ unsorted)
      ∧ ((∀ cell, cell ∈ Mesh.cells sample.triangles →
            tabulates_local_dimension sample.P1_descriptor
              (UFCDofMap._ufc_mesh sample.P1xP1_sub_map)
              (UFCCell.view sample.triangles cell)) →
         ∀ x, x ∈ unsorted
              ↔ ∃ cell l, cell ∈ Mesh.cells sample.triangles
                  ∧ UFCDofMap.cell_dofs sample.P1xP1_sub_heap
                      sample.P1xP1_sub_map sample.triangles cell = Ok l
                  ∧ x ∈ l).
Proof.
  assert (H1 : sample.P1xP1_sub_heap
                 !! UFCDofMap._ufc_dofmap sample.P1xP1_sub_map
               = Some sample.P1_descriptor) by reflexivity.
  exact (conj H1
           (dofs_sorted_without_duplicates sample.P1xP1_sub_heap
              sample.P1xP1_sub_map sample.P1_descriptor sample.triangles H1)).
Defined.

Lemma block_matrix_size_and_transposed_mult_witness :
  BlockMatrix.size sample.blocks 0 = Ok 1
  ∧ (BlockMatrix.matrices sample.blocks
     = [[Some [[1; 2]; [3; 4]]%Z; Some [[1]; [1]]%Z]]
     ∧ BlockMatrix.size sample.blocks 1 = Ok 2)
  ∧ (2 ≠ 0 ∧ 2 ≠ 1
     ∧ BlockMatrix.size sample.blocks 2
       = Throw (UnsupportedOperationError "BlockMatrix has rank 2!"))
  ∧ BlockMatrix.mult sample.blocks [[1; 1]%Z; [1]%Z] [[0; 0]%Z] true
    = Throw (UnsupportedOperationError
               "BlockMatrix::mult: transposed not implemented.")
  ∧ (0 < 2
     ∧ BlockMatrix.size
         (BlockMatrix.create (M:=list (list Z)) (V:=list Z) 2 3) 1 = Ok 3).
Proof.
  pose proof (block_matrix_size_and_transposed_mult (V:=list Z) sample.blocks)
    as (Hrows & Hcolumns & Hrank & Htransposed & Hcreate).
  assert (H0 : (2 : uint) ≠ 0) by discriminate.
  assert (H1 : (2 : uint) ≠ 1) by discriminate.
  assert (H2 : 0 < 2) by reflexivity.
  split; [exact Hrows |]. split; [exact (conj eq_refl (Hcolumns _ _ eq_refl)) |].
  split; [exact (conj H0 (conj H1 (Hrank 2 H0 H1))) |].
  split; [exact (Htransposed _ _) |].
  exact (conj H2 (proj2 (Hcreate 2 3) H2)).
Defined.

(** ** Scenarios of the specification *)

(** Two equal scalar sub-spaces of global dimension 4: the sub-space 1
    is extracted with offset 4, its dofs on a cell are those of its own
    descriptor plus 4, and collapsing it gives a table with the values 4
    to 7. *)
Example P1xP1_scenario :
  sample.map_of sample.P1xP1 sample.triangles
  = Ok (sample.P1xP1_map, sample.P1xP1_heap)
  ∧ UFCDofMap.global_dimension sample.P1xP1_sub_heap sample.P1xP1_sub_map
    = Ok 4
  ∧ UFCDofMap.cell_dofs sample.P1xP1_sub_heap sample.P1xP1_collapsed_map
      sample.triangles sample.triangle_1 = Ok [1; 2; 3]
  ∧ UFCDofMap.cell_dofs sample.P1xP1_sub_heap sample.P1xP1_sub_map
      sample.triangles sample.triangle_1 = Ok [5; 6; 7]
  ∧ merge_sort N.le (map_to_list sample.P1xP1_translation).*2 = [4; 5; 6; 7].
Proof. repeat split; by vm_compute. Qed.

(** A scalar element on one interval: the global dimension is 2 and
    there is no sub-space to extract. *)
Example scalar_scenario :
  let mesh := Mesh.mk 1 1 [2; 1] true [sample.interval_0] in
  match sample.map_of sample.P1 mesh with
  | Ok (m, h) =>
      UFCDofMap.global_dimension h m = Ok 2
      ∧ UFCDofMap.extract_sub_dofmap 1 h m [0] mesh = Throw NoSubspacesError
  | Throw _ => False
  end.
Proof. by vm_compute. Qed.

(** * Further properties *)

(** ** Nested extraction *)

Lemma uint_add_lt (a b : uint) : uint_add a b < UINT_MODULUS.
Proof. unfold uint_add. by apply N.mod_lt. Qed.

Lemma uint_add_assoc_0 (a g x : uint) :
  uint_add (uint_add a g) x = uint_add a (uint_add (uint_add 0 g) x).
Proof.
  unfold uint_add. rewrite N.add_0_l.
  rewrite N.Div0.add_mod_idemp_l, N.Div0.add_mod_idemp_l, N.Div0.add_mod_idemp_r.
  f_equal. lia.
Qed.

Section nested_extraction.
Context {D : Type} `{!ufc.dof_map D}.
Implicit Types (h : gmap ptr D) (self : UFCDofMap.t) (d : D).

(** X1. The static [extract_sub_dofmap] composes along the path: for a
    path in two parts, each with a component, it returns what it returns
    for the second part on the sub descriptor and the offset that it
    returns for the first part, and it fails where the first of the two
    calls fails. *)
Theorem extract_sub_dofmap_static_app d (offset : uint) (i : uint)
    (path1 : list uint) (j : uint) (path2 : list uint) (m : UFCMesh.t) mesh :
  UFCDofMap.extract_sub_dofmap_static d offset
    ((i :: path1) ++ (j :: path2)) m mesh
  = '(sub, offset') ←
      UFCDofMap.extract_sub_dofmap_static d offset (i :: path1) m mesh;
    UFCDofMap.extract_sub_dofmap_static sub offset' (j :: path2) m mesh.
Proof.
  revert d offset i. induction path1 as [|i' path1 IH]; intros d offset i.
  - simpl.
    destruct (ufc.num_sub_dof_maps d =? 0); [done |].
    destruct (ufc.num_sub_dof_maps d <=? i); [done |].
    by destruct (UFCDofMap.add_sibling_dimensions d m mesh (uint_range i) offset).
  - change ((i :: i' :: path1) ++ j :: path2)
      with (i :: ((i' :: path1) ++ j :: path2)).
    cbn [UFCDofMap.extract_sub_dofmap_static].
    destruct (ufc.num_sub_dof_maps d =? 0); [done |].
    destruct (ufc.num_sub_dof_maps d <=? i); [done |].
    destruct (UFCDofMap.add_sibling_dimensions d m mesh (uint_range i) offset)
      as [offset1|e]; [| done].
    cbn [mbind result_bind app]. apply IH.
Qed.

(** The descriptor the static helper returns is reached from the given
    one by [create_sub_dof_map] along the path, every component being an
    index of a sub-space at its level. *)
Lemma extract_sub_dofmap_static_descends d (offset : uint) (path : list uint)
    (m : UFCMesh.t) mesh sub (offset' : uint) :
  UFCDofMap.extract_sub_dofmap_static d offset path m mesh = Ok (sub, offset') →
  path ≠ []
  ∧ sub = foldl ufc.create_sub_dof_map d path
  ∧ ∀ (k : nat) (i : uint),
      path !! k = Some i →
      i < ufc.num_sub_dof_maps (foldl ufc.create_sub_dof_map d (take k path)).
Proof.
  revert d offset. induction path as [|i path IH]; intros d offset.
  - simpl. by destruct (ufc.num_sub_dof_maps d =? 0).
  - cbn [UFCDofMap.extract_sub_dofmap_static].
    destruct (ufc.num_sub_dof_maps d =? 0); [done |].
    destruct (ufc.num_sub_dof_maps d <=? i) eqn:Hi; [done |].
    apply N.leb_gt in Hi.
    destruct (UFCDofMap.add_sibling_dimensions d m mesh (uint_range i) offset)
      as [offset1|e]; [| done].
    cbn [mbind result_bind]. destruct path as [|j path].
    + intros [= <- <-]. split; [done |]. split; [done |].
      intros [|k] i' Hk; [| done]. by injection Hk as <-.
    + intros Hrest. destruct (IH _ _ Hrest) as (_ & -> & Hlevels).
      split; [done |]. split; [done |].
      intros [|k] i' Hk.
      * by injection Hk as <-.
      * simpl. by apply Hlevels.
Qed.

(** X2. When the static [extract_sub_dofmap] returns, the path is not
    empty, every component of the path is below the number of sub-spaces
    of the descriptor reached by the components before it, and the
    descriptor returned is the one reached by the whole path, as
    [create_sub_dof_map] created it. *)
Theorem extract_sub_dofmap_static_selects d (offset : uint) (path : list uint)
    (m : UFCMesh.t) mesh sub (offset' : uint) :
  UFCDofMap.extract_sub_dofmap_static d offset path m mesh = Ok (sub, offset') →
  path ≠ []
  ∧ sub = foldl ufc.create_sub_dof_map d path
  ∧ ∀ (k : nat) (i : uint),
      path !! k = Some i →
      i < ufc.num_sub_dof_maps (foldl ufc.create_sub_dof_map d (take k path)).
Proof. apply extract_sub_dofmap_static_descends. Qed.

Lemma add_sibling_dimensions_shift d (m : UFCMesh.t) mesh (siblings : list uint)
    (offset : uint) :
  offset < UINT_MODULUS →
  UFCDofMap.add_sibling_dimensions d m mesh siblings offset
  = match UFCDofMap.add_sibling_dimensions d m mesh siblings 0 with
    | Ok relative => Ok (uint_add offset relative)
    | Throw e => Throw e
    end.
Proof.
  revert offset. induction siblings as [|i siblings IH]; intros offset Hoffset.
  - simpl. unfold uint_add. by rewrite N.add_0_r, N.mod_small.
  - simpl.
    destruct (UFCDofMap.init_ufc_dofmap (ufc.create_sub_dof_map d i) m mesh)
      as [di|e]; [| done].
    simpl. rewrite (IH (uint_add offset _)) by apply uint_add_lt.
    rewrite (IH (uint_add 0 _)) by apply uint_add_lt.
    destruct (UFCDofMap.add_sibling_dimensions d m mesh siblings 0); [| done].
    by rewrite uint_add_assoc_0.
Qed.

Lemma add_sibling_dimensions_lt d (m : UFCMesh.t) mesh (siblings : list uint)
    (offset offset' : uint) :
  offset < UINT_MODULUS →
  UFCDofMap.add_sibling_dimensions d m mesh siblings offset = Ok offset' →
  offset' < UINT_MODULUS.
Proof.
  revert offset. induction siblings as [|i siblings IH]; intros offset Hoffset.
  - by intros [= <-].
  - simpl.
    destruct (UFCDofMap.init_ufc_dofmap (ufc.create_sub_dof_map d i) m mesh)
      as [di|e]; [| done].
    simpl. apply IH, uint_add_lt.
Qed.

(** X3. The offset the static [extract_sub_dofmap] starts from, an
    unsigned number, changes neither whether it fails, nor the error,
    nor the descriptor it returns: it is added to the offset that a run
    from 0 returns. *)
Theorem extract_sub_dofmap_static_shift d (offset : uint) (path : list uint)
    (m : UFCMesh.t) mesh :
  offset < UINT_MODULUS →
  UFCDofMap.extract_sub_dofmap_static d offset path m mesh
  = match UFCDofMap.extract_sub_dofmap_static d 0 path m mesh with
    | Ok (sub, relative) => Ok (sub, uint_add offset relative)
    | Throw e => Throw e
    end.
Proof.
  revert d offset. induction path as [|i path IH]; intros d offset Hoffset.
  - simpl. by destruct (ufc.num_sub_dof_maps d =? 0).
  - cbn [UFCDofMap.extract_sub_dofmap_static].
    destruct (ufc.num_sub_dof_maps d =? 0); [done |].
    destruct (ufc.num_sub_dof_maps d <=? i); [done |].
    rewrite (add_sibling_dimensions_shift d m mesh _ offset Hoffset).
    destruct (UFCDofMap.add_sibling_dimensions d m mesh (uint_range i) 0)
      as [relative|e] eqn:Hsiblings; [| done].
    cbn [mbind result_bind].
    destruct path as [|j path]; [done |].
    rewrite (IH _ (uint_add offset relative)) by apply uint_add_lt.
    rewrite (IH _ relative)
      by (eapply add_sibling_dimensions_lt; [| exact Hsiblings]; done).
    destruct (UFCDofMap.extract_sub_dofmap_static _ 0 (j :: path) m mesh)
      as [[sub deeper]|e]; [| done].
    f_equal. f_equal. unfold uint_add.
    rewrite N.Div0.add_mod_idemp_l, N.Div0.add_mod_idemp_r. f_equal. lia.
Qed.

End nested_extraction.

(** ** Outcomes of initialisation and extraction *)

Section outcomes.
Context {D : Type} `{!ufc.dof_map D}.
Implicit Types (h : gmap ptr D) (self : UFCDofMap.t) (d : D).

Lemma check_mesh_entities_Throw_missing d mesh (ds : list uint) (e : error) :
  UFCDofMap.check_mesh_entities d mesh ds = Throw e →
  ∃ k, k ∈ ds ∧ e = MissingEntitiesError k ∧ missing_entities d mesh k.
Proof.
  induction ds as [|k ds IH]; [done |]. simpl.
  destruct (ufc.needs_mesh_entities d k && (Mesh.num_entities mesh k =? 0))
    eqn:Hk.
  - intros [= <-]. exists k. split; [apply list_elem_of_here |]. split; [done |].
    apply andb_true_iff in Hk as [Hneeds Hzero].
    split; [done | by apply N.eqb_eq].
  - intros Hrest. destruct (IH Hrest) as (j & Hj & -> & Hmiss).
    exists j. split; [by apply list_elem_of_further | done].
Qed.

(** An initialisation that throws has found a dimension of the mesh
    whose entities the descriptor needs and the mesh lacks. *)
Lemma init_ufc_dofmap_Throw_missing d (m : UFCMesh.t) mesh (e : error) :
  UFCDofMap.init_ufc_dofmap d m mesh = Throw e →
  ∃ k, e = MissingEntitiesError k
       ∧ k ≤ Mesh.topology_dim mesh
       ∧ missing_entities d mesh k.
Proof.
  unfold UFCDofMap.init_ufc_dofmap.
  destruct (UFCDofMap.check_mesh_entities d mesh _) as [[]|e'] eqn:Hcheck; simpl.
  - by destruct (ufc.init_mesh d m) as [d1 [|]].
  - intros [= <-].
    apply check_mesh_entities_Throw_missing in Hcheck as (k & Hk & -> & Hmiss).
    exists k. split; [done |]. split; [| done].
    apply elem_of_uint_range in Hk. lia.
Qed.

Lemma create_Throw (num_processes : uint) h (p : ptr) d mesh (e : error) :
  h !! p = Some d →
  UFCDofMap.create num_processes h p mesh = Throw e →
  (Mesh.ordered mesh = false ∧ e = OrderingError)
  ∨ (Mesh.ordered mesh = true
     ∧ ∃ k, e = MissingEntitiesError k
            ∧ k ≤ Mesh.topology_dim mesh
            ∧ missing_entities d mesh k).
Proof.
  intros Hp. unfold UFCDofMap.create, UFCDofMap.init, UFCDofMap.init_ufc_mesh.
  rewrite (deref_Some _ _ _ Hp). simpl.
  destruct (Mesh.ordered mesh); simpl.
  - rewrite (deref_Some _ _ _ Hp). simpl.
    destruct (UFCDofMap.init_ufc_dofmap d (UFCMesh.init mesh) mesh)
      as [d'|e'] eqn:Hinit; [done |].
    simpl. intros [= <-]. right. split; [done |].
    by apply init_ufc_dofmap_Throw_missing in Hinit.
  - intros [= <-]. by left.
Qed.

Lemma extract_sub_dofmap_static_Throw d (offset : uint) (path : list uint)
    (m : UFCMesh.t) mesh (e : error) :
  UFCDofMap.extract_sub_dofmap_static d offset path m mesh = Throw e →
  e = NoSubspacesError
  ∨ e = NoSubspaceSpecifiedError
  ∨ (∃ i n, e = IndexOutOfRangeError i n ∧ n ≤ i)
  ∨ ∃ k, e = MissingEntitiesError k.
Proof.
  revert d offset. induction path as [|i path IH]; intros d offset.
  - simpl. destruct (ufc.num_sub_dof_maps d =? 0); intros [= <-]; auto.
  - cbn [UFCDofMap.extract_sub_dofmap_static].
    destruct (ufc.num_sub_dof_maps d =? 0); [intros [= <-]; auto |].
    destruct (ufc.num_sub_dof_maps d <=? i) eqn:Hi.
    { intros [= <-]. apply N.leb_le in Hi. right. right. left. eauto. }
    destruct (UFCDofMap.add_sibling_dimensions d m mesh (uint_range i) offset)
      as [offset1|e1] eqn:Hsiblings.
    + cbn [mbind result_bind]. destruct path as [|j path]; [done |]. apply IH.
    + cbn [mbind result_bind]. intros [= <-].
      apply add_sibling_dimensions_Throw in Hsiblings. auto.
Qed.

(** X4. A call of the member [extract_sub_dofmap] that returns has put
    one descriptor into the heap, at a pointer that held none: the
    descriptor reached by the path, initialised against the mesh, which
    is ordered. The new map points to it and holds the mesh summary of
    the mesh. Every descriptor the heap held is as it was, that of the
    map the call was made on included. *)
Theorem extract_sub_dofmap_frame (num_processes : uint) h self d
    (path : list uint) mesh sub h' :
  h !! UFCDofMap._ufc_dofmap self = Some d →
  UFCDofMap.extract_sub_dofmap num_processes h self path mesh = Ok (sub, h') →
  h !! UFCDofMap._ufc_dofmap sub = None
  ∧ Mesh.ordered mesh = true
  ∧ UFCDofMap._ufc_mesh sub = UFCMesh.init mesh
  ∧ (∃ di,
       UFCDofMap.init_ufc_dofmap (foldl ufc.create_sub_dof_map d path)
         (UFCMesh.init mesh) mesh = Ok di
       ∧ h' = <[UFCDofMap._ufc_dofmap sub := di]> h)
  ∧ (∀ (q : ptr) dq, h !! q = Some dq → h' !! q = Some dq).
Proof.
  intros Hd Hextract.
  destruct (extract_sub_dofmap_Ok_inv _ _ _ _ _ _ _ _ Hd Hextract)
    as (sub_d & offset & sub0 & Hstatic & Hcreate & ->).
  apply extract_sub_dofmap_static_descends in Hstatic as (_ & -> & _).
  apply create_Ok_inv in Hcreate as (Hord & d0 & d' & Hd0 & Hd' & -> & ->).
  rewrite lookup_insert_eq in Hd0. injection Hd0 as <-.
  assert (Hfresh : h !! fresh (dom h) = None)
    by apply not_elem_of_dom, is_fresh.
  simpl. rewrite insert_insert_eq.
  split; [done |]. split; [done |]. split; [done |].
  split; [by exists d' |].
  intros q dq Hq. rewrite lookup_insert_ne; [done |].
  intros <-. by rewrite Hfresh in Hq.
Qed.

(** X5. A call of the member [extract_sub_dofmap] on a map with a
    descriptor fails in one of two ways, and never on an assertion.
    Either the static helper fails, with a [NoSubspacesError], with the
    error for an empty path, with an [IndexOutOfRangeError] for an index
    that is not below the count it names, or with a [MissingEntitiesError]
    of a preceding sibling. Or the helper returns a sub descriptor and
    the constructor of the new map fails on it: with an [OrderingError]
    on a mesh that is not ordered, and otherwise with a
    [MissingEntitiesError] for entities that the sub descriptor needs. *)
Theorem extract_sub_dofmap_failures (num_processes : uint) h self d
    (path : list uint) mesh (e : error) :
  h !! UFCDofMap._ufc_dofmap self = Some d →
  UFCDofMap.extract_sub_dofmap num_processes h self path mesh = Throw e →
  e ≠ AssertionFailure
  ∧ ((UFCDofMap.extract_sub_dofmap_static d 0 path
        (UFCDofMap._ufc_mesh self) mesh = Throw e
      ∧ (e = NoSubspacesError
         ∨ e = NoSubspaceSpecifiedError
         ∨ (∃ i n, e = IndexOutOfRangeError i n ∧ n ≤ i)
         ∨ ∃ k, e = MissingEntitiesError k))
     ∨ (∃ sub (offset : uint),
          UFCDofMap.extract_sub_dofmap_static d 0 path
            (UFCDofMap._ufc_mesh self) mesh = Ok (sub, offset)
          ∧ ((Mesh.ordered mesh = false ∧ e = OrderingError)
             ∨ (Mesh.ordered mesh = true
                ∧ ∃ k, e = MissingEntitiesError k
                       ∧ k ≤ Mesh.topology_dim mesh
                       ∧ missing_entities sub mesh k)))).
Proof.
  intros Hd. unfold UFCDofMap.extract_sub_dofmap.
  rewrite (deref_Some _ _ _ Hd). simpl.
  destruct (UFCDofMap.extract_sub_dofmap_static d 0 path _ mesh)
    as [[sub offset]|e1] eqn:Hstatic; simpl.
  - destruct (UFCDofMap.create num_processes _ _ mesh) as [[sub0 h0]|e2] eqn:Hcreate;
      [done |].
    simpl. intros [= <-].
    apply (create_Throw _ _ _ sub) in Hcreate; [| apply lookup_insert_eq].
    split.
    + destruct Hcreate as [[_ ->]|(_ & k & -> & _)]; done.
    + right. by exists sub, offset.
  - intros [= <-].
    pose proof (extract_sub_dofmap_static_Throw _ _ _ _ _ _ Hstatic) as Hcases.
    split.
    + destruct Hcases as [->|[->|[(i & n & -> & _)|(k & ->)]]]; done.
    + by left.
Qed.

(** X6. What [init] does, case by case. On a mesh that is not ordered it
    fails with an [OrderingError], before it looks at its descriptor or
    at the entities of the mesh. On an ordered mesh on which no needed
    entities are missing, it returns: the map then holds the mesh
    summary of the mesh, and the heap the initialised descriptor. A call
    that returns leaves the offset and the pointer of the map, and every
    other descriptor in the heap, as they were. *)
Theorem init_outcome h self mesh :
  (Mesh.ordered mesh = false →
   UFCDofMap.init h self mesh = Throw OrderingError)
  ∧ (∀ d, Mesh.ordered mesh = true →
       h !! UFCDofMap._ufc_dofmap self = Some d →
       (∀ k, k ≤ Mesh.topology_dim mesh → ¬ missing_entities d mesh k) →
       ∃ d', UFCDofMap.init_ufc_dofmap d (UFCMesh.init mesh) mesh = Ok d'
         ∧ UFCDofMap.init h self mesh
           = Ok (UFCDofMap.with_ufc_mesh self (UFCMesh.init mesh),
                 <[UFCDofMap._ufc_dofmap self := d']> h))
  ∧ (∀ self' h',
       UFCDofMap.init h self mesh = Ok (self', h') →
       UFCDofMap._ufc_offset self' = UFCDofMap._ufc_offset self
       ∧ UFCDofMap._ufc_dofmap self' = UFCDofMap._ufc_dofmap self
       ∧ UFCDofMap._ufc_mesh self' = UFCMesh.init mesh
       ∧ ∀ q : ptr, q ≠ UFCDofMap._ufc_dofmap self → h' !! q = h !! q).
Proof.
  split; [| split].
  - intros Hord. unfold UFCDofMap.init, UFCDofMap.init_ufc_mesh. by rewrite Hord.
  - intros d Hord Hd Hall.
    eexists. split; [by apply init_ufc_dofmap_Ok |].
    eapply init_Ok; [done | done |]. by apply init_ufc_dofmap_Ok.
  - intros self' h' Hinit.
    apply init_Ok_inv in Hinit as (_ & d & d' & _ & _ & -> & ->).
    do 3 (split; [done |]). intros q Hq. by rewrite lookup_insert_ne.
Qed.

End outcomes.

(** ** Outcomes of collapse and its translation table *)

Lemma elem_of_zip_fmap_iff {A B : Type} (g : A → B) (l : list A) (x : A) (y : B) :
  (x, y) ∈ zip l (g <$> l) ↔ x ∈ l ∧ y = g x.
Proof.
  induction l as [|a l IH]; simpl.
  - rewrite !elem_of_nil. tauto.
  - rewrite !elem_of_cons, IH. split.
    + intros [[= -> ->]|[? ?]]; auto.
    + intros [[->|?] ->]; auto.
Qed.

Section collapse_outcomes.
Context {D : Type} `{!ufc.dof_map D}.
Implicit Types (h : gmap ptr D) (self : UFCDofMap.t) (d : D).

(** With a descriptor behind the pointer, the pass of [collapse] over the
    cells returns. *)
Lemma collapse_cells_return h self collapsed_dof_map d' mesh
    (s : list uint * list uint * gmap uint uint) :
  h !! UFCDofMap._ufc_dofmap self = Some d' →
  h !! UFCDofMap._ufc_dofmap collapsed_dof_map = Some d' →
  ∃ s', for_each_cell_try mesh
          (UFCDofMap.collapse_cell h self collapsed_dof_map) s = Ok s'.
Proof.
  intros Hp Hq.
  destruct (for_each_cell_try mesh _ s) as [s'|e] eqn:Hloop; [by exists s' |].
  exfalso. revert Hloop. apply for_each_cell_try_returns.
  intros u cell [[b1 b2] tbl]. unfold UFCDofMap.collapse_cell.
  destruct (tabulate_dofs_returns _ self d' b1 u (Cell.index cell) Hp)
    as [b1' ->].
  simpl.
  destruct (tabulate_dofs_returns _ collapsed_dof_map d' b2 u
              (Cell.index cell) Hq) as [b2' ->].
  simpl. rewrite (local_dimension_Ok _ collapsed_dof_map d') by done.
  simpl. eauto.
Qed.

(** [collapse] is as far as the constructor of the collapsed map gets:
    it returns when the constructor does, and throws what it throws. *)
Lemma collapse_follows_create (num_processes : uint) h self d
    (collapsed_map : gmap uint uint) mesh :
  h !! UFCDofMap._ufc_dofmap self = Some d →
  match UFCDofMap.create num_processes h (UFCDofMap._ufc_dofmap self) mesh with
  | Throw e =>
      UFCDofMap.collapse num_processes h self collapsed_map mesh
      = (Throw e, collapsed_map)
  | Ok (collapsed_dof_map, h') =>
      ∃ table : gmap uint uint,
        UFCDofMap.collapse num_processes h self collapsed_map mesh
        = (Ok (collapsed_dof_map, h'), table)
  end.
Proof.
  intros Hd. unfold UFCDofMap.collapse.
  rewrite (deref_Some _ _ _ Hd). simpl.
  destruct (UFCDofMap.create num_processes h _ mesh) as [[cdm h1]|e] eqn:Hcreate;
    [| done].
  simpl.
  apply create_Ok_inv in Hcreate as (Hord & d0 & d' & Hd0 & Hd' & -> & ->).
  assert (Hp : (<[UFCDofMap._ufc_dofmap self := d']> h)
                 !! UFCDofMap._ufc_dofmap self = Some d')
    by apply lookup_insert_eq.
  rewrite (global_dimension_Ok _ (UFCDofMap.mk _ _ _ _) d') by done.
  rewrite (global_dimension_Ok _ self d') by done.
  simpl. rewrite N.eqb_refl. simpl.
  rewrite (max_local_dimension_Ok _ (UFCDofMap.mk _ _ _ _) d') by done.
  rewrite (max_local_dimension_Ok _ self d') by done.
  simpl.
  destruct (collapse_cells_return _ self
              (UFCDofMap.mk (UFCDofMap._ufc_dofmap self) (UFCMesh.init mesh) 0
                 (1 <? num_processes)) d' mesh
              (replicate (N.to_nat (ufc.max_local_dimension d')) 0,
               replicate (N.to_nat (ufc.max_local_dimension d')) 0, ∅) Hp Hp)
    as [[[b1 b2] table] ->].
  by exists table.
Qed.

(** X7. A call of [collapse] on a map with a descriptor fails only as
    the constructor of the collapsed map does: with an [OrderingError]
    on a mesh that is not ordered, and otherwise with a
    [MissingEntitiesError] for entities that the descriptor needs and the
    mesh lacks. Its assertion on the global dimensions does not fail,
    nor does the pass over the cells; and the supplied map is then as it
    was, not emptied. *)
Theorem collapse_failures (num_processes : uint) h self d
    (collapsed_map : gmap uint uint) mesh (e : error)
    (table : gmap uint uint) :
  h !! UFCDofMap._ufc_dofmap self = Some d →
  UFCDofMap.collapse num_processes h self collapsed_map mesh = (Throw e, table) →
  table = collapsed_map
  ∧ e ≠ AssertionFailure
  ∧ ((Mesh.ordered mesh = false ∧ e = OrderingError)
     ∨ (Mesh.ordered mesh = true
        ∧ ∃ k, e = MissingEntitiesError k
               ∧ k ≤ Mesh.topology_dim mesh
               ∧ missing_entities d mesh k)).
Proof.
  intros Hd Hcollapse.
  pose proof (collapse_follows_create num_processes h self d collapsed_map mesh Hd)
    as Hfollows.
  destruct (UFCDofMap.create num_processes h _ mesh) as [[cdm h1]|e1] eqn:Hcreate.
  - destruct Hfollows as [table' Heq]. by rewrite Heq in Hcollapse.
  - rewrite Hfollows in Hcollapse. injection Hcollapse as <- <-.
    split; [done |].
    apply (create_Throw _ _ _ d) in Hcreate; [| done].
    split; [| done].
    destruct Hcreate as [[_ ->]|(_ & k & -> & _)]; done.
Qed.

(** X8. On an ordered mesh on which no entities that the descriptor
    needs are missing, [collapse] returns. The collapsed map has the
    pointer of the original one, the mesh summary of the mesh and no
    offset; and the descriptor behind the pointer has been initialised
    once more, in place, so that the original map reads the initialised
    descriptor as well. *)
Theorem collapse_returns (num_processes : uint) h self d
    (collapsed_map : gmap uint uint) mesh :
  h !! UFCDofMap._ufc_dofmap self = Some d →
  Mesh.ordered mesh = true →
  (∀ k, k ≤ Mesh.topology_dim mesh → ¬ missing_entities d mesh k) →
  ∃ d' (table : gmap uint uint),
    UFCDofMap.init_ufc_dofmap d (UFCMesh.init mesh) mesh = Ok d'
    ∧ UFCDofMap.collapse num_processes h self collapsed_map mesh
      = (Ok (UFCDofMap.mk (UFCDofMap._ufc_dofmap self) (UFCMesh.init mesh) 0
               (1 <? num_processes),
             <[UFCDofMap._ufc_dofmap self := d']> h),
         table).
Proof.
  intros Hd Hord Hall.
  pose proof (collapse_follows_create num_processes h self d collapsed_map mesh Hd)
    as Hfollows.
  rewrite (create_Ok _ _ _ _ d _ Hord Hd (init_ufc_dofmap_Ok _ _ _ Hall))
    in Hfollows.
  destruct Hfollows as [table Heq].
  eexists _, table. split; [by apply init_ufc_dofmap_Ok | exact Heq].
Qed.

(** The assignments of [collapse] on a map that holds the mesh summary
    of the mesh: each dof that the descriptor tabulates on a cell gets
    its shift by the offset of the map. *)
Lemma elem_of_collapse_writes d' self mesh (c o : uint) :
  UFCDofMap._ufc_mesh self = UFCMesh.init mesh →
  (c, o) ∈ collapse_writes d' self mesh
  ↔ (∃ cell, cell ∈ Mesh.cells mesh
       ∧ c ∈ ufc.tabulate_dofs d' (UFCMesh.init mesh) (UFCCell.view mesh cell))
    ∧ o = shift (UFCDofMap._ufc_offset self) c.
Proof.
  intros Hmesh. unfold collapse_writes. rewrite list_elem_of_bind, Hmesh.
  split.
  - intros (cell & Hco & Hcell). apply elem_of_zip_fmap_iff in Hco as [Hc ->].
    split; [by exists cell | done].
  - intros [(cell & Hcell & Hc) ->]. exists cell. split; [| done].
    by apply elem_of_zip_fmap_iff.
Qed.

(** The table [collapse] leaves on such a map holds exactly its
    assignments. *)
Lemma collapse_table_lookup (num_processes : uint) h self
    (collapsed_map : gmap uint uint) mesh collapsed_dof_map h'
    (table : gmap uint uint) d' :
  UFCDofMap.collapse num_processes h self collapsed_map mesh
  = (Ok (collapsed_dof_map, h'), table) →
  UFCDofMap._ufc_mesh self = UFCMesh.init mesh →
  h' !! UFCDofMap._ufc_dofmap self = Some d' →
  (∀ cell, cell ∈ Mesh.cells mesh →
     tabulates_local_dimension d' (UFCMesh.init mesh) (UFCCell.view mesh cell)) →
  ∀ c o, table !! c = Some o ↔ (c, o) ∈ collapse_writes d' self mesh.
Proof.
  intros Hcollapse Hmesh Hp Hfits c o.
  destruct (collapse_last_write_wins _ _ _ _ _ _ _ _ d' Hcollapse Hp)
    as (-> & _ & _).
  { intros cell Hcell. rewrite Hmesh. split; by apply Hfits. }
  split.
  - intros Hc. apply overwrite_lookup_Some in Hc as [Hc|Hc]; [| done].
    by rewrite lookup_empty in Hc.
  - intros Hco.
    pose proof Hco as Hco'.
    apply (elem_of_collapse_writes _ _ _ _ _ Hmesh) in Hco' as [_ ->].
    apply overwrite_lookup_fun.
    + unfold collapse_writes. apply Forall_bind, Forall_forall.
      intros cell _. rewrite Hmesh. apply Forall_zip_fmap.
    + apply list_elem_of_fmap. by eexists (c, _).
Qed.

End collapse_outcomes.

Section collapse_table.
Context {D : Type} `{!ufc.dof_map D}.
Implicit Types (h : gmap ptr D) (self : UFCDofMap.t) (d : D).

(** The indices [dofs] returns, sorted or not, are the dofs of the
    cells. *)
Lemma dofs_elem_of_cells h self d mesh (sort : bool) :
  h !! UFCDofMap._ufc_dofmap self = Some d →
  (∀ cell, cell ∈ Mesh.cells mesh →
     tabulates_local_dimension d (UFCDofMap._ufc_mesh self)
       (UFCCell.view mesh cell)) →
  ∃ l, UFCDofMap.dofs h self mesh sort = Ok l
    ∧ ∀ x, x ∈ l
           ↔ ∃ cell, cell ∈ Mesh.cells mesh
               ∧ x ∈ shift (UFCDofMap._ufc_offset self)
                       <$> ufc.tabulate_dofs d (UFCDofMap._ufc_mesh self)
                             (UFCCell.view mesh cell).
Proof.
  intros Hp Hfits. unfold UFCDofMap.dofs.
  rewrite (max_local_dimension_Ok _ _ d) by done. simpl.
  destruct (dofs_cells_NoDup h self d mesh
              (replicate (N.to_nat (ufc.max_local_dimension d)) 0) Hp)
    as (dofs' & dof_list & Hloop & Hnd).
  rewrite Hloop. simpl. eexists. split; [done |].
  intros x.
  rewrite <- (dofs_cells_elem_of _ _ _ _ _ _ _ Hp Hfits
                (length_replicate _ _) Hloop).
  destruct sort; [| done].
  destruct (set_sort_strict dof_list Hnd) as (_ & _ & Hperm). by rewrite Hperm.
Qed.

(** X9. The translation table that [collapse] leaves for a map holding
    the mesh summary of the mesh, when the descriptor stays within the
    buffers: every entry maps a dof [c] to [c] shifted by the offset of
    the map, that is to [c] itself for offset 0 and to [c + offset] when
    that is an unsigned number; and two keys whose sums with the offset
    are unsigned numbers have different values. *)
Theorem collapse_table_shifts (num_processes : uint) h self
    (collapsed_map : gmap uint uint) mesh collapsed_dof_map h'
    (table : gmap uint uint) :
  UFCDofMap.collapse num_processes h self collapsed_map mesh
  = (Ok (collapsed_dof_map, h'), table) →
  UFCDofMap._ufc_mesh self = UFCMesh.init mesh →
  (∀ d' cell,
     h' !! UFCDofMap._ufc_dofmap self = Some d' →
     cell ∈ Mesh.cells mesh →
     tabulates_local_dimension d' (UFCMesh.init mesh) (UFCCell.view mesh cell)) →
  (∀ c o, table !! c = Some o →
     o = (if 0 <? UFCDofMap._ufc_offset self
          then uint_add c (UFCDofMap._ufc_offset self) else c))
  ∧ (∀ c o, table !! c = Some o →
       c + UFCDofMap._ufc_offset self < UINT_MODULUS →
       o = c + UFCDofMap._ufc_offset self)
  ∧ (∀ c1 c2 o,
       table !! c1 = Some o → table !! c2 = Some o →
       c1 + UFCDofMap._ufc_offset self < UINT_MODULUS →
       c2 + UFCDofMap._ufc_offset self < UINT_MODULUS →
       c1 = c2).
Proof.
  intros Hcollapse Hmesh Hfits.
  pose proof Hcollapse as Hinv.
  apply collapse_Ok_inv in Hinv
    as (_ & d & d' & dofs & cdofs & _ & _ & _ & Hh' & _).
  assert (Hp : h' !! UFCDofMap._ufc_dofmap self = Some d')
    by (rewrite Hh'; apply lookup_insert_eq).
  assert (Hshift : ∀ c o, table !! c = Some o →
            o = shift (UFCDofMap._ufc_offset self) c).
  { intros c o Hc.
    apply (collapse_table_lookup _ _ _ _ _ _ _ _ d' Hcollapse Hmesh Hp) in Hc;
      [| intros cell Hcell; by apply Hfits].
    by apply (elem_of_collapse_writes _ _ _ _ _ Hmesh) in Hc as [_ ->]. }
  assert (Hsum : ∀ c o, table !! c = Some o →
            c + UFCDofMap._ufc_offset self < UINT_MODULUS →
            o = c + UFCDofMap._ufc_offset self).
  { intros c o Hc Hsmall. rewrite (Hshift c o Hc). unfold shift, uint_add.
    destruct (0 <? UFCDofMap._ufc_offset self) eqn:Hoff.
    - by apply N.mod_small.
    - apply N.ltb_ge in Hoff. lia. }
  split; [exact Hshift |]. split; [exact Hsum |].
  intros c1 c2 o H1 H2 Hs1 Hs2.
  pose proof (Hsum c1 o H1 Hs1). pose proof (Hsum c2 o H2 Hs2). lia.
Qed.

(** X10. After [collapse] on such a map, the keys of the translation
    table are the indices that [dofs] returns for the collapsed map, and
    its values are the indices that [dofs] returns for the original
    map. *)
Theorem collapse_table_relates_dofs (num_processes : uint) h self
    (collapsed_map : gmap uint uint) mesh collapsed_dof_map h'
    (table : gmap uint uint) :
  UFCDofMap.collapse num_processes h self collapsed_map mesh
  = (Ok (collapsed_dof_map, h'), table) →
  UFCDofMap._ufc_mesh self = UFCMesh.init mesh →
  (∀ d' cell,
     h' !! UFCDofMap._ufc_dofmap self = Some d' →
     cell ∈ Mesh.cells mesh →
     tabulates_local_dimension d' (UFCMesh.init mesh) (UFCCell.view mesh cell)) →
  ∃ keys values : list uint,
    UFCDofMap.dofs h' collapsed_dof_map mesh true = Ok keys
    ∧ UFCDofMap.dofs h' self mesh true = Ok values
    ∧ (∀ c, c ∈ keys ↔ is_Some (table !! c))
    ∧ (∀ o, o ∈ values ↔ ∃ c, table !! c = Some o).
Proof.
  intros Hcollapse Hmesh Hfits.
  pose proof Hcollapse as Hinv.
  apply collapse_Ok_inv in Hinv
    as (_ & d & d' & dofs & cdofs & _ & _ & Hcdm & Hh' & _).
  assert (Hp : h' !! UFCDofMap._ufc_dofmap self = Some d')
    by (rewrite Hh'; apply lookup_insert_eq).
  specialize (Hfits d').
  pose proof (collapse_table_lookup _ _ _ _ _ _ _ _ d' Hcollapse Hmesh Hp)
    as Htable.
  assert (Hfits' : ∀ cell, cell ∈ Mesh.cells mesh →
            tabulates_local_dimension d' (UFCMesh.init mesh)
              (UFCCell.view mesh cell))
    by (intros cell Hcell; by apply Hfits).
  specialize (Htable Hfits').
  destruct (dofs_elem_of_cells h' collapsed_dof_map d' mesh true)
    as (keys & Hkeys & Hkeys_elem).
  { by rewrite Hcdm. }
  { rewrite Hcdm. exact Hfits'. }
  destruct (dofs_elem_of_cells h' self d' mesh true Hp)
    as (values & Hvalues & Hvalues_elem).
  { rewrite Hmesh. exact Hfits'. }
  exists keys, values. split; [done |]. split; [done |].
  rewrite Hcdm in Hkeys_elem. simpl in Hkeys_elem. split.
  - intros c. rewrite Hkeys_elem. split.
    + intros (cell & Hcell & Hc). rewrite fmap_shift_0 in Hc.
      exists (shift (UFCDofMap._ufc_offset self) c).
      apply Htable, elem_of_collapse_writes; [done |].
      split; [by exists cell | done].
    + intros [o Hc].
      apply Htable, (elem_of_collapse_writes _ _ _ _ _ Hmesh) in Hc
        as [(cell & Hcell & Hc) _].
      exists cell. split; [done |]. by rewrite fmap_shift_0.
  - intros o. rewrite Hvalues_elem, Hmesh. split.
    + intros (cell & Hcell & Ho).
      apply list_elem_of_fmap in Ho as (c & -> & Hc).
      exists c. apply Htable, elem_of_collapse_writes; [done |].
      split; [by exists cell | done].
    + intros [c Hc].
      apply Htable, (elem_of_collapse_writes _ _ _ _ _ Hmesh) in Hc
        as [(cell & Hcell & Hc) ->].
      exists cell. split; [done |]. apply list_elem_of_fmap. by exists c.
Qed.

End collapse_table.

(** ** Descriptions *)

Lemma string_length_app (s t : string) :
  String.length (s +:+ t) = (String.length s + String.length t)%nat.
Proof.
  induction s as [|a s IH]; [done |].
  change (String a s +:+ t) with (String a (s +:+ t)). simpl. by rewrite IH.
Qed.

Lemma string_app_inj_r (s1 s2 t : string) : s1 +:+ t = s2 +:+ t → s1 = s2.
Proof.
  revert s2. induction s1 as [|a s1 IH]; intros [|b s2] Heq.
  - done.
  - apply (f_equal String.length) in Heq.
    change (String b s2 +:+ t) with (String b (s2 +:+ t)) in Heq.
    change ("" +:+ t) with t in Heq. simpl in Heq.
    rewrite string_length_app in Heq. lia.
  - apply (f_equal String.length) in Heq.
    change (String a s1 +:+ t) with (String a (s1 +:+ t)) in Heq.
    change ("" +:+ t) with t in Heq. simpl in Heq.
    rewrite string_length_app in Heq. lia.
  - change (String a (s1 +:+ t) = String b (s2 +:+ t)) in Heq.
    injection Heq as -> Heq. f_equal. by apply IH.
Qed.

Section descriptions.
Context {D : Type} `{!ufc.dof_map D}.
Implicit Types (h : gmap ptr D) (self : UFCDofMap.t) (d : D).

(** X11. For maps with a descriptor, [str] returns in both modes; the
    verbose text begins with the short one, followed by two line ends;
    and the short texts of two maps are the same exactly when their
    descriptors report the same global dimension, whatever their
    offsets and mesh summaries are. *)
Theorem str_describes_global_dimension h self other d d' :
  h !! UFCDofMap._ufc_dofmap self = Some d →
  h !! UFCDofMap._ufc_dofmap other = Some d' →
  ∃ short verbose rest : string,
    UFCDofMap.str h self false = Ok short
    ∧ UFCDofMap.str h self true = Ok verbose
    ∧ verbose = short +:+ endl +:+ endl +:+ rest
    ∧ (UFCDofMap.str h other false = Ok short
       ↔ ufc.global_dimension d' = ufc.global_dimension d).
Proof.
  intros Hd Hd'.
  unfold UFCDofMap.str, UFCDofMap.str_short.
  rewrite ?(deref_Some _ _ _ Hd), ?(deref_Some _ _ _ Hd'). simpl.
  rewrite ?(deref_Some _ _ _ Hd), ?(deref_Some _ _ _ Hd'). simpl.
  rewrite ?(global_dimension_Ok _ _ _ Hd), ?(global_dimension_Ok _ _ _ Hd').
  simpl. eexists _, _, _. split; [done |]. split; [done |]. split; [done |].
  split.
  - intros [= Heq]. apply String.app_inj, string_app_inj_r in Heq.
    by apply pretty_N_inj in Heq.
  - by intros ->.
Qed.

End descriptions.

(** ** Blocks of a block matrix *)

Section blocks.
Context {M V : Type} `{!la.linear_algebra M V}.

(** X12. The matrix built for [m] block rows and [n] block columns has
    a new matrix at every position [(i, j)] with [i < m] and [j < n], and
    [get_block] fails its assertion at every other position. *)
Theorem create_get_block (m n i j : uint) :
  BlockMatrix.get_block (BlockMatrix.create (V:=V) m n) i j
  = if (i <? m) && (j <? n) then Ok (Some la.new_matrix)
    else Throw AssertionFailure.
Proof.
  unfold BlockMatrix.get_block, BlockMatrix.row, BlockMatrix.create. simpl.
  rewrite length_replicate.
  destruct (i <? m) eqn:Hi.
  - apply N.ltb_lt in Hi.
    rewrite (bool_decide_eq_true_2 (N.to_nat i < N.to_nat m)%nat) by lia.
    rewrite lookup_replicate_2 by lia. simpl. rewrite length_replicate.
    destruct (j <? n) eqn:Hj.
    + apply N.ltb_lt in Hj.
      rewrite (bool_decide_eq_true_2 (N.to_nat j < N.to_nat n)%nat) by lia.
      simpl. by rewrite lookup_replicate_2 by lia.
    + apply N.ltb_ge in Hj.
      by rewrite (bool_decide_eq_false_2 (N.to_nat j < N.to_nat n)%nat) by lia.
  - apply N.ltb_ge in Hi.
    by rewrite (bool_decide_eq_false_2 (N.to_nat i < N.to_nat m)%nat) by lia.
Qed.

Lemma set_block_Ok_inv (self self' : BlockMatrix.t M) (i j : uint)
    (b : option M) :
  BlockMatrix.set_block self i j b = Ok self' →
  (N.to_nat i < length (BlockMatrix.matrices self))%nat
  ∧ (N.to_nat j < length (BlockMatrix.row self i))%nat
  ∧ self' = BlockMatrix.mk
              (<[N.to_nat i := <[N.to_nat j := b]> (BlockMatrix.row self i)]>
                 (BlockMatrix.matrices self)).
Proof.
  unfold BlockMatrix.set_block.
  destruct (bool_decide (N.to_nat i < length (BlockMatrix.matrices self))%nat)
    eqn:Hi; [| done].
  simpl.
  destruct (bool_decide (N.to_nat j < length (BlockMatrix.row self i))%nat)
    eqn:Hj; [| done].
  simpl. intros [= <-].
  apply bool_decide_eq_true in Hi, Hj. done.
Qed.

(** X13. A call of [set_block] that returns was made for a position of
    the matrix; afterwards [get_block] returns the block that was set at
    this position and what it returned before at every other position,
    and [size] returns what it returned before. A call for a position
    outside the matrix fails its assertion. *)
Theorem set_block_get_block (self : BlockMatrix.t M) (i j : uint)
    (b : option M) :
  match BlockMatrix.set_block self i j b with
  | Ok self' =>
      (N.to_nat i < length (BlockMatrix.matrices self))%nat
      ∧ (N.to_nat j < length (BlockMatrix.row self i))%nat
      ∧ BlockMatrix.get_block self' i j = Ok b
      ∧ (∀ i' j', (i', j') ≠ (i, j) →
           BlockMatrix.get_block self' i' j' = BlockMatrix.get_block self i' j')
      ∧ (∀ dim, BlockMatrix.size self' dim = BlockMatrix.size self dim)
  | Throw e =>
      e = AssertionFailure
      ∧ ¬ ((N.to_nat i < length (BlockMatrix.matrices self))%nat
           ∧ (N.to_nat j < length (BlockMatrix.row self i))%nat)
  end.
Proof.
  destruct (BlockMatrix.set_block self i j b) as [self'|e] eqn:Hset.
  - apply set_block_Ok_inv in Hset as (Hi & Hj & ->).
    split; [done |]. split; [done |].
    assert (Hrow : ∀ i', BlockMatrix.row
                           (BlockMatrix.mk
                              (<[N.to_nat i := <[N.to_nat j := b]>
                                                 (BlockMatrix.row self i)]>
                                 (BlockMatrix.matrices self))) i'
                         = if decide (i' = i)
                           then <[N.to_nat j := b]> (BlockMatrix.row self i)
                           else BlockMatrix.row self i').
    { intros i'. unfold BlockMatrix.row at 1. simpl.
      destruct (decide (i' = i)) as [->|Hne].
      - by rewrite list_lookup_insert_eq by done.
      - by rewrite list_lookup_insert_ne by lia. }
    split; [| split].
    + unfold BlockMatrix.get_block. simpl. rewrite length_insert, Hrow.
      rewrite decide_True by done. rewrite length_insert.
      rewrite !bool_decide_eq_true_2 by done. simpl.
      by rewrite list_lookup_insert_eq by done.
    + intros i' j' Hne. unfold BlockMatrix.get_block. simpl.
      rewrite length_insert, Hrow.
      destruct (decide (i' = i)) as [->|Hi']; [| done].
      rewrite length_insert.
      rewrite list_lookup_insert_ne; [done |].
      intros Heq. apply Hne. f_equal. lia.
    + intros dim. unfold BlockMatrix.size. simpl. rewrite length_insert, Hrow.
      destruct (decide (0 = i)) as [<-|?]; [| done].
      by rewrite length_insert.
  - revert Hset. unfold BlockMatrix.set_block.
    destruct (bool_decide (N.to_nat i < length (BlockMatrix.matrices self))%nat)
      eqn:Hi; simpl.
    + destruct (bool_decide (N.to_nat j < length (BlockMatrix.row self i))%nat)
        eqn:Hj; simpl; [done |].
      intros [= <-]. split; [done |]. intros [_ Hj'].
      by apply bool_decide_eq_false in Hj.
    + intros [= <-]. split; [done |]. intros [Hi' _].
      by apply bool_decide_eq_false in Hi.
Qed.

Section printing.
Variable matrix_str : M → bool → string.
Variable indent : string → string.

Lemma str_columns_returns (steps : nat) (self : BlockMatrix.t M) (i j : uint)
    (s s' : string) :
  BlockMatrix.str_columns matrix_str indent steps self i j s = Some (Ok s') →
  s' = s ∧ ¬ i < N.of_nat (length (BlockMatrix.row self 0)).
Proof.
  revert j s. induction steps as [|steps IH]; intros j s; [done |]. simpl.
  destruct (i <? N.of_nat (length (BlockMatrix.row self 0))) eqn:Hi.
  - destruct (BlockMatrix.block self i j) as [A|e]; [| done].
    intros Hrest. apply IH in Hrest as [_ Hge].
    apply N.ltb_lt in Hi. done.
  - intros [= <-]. apply N.ltb_ge in Hi. split; [done | lia].
Qed.

(** X14. However many steps its inner loops are granted, [str(true)]
    returns a text only for a matrix without a block in its first block
    row, and the text is then the short one followed by two line ends:
    no block is ever shown in a text that [str] returns. The condition of
    the inner loop tests the row index against the number of columns, so
    once entered the loop is left only by a failure. *)
Theorem str_verbose_shows_no_block (steps : nat) (self : BlockMatrix.t M)
    (s : string) :
  BlockMatrix.str matrix_str indent steps self true = Some (Ok s) →
  BlockMatrix.row self 0 = []
  ∧ s = BlockMatrix.str_short self +:+ endl +:+ endl.
Proof.
  unfold BlockMatrix.str.
  assert (Hrows : ∀ (rows : list uint) (s0 s1 : string),
            BlockMatrix.str_rows matrix_str indent steps self rows s0
            = Some (Ok s1) →
            s1 = s0
            ∧ ∀ i, i ∈ rows →
                ¬ i < N.of_nat (length (BlockMatrix.row self 0))).
  { induction rows as [|i rows IH]; intros s0 s1; simpl.
    - intros [= <-]. split; [done |]. intros i Hi. by apply elem_of_nil in Hi.
    - destruct (BlockMatrix.str_columns matrix_str indent steps self i 0 s0)
        as [[s2|e]|] eqn:Hcolumns; [| done | done].
      apply str_columns_returns in Hcolumns as [-> Hi].
      intros Hrest. apply IH in Hrest as [-> Hothers].
      split; [done |]. intros i' Hi'.
      apply elem_of_cons in Hi' as [->|Hi']; [done | by apply Hothers]. }
  intros Hstr. apply Hrows in Hstr as [-> Hall]. split; [| done].
  destruct (BlockMatrix.matrices self) as [|r rows] eqn:Hmatrices.
  - unfold BlockMatrix.row. by rewrite Hmatrices.
  - destruct (BlockMatrix.row self 0) as [|b bs]; [done |].
    exfalso. apply (Hall 0).
    + apply elem_of_uint_range. simpl. lia.
    + simpl. lia.
Qed.

End printing.
End blocks.

(** ** The block matrix-vector product *)

Section mult.
Context {M V : Type} `{!la.linear_algebra M V}.
Implicit Types (self : BlockMatrix.t M) (x y : BlockVector.t V).

Lemma get_block_Ok_iff x (j : uint) :
  (∃ v, BlockVector.get_block x j = Ok v) ↔ (N.to_nat j < length x)%nat.
Proof.
  unfold BlockVector.get_block.
  destruct (lookup (N.to_nat j) x) as [v|] eqn:Hv; split.
  - intros _. by apply lookup_lt_Some in Hv.
  - intros _. by exists v.
  - by intros [? ?].
  - intros Hj. apply lookup_ge_None_1 in Hv. unfold BlockVector.t in *. lia.
Qed.

Lemma block_Ok_iff self (i j : uint) (A : M) :
  BlockMatrix.block self i j = Ok A
  ↔ BlockMatrix.row self i !! N.to_nat j = Some (Some A).
Proof.
  unfold BlockMatrix.block.
  destruct (BlockMatrix.row self i !! N.to_nat j) as [[B|]|]; split;
    (done || by intros [= ->]).
Qed.

Lemma row_of_nat self (r : nat) (row : list (option M)) :
  BlockMatrix.matrices self !! r = Some row →
  BlockMatrix.row self (N.of_nat r) = row.
Proof. intros Hr. unfold BlockMatrix.row. by rewrite Nat2N.id, Hr. Qed.

Lemma mult_columns_Ok_iff self x (r : uint) (js : list uint) (s : V * V) :
  (∃ s', BlockMatrix.mult_columns self x r js s = Ok s')
  ↔ ∀ j, j ∈ js →
      (N.to_nat j < length x)%nat ∧ ∃ A, BlockMatrix.block self r j = Ok A.
Proof.
  revert s. induction js as [|j js IH]; intros [_y z]; simpl.
  - split; [| by eexists]. intros _ j Hj. by apply elem_of_nil in Hj.
  - destruct (BlockVector.get_block x j) as [xj|e] eqn:Hxj; simpl.
    + assert (Hj : (N.to_nat j < length x)%nat)
        by (apply get_block_Ok_iff; by exists xj).
      destruct (BlockMatrix.block self r j) as [A|e] eqn:HA; simpl.
      * rewrite IH. split.
        -- intros Hall j' Hj'.
           apply elem_of_cons in Hj' as [->|Hj']; [by eauto | by apply Hall].
        -- intros Hall j' Hj'. apply Hall. by apply list_elem_of_further.
      * split; [by intros [? ?] |]. intros Hall.
        destruct (Hall j) as [_ [A HA']]; [apply list_elem_of_here |].
        by rewrite HA in HA'.
    + split; [by intros [? ?] |]. intros Hall.
      destruct (Hall j) as [Hj _]; [apply list_elem_of_here |].
      apply get_block_Ok_iff in Hj as [v Hv]. by rewrite Hxj in Hv.
Qed.

Lemma mult_rows_length self x (rows : list uint) y (z : V) y' (z' : V) :
  BlockMatrix.mult_rows self x rows (y, z) = Ok (y', z') → length y' = length y.
Proof.
  revert y z. induction rows as [|r rows IH]; intros y z; simpl.
  - by intros [= <- _].
  - destruct (BlockMatrix.block self r 0) as [A|]; [| done]. simpl.
    destruct (BlockVector.get_block y r) as [_y|]; [| done]. simpl.
    destruct (BlockMatrix.mult_columns self x r _ _) as [[_y' z1]|]; [| done].
    simpl. intros Hrest. apply IH in Hrest. by rewrite length_insert in Hrest.
Qed.

Lemma mult_rows_Ok_iff self x (rows : list uint) y (z : V) :
  (∃ s', BlockMatrix.mult_rows self x rows (y, z) = Ok s')
  ↔ ∀ r, r ∈ rows →
      (∃ A, BlockMatrix.block self r 0 = Ok A)
      ∧ (N.to_nat r < length y)%nat
      ∧ ∀ j, j ∈ uint_range (N.of_nat (length (BlockMatrix.row self r))) →
          (N.to_nat j < length x)%nat
          ∧ ∃ A, BlockMatrix.block self r j = Ok A.
Proof.
  revert y z. induction rows as [|r rows IH]; intros y z; simpl.
  - split; [| by eexists]. intros _ r Hr. by apply elem_of_nil in Hr.
  - destruct (BlockMatrix.block self r 0) as [A|e] eqn:HA; simpl.
    2:{ split; [by intros [? ?] |]. intros Hall.
        destruct (Hall r) as [[A HA'] _]; [apply list_elem_of_here |].
        by rewrite HA in HA'. }
    destruct (BlockVector.get_block y r) as [_y|e] eqn:Hy; simpl.
    2:{ split; [by intros [? ?] |]. intros Hall.
        destruct (Hall r) as (_ & Hr & _); [apply list_elem_of_here |].
        apply get_block_Ok_iff in Hr as [v Hv]. by rewrite Hy in Hv. }
    assert (Hr : (N.to_nat r < length y)%nat)
      by (apply get_block_Ok_iff; by exists _y).
    destruct (BlockMatrix.mult_columns self x r _ _) as [[_y' z1]|e] eqn:Hcolumns;
      simpl.
    + assert (Hcols : ∃ s', BlockMatrix.mult_columns self x r
                 (uint_range (N.of_nat (length (BlockMatrix.row self r))))
                 (la.vector_zero (la.vector_resize _y (la.matrix_size A 0)),
                  la.vector_zero
                    (la.vector_resize z
                       (la.vector_size
                          (la.vector_zero
                             (la.vector_resize _y (la.matrix_size A 0))))))
                 = Ok s') by eauto.
      pose proof (proj1 (mult_columns_Ok_iff _ _ _ _ _) Hcols) as Hcols'.
      rewrite IH, length_insert. split.
      * intros Hall r' Hr'.
        apply elem_of_cons in Hr' as [->|Hr']; [by eauto | by apply Hall].
      * intros Hall r' Hr'. apply Hall. by apply list_elem_of_further.
    + split; [by intros [? ?] |]. intros Hall.
      destruct (Hall r) as (_ & _ & Hcols); [apply list_elem_of_here |].
      destruct (proj2 (mult_columns_Ok_iff self x r _
               (la.vector_zero (la.vector_resize _y (la.matrix_size A 0)),
                la.vector_zero
                  (la.vector_resize z
                     (la.vector_size
                        (la.vector_zero
                           (la.vector_resize _y (la.matrix_size A 0)))))))
               Hcols) as [s' Hs'].
      by rewrite Hcolumns in Hs'.
Qed.

(** X15. [mult] without [transposed] returns exactly when the matrix has
    a block row, every block row has a block, no block of the matrix is a
    null pointer, the vector [x] has a block for every block column of
    every block row, and the vector [y] has a block for every block
    row. In every other case one of its assertions fails, or one of the
    block vectors. *)
Theorem mult_returns_iff self x y :
  (∃ y', BlockMatrix.mult self x y false = Ok y')
  ↔ BlockMatrix.matrices self ≠ []
    ∧ (length (BlockMatrix.matrices self) ≤ length y)%nat
    ∧ Forall (λ row : list (option M),
                row ≠ [] ∧ (length row ≤ length x)%nat ∧ Forall is_Some row)
             (BlockMatrix.matrices self).
Proof.
  unfold BlockMatrix.mult. split.
  - intros [y' Hmult].
    destruct (BlockMatrix.block self 0 0) as [A0|] eqn:HA0; [| done].
    simpl in Hmult.
    destruct (BlockMatrix.mult_rows self x _ _) as [[y1 z1]|] eqn:Hrows; [| done].
    assert (Hok : ∃ s', BlockMatrix.mult_rows self x
              (uint_range (N.of_nat (length (BlockMatrix.matrices self))))
              (y, la.create_vector A0) = Ok s') by eauto.
    pose proof (proj1 (mult_rows_Ok_iff _ _ _ _ _) Hok) as Hok'.
    clear Hok. rename Hok' into Hok.
    assert (Hrow : ∀ (r : nat) row,
              BlockMatrix.matrices self !! r = Some row →
              (r < length y)%nat
              ∧ row ≠ [] ∧ (length row ≤ length x)%nat ∧ Forall is_Some row).
    { intros r row Hr.
      pose proof (lookup_lt_Some _ _ _ Hr) as Hlt.
      destruct (Hok (N.of_nat r)) as ([A HA] & Hy & Hcols).
      { apply elem_of_uint_range. lia. }
      rewrite (row_of_nat _ _ _ Hr) in Hcols.
      apply block_Ok_iff in HA. rewrite (row_of_nat _ _ _ Hr) in HA.
      split; [lia |]. split; [by intros -> |].
      assert (Hj : ∀ (j : nat) b, row !! j = Some b →
                (j < length x)%nat ∧ is_Some b).
      { intros j b Hb.
        destruct (Hcols (N.of_nat j)) as [Hx [B HB]].
        { apply elem_of_uint_range. apply lookup_lt_Some in Hb. lia. }
        apply block_Ok_iff in HB.
        rewrite (row_of_nat _ _ _ Hr), Nat2N.id, Hb in HB.
        injection HB as ->. split; [lia | by eexists]. }
      split.
      - destruct (length row) as [|n] eqn:Hn; [lia |].
        destruct (lookup_lt_is_Some_2 row n) as [b Hb]; [lia |].
        destruct (Hj n b Hb). lia.
      - apply Forall_lookup. intros j b Hb. by apply (Hj j b). }
    split; [| split].
    + apply block_Ok_iff in HA0. unfold BlockMatrix.row in HA0.
      intros Hnil. by rewrite Hnil in HA0.
    + destruct (length (BlockMatrix.matrices self)) as [|n] eqn:Hn; [lia |].
      destruct (lookup_lt_is_Some_2 (BlockMatrix.matrices self) n) as [row Hr];
        [lia |].
      destruct (Hrow n row Hr). lia.
    + apply Forall_lookup. intros r row Hr. by apply (Hrow r row).
  - intros (Hne & Hy & Hall).
    rewrite Forall_lookup in Hall.
    assert (Hblock : ∀ (r j : nat) row,
              BlockMatrix.matrices self !! r = Some row →
              (j < length row)%nat →
              ∃ A, BlockMatrix.block self (N.of_nat r) (N.of_nat j) = Ok A).
    { intros r j row Hr Hj.
      destruct (Hall r row Hr) as (_ & _ & Hsome).
      destruct (lookup_lt_is_Some_2 row j Hj) as [b Hb].
      rewrite Forall_lookup in Hsome. destruct (Hsome j b Hb) as [A ->].
      exists A. apply block_Ok_iff.
      by rewrite (row_of_nat _ _ _ Hr), Nat2N.id. }
    destruct (BlockMatrix.matrices self) as [|row0 rows] eqn:Hmatrices; [done |].
    rewrite <- Hmatrices in *.
    assert (Hrow0 : BlockMatrix.matrices self !! 0%nat = Some row0)
      by (by rewrite Hmatrices).
    destruct (Hall 0%nat row0 Hrow0) as (Hne0 & _ & _).
    destruct (Hblock 0%nat 0%nat row0 Hrow0) as [A0 HA0].
    { destruct row0; [done | simpl; lia]. }
    change (N.of_nat 0) with 0 in HA0. rewrite HA0. simpl.
    destruct (proj2 (mult_rows_Ok_iff self x
                (uint_range (N.of_nat (length (BlockMatrix.matrices self))))
                y (la.create_vector A0))) as [[y' z'] ->].
    2:{ by exists y'. }
    intros r Hr. apply elem_of_uint_range in Hr.
    destruct (lookup_lt_is_Some_2 (BlockMatrix.matrices self) (N.to_nat r))
      as [row Hrow]; [lia |].
    destruct (Hall _ row Hrow) as (Hnerow & Hx & _).
    pose proof (row_of_nat _ _ _ Hrow) as Hrow'. rewrite N2Nat.id in Hrow'.
    split; [| split; [lia |]].
    + destruct (Hblock (N.to_nat r) 0%nat row Hrow) as [A HA].
      { destruct row; [done | simpl; lia]. }
      rewrite N2Nat.id in HA. by exists A.
    + intros j Hj. apply elem_of_uint_range in Hj. rewrite Hrow' in Hj.
      split; [lia |].
      destruct (Hblock (N.to_nat r) (N.to_nat j) row Hrow) as [A HA]; [lia |].
      rewrite !N2Nat.id in HA. by exists A.
Qed.

End mult.

Section mult_shared.
Context {M V : Type} `{!la.linear_algebra M V}.
Implicit Types (self : BlockMatrix.t M) (x y : BlockVector.t ptr).
Implicit Types (vectors : gmap ptr V) (p : ptr).

(** The blocks that [x] points to keep their values in a store that
    differs only at pointers [x] does not hold. *)
Lemma blocks_of_frame x (xs : list V) vectors vectors' :
  Forall2 (λ p v, vectors !! p = Some v) x xs →
  (∀ p, p ∈ x → vectors' !! p = vectors !! p) →
  Forall2 (λ p v, vectors' !! p = Some v) x xs.
Proof.
  induction 1 as [|p v x xs Hp Hrest IH]; intros Hsame; constructor.
  - rewrite Hsame; [done | apply list_elem_of_here].
  - apply IH. intros q Hq. apply Hsame. by apply list_elem_of_further.
Qed.

Lemma vector_at_Some vectors p (v : V) :
  vectors !! p = Some v → BlockMatrix.vector_at vectors p = Ok v.
Proof. unfold BlockMatrix.vector_at. by intros ->. Qed.

(** The inner loop of [mult] changes the store at the block of [y] it
    adds to, and nowhere else. *)
Lemma mult_columns_shared_frame self x (r : uint) (_y : ptr) (js : list uint)
    vectors (z : V) vectors' (z' : V) :
  BlockMatrix.mult_columns_shared self x r _y js (vectors, z)
  = Ok (vectors', z') →
  ∀ p, p ≠ _y → vectors' !! p = vectors !! p.
Proof.
  revert vectors z. induction js as [|j js IH]; intros vectors z.
  - simpl. by intros [= <- _].
  - simpl.
    destruct (BlockVector.get_block x j) as [_x|]; [| done]. simpl.
    destruct (BlockMatrix.vector_at vectors _x) as [x_j|]; [| done]. simpl.
    destruct (BlockMatrix.block self r j) as [A|]; [| done]. simpl.
    destruct (BlockMatrix.vector_at vectors _y) as [y_row|]; [| done]. simpl.
    intros Hrest p Hp. rewrite (IH _ _ Hrest p Hp).
    by apply lookup_insert_ne.
Qed.

(** When [x] does not hold the block of [y] that the inner loop adds to,
    the loop, from the column after the blocks [before] on, adds the
    products of the remaining blocks of the row with the blocks of [x] as
    they were. *)
Lemma mult_columns_shared_value self (r : uint) (blocks : list M)
    (before : list (option M)) (x_before x_rest : list ptr) (xs : list V)
    (_y : ptr) vectors (acc z : V) vectors' (z' : V) :
  mult_overwrites →
  BlockMatrix.row self r = before ++ (Some <$> blocks) →
  length x_before = length before →
  Forall2 (λ p v, vectors !! p = Some v) x_rest xs →
  _y ∉ x_rest →
  vectors !! _y = Some acc →
  BlockMatrix.mult_columns_shared self (x_before ++ x_rest) r _y
    (N.of_nat <$> seq (length before) (length blocks)) (vectors, z)
  = Ok (vectors', z') →
  vectors' !! _y = Some (block_row_sum blocks xs acc).
Proof.
  intros Hover.
  revert before x_before x_rest xs vectors acc z.
  induction blocks as [|A blocks IH];
    intros before x_before x_rest xs vectors acc z Hrow Hlen Hxs Hy Hacc.
  - simpl. by intros [= <- _].
  - simpl.
    unfold BlockVector.get_block. rewrite Nat2N.id.
    rewrite lookup_app_r by lia. rewrite Hlen, Nat.sub_diag.
    destruct Hxs as [|px xk x_rest xs Hpx Hxs]; [done |]. simpl.
    rewrite (vector_at_Some _ _ _ Hpx). simpl.
    assert (HA : BlockMatrix.block self r (N.of_nat (length before)) = Ok A).
    { unfold BlockMatrix.block. rewrite Hrow, Nat2N.id.
      rewrite lookup_app_r by lia. by rewrite Nat.sub_diag. }
    rewrite HA. simpl.
    rewrite (vector_at_Some _ _ _ Hacc). simpl. intros Hrest.
    apply not_elem_of_cons in Hy as [Hne Hy].
    specialize (IH (before ++ [Some A]) (x_before ++ [px]) x_rest xs
                  (<[_y := la.vector_add acc (la.matrix_mult A xk z)]> vectors)
                  (la.vector_add acc (la.matrix_mult A xk z))
                  (la.matrix_mult A xk z)).
    rewrite <- !app_assoc in IH. simpl in IH.
    rewrite !length_app in IH. simpl in IH. rewrite !Nat.add_1_r in IH.
    rewrite IH; [| done | by f_equal | | done | apply lookup_insert_eq | done].
    + unfold block_row_sum, block_product. simpl.
      by rewrite (Hover A xk z (la.create_vector A)).
    + apply (blocks_of_frame _ _ vectors); [done |].
      intros q Hq. apply lookup_insert_ne. by intros ->.
Qed.

(** The outer loop of [mult] over the block rows [k], ..., [k + n - 1],
    on block vectors [x] and [y] that hold no block in common, [y]
    holding no block twice: it changes the store at the blocks of [y] for
    these rows and nowhere else, and leaves there the sum for the row. *)
Lemma mult_rows_shared_value self x (xs : list V) y (k n : nat)
    vectors (z : V) vectors' (z' : V) :
  mult_overwrites →
  NoDup y →
  (∀ p, p ∈ x → p ∉ y) →
  Forall2 (λ p v, vectors !! p = Some v) x xs →
  BlockMatrix.mult_rows_shared self x y (N.of_nat <$> seq k n) (vectors, z)
  = Ok (vectors', z') →
  (∀ p, (∀ r : nat, (k ≤ r < k + n)%nat → y !! r ≠ Some p) →
     vectors' !! p = vectors !! p)
  ∧ (∀ (r : nat) (blocks : list M) (_y : ptr),
       (k ≤ r < k + n)%nat →
       BlockMatrix.matrices self !! r = Some (Some <$> blocks) →
       y !! r = Some _y →
       ∃ (y_r : V) (A0 : M),
         vectors !! _y = Some y_r
         ∧ head blocks = Some A0
         ∧ vectors' !! _y
           = Some (block_row_sum blocks xs
                     (la.vector_zero
                        (la.vector_resize y_r (la.matrix_size A0 0))))).
Proof.
  intros Hover Hdup Hsep. revert k vectors z.
  induction n as [|n IH]; intros k vectors z Hxs.
  - simpl. intros [= <- _]. split; [done |]. intros; lia.
  - simpl.
    destruct (BlockMatrix.block self (N.of_nat k) 0) as [A|] eqn:HA; [| done].
    simpl.
    destruct (BlockVector.get_block y (N.of_nat k)) as [_y|] eqn:Hy; [| done].
    simpl.
    destruct (BlockMatrix.vector_at vectors _y) as [y_k|] eqn:Hyk; [| done].
    simpl.
    destruct (BlockMatrix.mult_columns_shared self x (N.of_nat k) _y _ _)
      as [[vectors1 z1]|] eqn:Hcolumns; [| done].
    simpl. intros Hrest.
    assert (Hk : y !! k = Some _y).
    { revert Hy. unfold BlockVector.get_block. rewrite Nat2N.id.
      by destruct (lookup k y); intros [= ->]. }
    assert (Hyk' : vectors !! _y = Some y_k).
    { revert Hyk. unfold BlockMatrix.vector_at.
      by destruct (lookup _y vectors); intros [= ->]. }
    assert (Hnotin : _y ∉ x).
    { intros Hin. apply (Hsep _ Hin). by apply list_elem_of_lookup_2 in Hk. }
    pose proof (mult_columns_shared_frame _ _ _ _ _ _ _ _ _ Hcolumns) as Hframe.
    assert (Hother : ∀ p, p ≠ _y → vectors1 !! p = vectors !! p).
    { intros p Hp. rewrite (Hframe p Hp). by apply lookup_insert_ne. }
    assert (Hxs1 : Forall2 (λ p v, vectors1 !! p = Some v) x xs).
    { apply (blocks_of_frame _ _ vectors); [done |].
      intros p Hp. apply Hother. by intros ->. }
    destruct (IH _ _ _ Hxs1 Hrest) as (Hsame & Hvalue).
    assert (Hlater : ∀ r : nat, (S k ≤ r < S k + n)%nat → y !! r ≠ Some _y).
    { intros r Hr Hyr.
      pose proof (NoDup_lookup _ _ _ _ Hdup Hk Hyr). lia. }
    split.
    + intros p Hp. rewrite Hsame by (intros r Hr; apply Hp; lia).
      apply Hother. intros ->. apply (Hp k); [lia | done].
    + intros r blocks _y' Hr Hblocks Hyr.
      destruct (decide (r = k)) as [->|Hne].
      * rewrite Hk in Hyr. injection Hyr as <-.
        pose proof (row_of_nat _ _ _ Hblocks) as Hrow.
        apply block_Ok_iff in HA. rewrite Hrow in HA. simpl in HA.
        destruct blocks as [|A0 blocks']; [done |].
        simpl in HA. injection HA as <-.
        exists y_k, A0. split; [done |]. split; [done |].
        rewrite (Hsame _ Hlater).
        rewrite Hrow, length_fmap in Hcolumns.
        unfold uint_range in Hcolumns. rewrite Nat2N.id in Hcolumns.
        apply (mult_columns_shared_value self (N.of_nat k) (A0 :: blocks')
                 [] [] x xs _y
                 (<[_y := la.vector_zero
                            (la.vector_resize y_k (la.matrix_size A0 0))]>
                    vectors)
                 (la.vector_zero (la.vector_resize y_k (la.matrix_size A0 0)))
                 _ _ _ Hover Hrow eq_refl) in Hcolumns;
          [done | | done | apply lookup_insert_eq].
        apply (blocks_of_frame _ _ vectors); [done |].
        intros p Hp. apply lookup_insert_ne. by intros ->.
      * destruct (Hvalue r blocks _y') as (y_r & A0 & Hy_r & HA0 & Hy'r);
          [lia | done | done |].
        exists y_r, A0. split; [| done].
        rewrite <- Hy_r. symmetry. apply Hother. intros ->.
        pose proof (NoDup_lookup _ _ _ _ Hdup Hk Hyr). lia.
Qed.

(** X16. [mult] without [transposed], on block vectors [x] and [y] that
    hold no block in common, [y] holding no block twice, when multiplying
    by a block overwrites its output vector: a call that returns changes
    no vector but the blocks of [y] for the block rows of the matrix, the
    blocks of [x] included; and it leaves as the block of [y] for a block
    row the vector that was there, resized to the number of rows of the
    first block of the row and set to zero, to which the products of the
    blocks of the row with the blocks of [x] have been added from left to
    right. *)
Theorem mult_block_rows self x (xs : list V) y vectors vectors' :
  mult_overwrites →
  NoDup y →
  (∀ p, p ∈ x → p ∉ y) →
  Forall2 (λ p v, vectors !! p = Some v) x xs →
  BlockMatrix.mult_shared self x y vectors false = Ok vectors' →
  (∀ p,
     (∀ r : nat, (r < length (BlockMatrix.matrices self))%nat →
        y !! r ≠ Some p) →
     vectors' !! p = vectors !! p)
  ∧ Forall2 (λ p v, vectors' !! p = Some v) x xs
  ∧ (∀ (r : nat) (blocks : list M) (_y : ptr),
       BlockMatrix.matrices self !! r = Some (Some <$> blocks) →
       y !! r = Some _y →
       ∃ (y_r : V) (A0 : M),
         vectors !! _y = Some y_r
         ∧ head blocks = Some A0
         ∧ vectors' !! _y
           = Some (block_row_sum blocks xs
                     (la.vector_zero
                        (la.vector_resize y_r (la.matrix_size A0 0))))).
Proof.
  intros Hover Hdup Hsep Hxs. unfold BlockMatrix.mult_shared.
  destruct (BlockMatrix.block self 0 0) as [A0|]; [| done]. simpl.
  destruct (BlockMatrix.mult_rows_shared self x y _ _) as [[vectors1 z1]|]
    eqn:Hrows; [| done].
  simpl. intros [= <-].
  unfold uint_range in Hrows. rewrite Nat2N.id in Hrows.
  destruct (mult_rows_shared_value _ _ _ _ _ _ _ _ _ _ Hover Hdup Hsep Hxs Hrows)
    as (Hsame & Hvalue).
  split; [| split].
  - intros p Hp. apply Hsame. intros r Hr. apply Hp. lia.
  - apply (blocks_of_frame _ _ vectors); [done |].
    intros p Hp. apply Hsame. intros r _ Hr.
    apply (Hsep p Hp). by apply (list_elem_of_lookup_2 _ r).
  - intros r blocks _y Hblocks Hy. apply (Hvalue r blocks _y); [| done | done].
    apply lookup_lt_Some in Hblocks. lia.
Qed.

End mult_shared.

(** ** The further properties on the samples *)

Lemma extract_sub_dofmap_static_selects_witness :
  UFCDofMap.extract_sub_dofmap_static (sample.new sample.nested) 0 [1; 0]
    (UFCMesh.init sample.intervals) sample.intervals
  = Ok (sample.new sample.DG0, 3)
  ∧ [1; 0] ≠ []
  ∧ sample.new sample.DG0
    = foldl ufc.create_sub_dof_map (sample.new sample.nested) [1; 0]
  ∧ ∀ (k : nat) (i : uint),
      [1; 0] !! k = Some i →
      i < ufc.num_sub_dof_maps
            (foldl ufc.create_sub_dof_map (sample.new sample.nested)
               (take k [1; 0])).
Proof.
  assert (H1 : UFCDofMap.extract_sub_dofmap_static (sample.new sample.nested)
                 0 [1; 0] (UFCMesh.init sample.intervals) sample.intervals
               = Ok (sample.new sample.DG0, 3))
    by (vm_compute; reflexivity).
  exact (conj H1
           (extract_sub_dofmap_static_selects (sample.new sample.nested) 0
              [1; 0] (UFCMesh.init sample.intervals) sample.intervals
              (sample.new sample.DG0) 3 H1)).
Defined.

Lemma extract_sub_dofmap_static_shift_witness :
  5 < UINT_MODULUS
  ∧ UFCDofMap.extract_sub_dofmap_static (sample.new sample.nested) 5 [1; 0]
      (UFCMesh.init sample.intervals) sample.intervals
    = match
        UFCDofMap.extract_sub_dofmap_static (sample.new sample.nested) 0
          [1; 0] (UFCMesh.init sample.intervals) sample.intervals
      with
      | Ok (sub, relative) => Ok (sub, uint_add 5 relative)
      | Throw e => Throw e
      end.
Proof.
  assert (H1 : 5 < UINT_MODULUS) by (vm_compute; reflexivity).
  exact (conj H1
           (extract_sub_dofmap_static_shift (sample.new sample.nested) 5
              [1; 0] (UFCMesh.init sample.intervals) sample.intervals H1)).
Defined.

Lemma extract_sub_dofmap_frame_witness :
  sample.P1xP1_heap !! UFCDofMap._ufc_dofmap sample.P1xP1_map
  = Some sample.P1xP1_descriptor
  ∧ UFCDofMap.extract_sub_dofmap 1 sample.P1xP1_heap sample.P1xP1_map [1]
      sample.triangles
    = Ok (sample.P1xP1_sub_map, sample.P1xP1_sub_heap)
  ∧ sample.P1xP1_heap !! UFCDofMap._ufc_dofmap sample.P1xP1_sub_map = None
  ∧ Mesh.ordered sample.triangles = true
  ∧ UFCDofMap._ufc_mesh sample.P1xP1_sub_map = UFCMesh.init sample.triangles
  ∧ (∃ di,
       UFCDofMap.init_ufc_dofmap
         (foldl ufc.create_sub_dof_map sample.P1xP1_descriptor [1])
         (UFCMesh.init sample.triangles) sample.triangles = Ok di
       ∧ sample.P1xP1_sub_heap
         = <[UFCDofMap._ufc_dofmap sample.P1xP1_sub_map := di]>
             sample.P1xP1_heap)
  ∧ (∀ (q : ptr) dq,
       sample.P1xP1_heap !! q = Some dq → sample.P1xP1_sub_heap !! q = Some dq).
Proof.
  assert (H1 : sample.P1xP1_heap !! UFCDofMap._ufc_dofmap sample.P1xP1_map
               = Some sample.P1xP1_descriptor) by reflexivity.
  assert (H2 : UFCDofMap.extract_sub_dofmap 1 sample.P1xP1_heap
                 sample.P1xP1_map [1] sample.triangles
               = Ok (sample.P1xP1_sub_map, sample.P1xP1_sub_heap))
    by (vm_compute; reflexivity).
  exact (conj H1 (conj H2
           (extract_sub_dofmap_frame 1 sample.P1xP1_heap sample.P1xP1_map
              sample.P1xP1_descriptor [1] sample.triangles
              sample.P1xP1_sub_map sample.P1xP1_sub_heap H1 H2))).
Defined.

Lemma extract_sub_dofmap_failures_witness :
  sample.heap_of (sample.mixed [sample.P1_triangle; sample.edge_dofs])
    !! UFCDofMap._ufc_dofmap sample.uninitialised_map
  = Some (sample.new (sample.mixed [sample.P1_triangle; sample.edge_dofs]))
  ∧ UFCDofMap.extract_sub_dofmap 1
      (sample.heap_of (sample.mixed [sample.P1_triangle; sample.edge_dofs]))
      sample.uninitialised_map [1] sample.triangles
    = Throw (MissingEntitiesError 1)
  ∧ MissingEntitiesError 1 ≠ AssertionFailure
  ∧ ((UFCDofMap.extract_sub_dofmap_static
        (sample.new (sample.mixed [sample.P1_triangle; sample.edge_dofs]))
        0 [1] (UFCDofMap._ufc_mesh sample.uninitialised_map) sample.triangles
      = Throw (MissingEntitiesError 1)
      ∧ (MissingEntitiesError 1 = NoSubspacesError
         ∨ MissingEntitiesError 1 = NoSubspaceSpecifiedError
         ∨ (∃ i n, MissingEntitiesError 1 = IndexOutOfRangeError i n ∧ n ≤ i)
         ∨ ∃ k, MissingEntitiesError 1 = MissingEntitiesError k))
     ∨ (∃ sub (offset : uint),
          UFCDofMap.extract_sub_dofmap_static
            (sample.new (sample.mixed [sample.P1_triangle; sample.edge_dofs]))
            0 [1] (UFCDofMap._ufc_mesh sample.uninitialised_map)
            sample.triangles
          = Ok (sub, offset)
          ∧ ((Mesh.ordered sample.triangles = false
              ∧ MissingEntitiesError 1 = OrderingError)
             ∨ (Mesh.ordered sample.triangles = true
                ∧ ∃ k, MissingEntitiesError 1 = MissingEntitiesError k
                       ∧ k ≤ Mesh.topology_dim sample.triangles
                       ∧ missing_entities sub sample.triangles k)))).
Proof.
  assert (H1 : sample.heap_of
                 (sample.mixed [sample.P1_triangle; sample.edge_dofs])
                 !! UFCDofMap._ufc_dofmap sample.uninitialised_map
               = Some (sample.new
                         (sample.mixed [sample.P1_triangle; sample.edge_dofs])))
    by reflexivity.
  assert (H2 : UFCDofMap.extract_sub_dofmap 1
                 (sample.heap_of
                    (sample.mixed [sample.P1_triangle; sample.edge_dofs]))
                 sample.uninitialised_map [1] sample.triangles
               = Throw (MissingEntitiesError 1))
    by (vm_compute; reflexivity).
  exact (conj H1 (conj H2
           (extract_sub_dofmap_failures 1
              (sample.heap_of
                 (sample.mixed [sample.P1_triangle; sample.edge_dofs]))
              sample.uninitialised_map
              (sample.new (sample.mixed [sample.P1_triangle; sample.edge_dofs]))
              [1] sample.triangles (MissingEntitiesError 1) H1 H2))).
Defined.

Lemma collapse_failures_witness :
  sample.heap_of sample.edge_dofs
    !! UFCDofMap._ufc_dofmap sample.uninitialised_map
  = Some (sample.new sample.edge_dofs)
  ∧ UFCDofMap.collapse 1 (sample.heap_of sample.edge_dofs)
      sample.uninitialised_map {[ 7 := 9 ]} sample.triangles
    = (Throw (MissingEntitiesError 1), {[ 7 := 9 ]})
  ∧ ({[ 7 := 9 ]} : gmap uint uint) = {[ 7 := 9 ]}
  ∧ MissingEntitiesError 1 ≠ AssertionFailure
  ∧ ((Mesh.ordered sample.triangles = false
      ∧ MissingEntitiesError 1 = OrderingError)
     ∨ (Mesh.ordered sample.triangles = true
        ∧ ∃ k, MissingEntitiesError 1 = MissingEntitiesError k
               ∧ k ≤ Mesh.topology_dim sample.triangles
               ∧ missing_entities (sample.new sample.edge_dofs)
                   sample.triangles k)).
Proof.
  assert (H1 : sample.heap_of sample.edge_dofs
                 !! UFCDofMap._ufc_dofmap sample.uninitialised_map
               = Some (sample.new sample.edge_dofs)) by reflexivity.
  assert (H2 : UFCDofMap.collapse 1 (sample.heap_of sample.edge_dofs)
                 sample.uninitialised_map {[ 7 := 9 ]} sample.triangles
               = (Throw (MissingEntitiesError 1), {[ 7 := 9 ]}))
    by (vm_compute; reflexivity).
  exact (conj H1 (conj H2
           (collapse_failures 1 (sample.heap_of sample.edge_dofs)
              sample.uninitialised_map (sample.new sample.edge_dofs)
              {[ 7 := 9 ]} sample.triangles (MissingEntitiesError 1)
              {[ 7 := 9 ]} H1 H2))).
Defined.

Lemma sample_triangles_complete (k : uint) :
  k ≤ Mesh.topology_dim sample.triangles →
  ¬ missing_entities sample.P1_descriptor sample.triangles k.
Proof.
  intros _ [Hneeds Hzero]. simpl in Hneeds.
  apply N.eqb_eq in Hneeds. subst k. discriminate Hzero.
Qed.

Lemma collapse_returns_witness :
  sample.P1xP1_sub_heap !! UFCDofMap._ufc_dofmap sample.P1xP1_sub_map
  = Some sample.P1_descriptor
  ∧ Mesh.ordered sample.triangles = true
  ∧ (∀ k, k ≤ Mesh.topology_dim sample.triangles →
       ¬ missing_entities sample.P1_descriptor sample.triangles k)
  ∧ ∃ d' (table : gmap uint uint),
      UFCDofMap.init_ufc_dofmap sample.P1_descriptor
        (UFCMesh.init sample.triangles) sample.triangles = Ok d'
      ∧ UFCDofMap.collapse 1 sample.P1xP1_sub_heap sample.P1xP1_sub_map
          {[ 7 := 9 ]} sample.triangles
        = (Ok (UFCDofMap.mk (UFCDofMap._ufc_dofmap sample.P1xP1_sub_map)
                 (UFCMesh.init sample.triangles) 0 (1 <? 1),
               <[UFCDofMap._ufc_dofmap sample.P1xP1_sub_map := d']>
                 sample.P1xP1_sub_heap),
           table).
Proof.
  assert (H1 : sample.P1xP1_sub_heap
                 !! UFCDofMap._ufc_dofmap sample.P1xP1_sub_map
               = Some sample.P1_descriptor) by reflexivity.
  assert (H2 : Mesh.ordered sample.triangles = true) by reflexivity.
  exact (conj H1 (conj H2 (conj sample_triangles_complete
           (collapse_returns 1 sample.P1xP1_sub_heap sample.P1xP1_sub_map
              sample.P1_descriptor {[ 7 := 9 ]} sample.triangles
              H1 H2 sample_triangles_complete)))).
Defined.

Lemma collapse_table_shifts_witness :
  UFCDofMap.collapse 1 sample.P1xP1_sub_heap sample.P1xP1_sub_map
    {[ 7 := 9 ]} sample.triangles
  = (Ok (sample.P1xP1_collapsed_map, sample.P1xP1_sub_heap),
     sample.P1xP1_translation)
  ∧ UFCDofMap._ufc_mesh sample.P1xP1_sub_map = UFCMesh.init sample.triangles
  ∧ (∀ d' cell,
       sample.P1xP1_sub_heap !! UFCDofMap._ufc_dofmap sample.P1xP1_sub_map
       = Some d' →
       cell ∈ Mesh.cells sample.triangles →
       tabulates_local_dimension d' (UFCMesh.init sample.triangles)
         (UFCCell.view sample.triangles cell))
  ∧ (∀ c o, sample.P1xP1_translation !! c = Some o →
       o = (if 0 <? UFCDofMap._ufc_offset sample.P1xP1_sub_map
            then uint_add c (UFCDofMap._ufc_offset sample.P1xP1_sub_map)
            else c))
  ∧ (∀ c o, sample.P1xP1_translation !! c = Some o →
       c + UFCDofMap._ufc_offset sample.P1xP1_sub_map < UINT_MODULUS →
       o = c + UFCDofMap._ufc_offset sample.P1xP1_sub_map)
  ∧ (∀ c1 c2 o,
       sample.P1xP1_translation !! c1 = Some o →
       sample.P1xP1_translation !! c2 = Some o →
       c1 + UFCDofMap._ufc_offset sample.P1xP1_sub_map < UINT_MODULUS →
       c2 + UFCDofMap._ufc_offset sample.P1xP1_sub_map < UINT_MODULUS →
       c1 = c2).
Proof.
  assert (H1 : UFCDofMap.collapse 1 sample.P1xP1_sub_heap sample.P1xP1_sub_map
                 {[ 7 := 9 ]} sample.triangles
               = (Ok (sample.P1xP1_collapsed_map, sample.P1xP1_sub_heap),
                  sample.P1xP1_translation))
    by (vm_compute; reflexivity).
  assert (H2 : UFCDofMap._ufc_mesh sample.P1xP1_sub_map
               = UFCMesh.init sample.triangles) by reflexivity.
  exact (conj H1 (conj H2 (conj sample_fits_triangles
           (collapse_table_shifts 1 sample.P1xP1_sub_heap sample.P1xP1_sub_map
              {[ 7 := 9 ]} sample.triangles sample.P1xP1_collapsed_map
              sample.P1xP1_sub_heap sample.P1xP1_translation
              H1 H2 sample_fits_triangles)))).
Defined.

Lemma collapse_table_relates_dofs_witness :
  UFCDofMap.collapse 1 sample.P1xP1_sub_heap sample.P1xP1_sub_map
    {[ 7 := 9 ]} sample.triangles
  = (Ok (sample.P1xP1_collapsed_map, sample.P1xP1_sub_heap),
     sample.P1xP1_translation)
  ∧ UFCDofMap._ufc_mesh sample.P1xP1_sub_map = UFCMesh.init sample.triangles
  ∧ (∀ d' cell,
       sample.P1xP1_sub_heap !! UFCDofMap._ufc_dofmap sample.P1xP1_sub_map
       = Some d' →
       cell ∈ Mesh.cells sample.triangles →
       tabulates_local_dimension d' (UFCMesh.init sample.triangles)
         (UFCCell.view sample.triangles cell))
  ∧ ∃ keys values : list uint,
      UFCDofMap.dofs sample.P1xP1_sub_heap sample.P1xP1_collapsed_map
        sample.triangles true = Ok keys
      ∧ UFCDofMap.dofs sample.P1xP1_sub_heap sample.P1xP1_sub_map
          sample.triangles true = Ok values
      ∧ (∀ c, c ∈ keys ↔ is_Some (sample.P1xP1_translation !! c))
      ∧ (∀ o, o ∈ values ↔ ∃ c, sample.P1xP1_translation !! c = Some o).
Proof.
  assert (H1 : UFCDofMap.collapse 1 sample.P1xP1_sub_heap sample.P1xP1_sub_map
                 {[ 7 := 9 ]} sample.triangles
               = (Ok (sample.P1xP1_collapsed_map, sample.P1xP1_sub_heap),
                  sample.P1xP1_translation))
    by (vm_compute; reflexivity).
  assert (H2 : UFCDofMap._ufc_mesh sample.P1xP1_sub_map
               = UFCMesh.init sample.triangles) by reflexivity.
  exact (conj H1 (conj H2 (conj sample_fits_triangles
           (collapse_table_relates_dofs 1 sample.P1xP1_sub_heap
              sample.P1xP1_sub_map {[ 7 := 9 ]} sample.triangles
              sample.P1xP1_collapsed_map sample.P1xP1_sub_heap
              sample.P1xP1_translation H1 H2 sample_fits_triangles)))).
Defined.

Lemma str_describes_global_dimension_witness :
  sample.P1xP1_sub_heap !! UFCDofMap._ufc_dofmap sample.P1xP1_sub_map
  = Some sample.P1_descriptor
  ∧ sample.P1xP1_sub_heap !! UFCDofMap._ufc_dofmap sample.P1xP1_map
    = Some sample.P1xP1_descriptor
  ∧ ∃ short verbose rest : string,
      UFCDofMap.str sample.P1xP1_sub_heap sample.P1xP1_sub_map false = Ok short
      ∧ UFCDofMap.str sample.P1xP1_sub_heap sample.P1xP1_sub_map true
        = Ok verbose
      ∧ verbose = short +:+ endl +:+ endl +:+ rest
      ∧ (UFCDofMap.str sample.P1xP1_sub_heap sample.P1xP1_map false = Ok short
         ↔ ufc.global_dimension sample.P1xP1_descriptor
           = ufc.global_dimension sample.P1_descriptor).
Proof.
  assert (H1 : sample.P1xP1_sub_heap
                 !! UFCDofMap._ufc_dofmap sample.P1xP1_sub_map
               = Some sample.P1_descriptor) by reflexivity.
  assert (H2 : sample.P1xP1_sub_heap
                 !! UFCDofMap._ufc_dofmap sample.P1xP1_map
               = Some sample.P1xP1_descriptor) by reflexivity.
  exact (conj H1 (conj H2
           (str_describes_global_dimension sample.P1xP1_sub_heap
              sample.P1xP1_sub_map sample.P1xP1_map sample.P1_descriptor
              sample.P1xP1_descriptor H1 H2))).
Defined.

Lemma str_verbose_shows_no_block_witness :
  BlockMatrix.str (λ (A : list (list Z)) (verbose : bool), "<Matrix>") id 1
    (BlockMatrix.create (M:=list (list Z)) (V:=list Z) 2 0) true
  = Some (Ok ("<BlockMatrix containing 2 x 0 blocks>" +:+ endl +:+ endl))
  ∧ BlockMatrix.row (BlockMatrix.create (M:=list (list Z)) (V:=list Z) 2 0) 0
    = []
  ∧ "<BlockMatrix containing 2 x 0 blocks>" +:+ endl +:+ endl
    = BlockMatrix.str_short
        (BlockMatrix.create (M:=list (list Z)) (V:=list Z) 2 0)
      +:+ endl +:+ endl.
Proof.
  assert (H1 : BlockMatrix.str
                 (λ (A : list (list Z)) (verbose : bool), "<Matrix>") id 1
                 (BlockMatrix.create (M:=list (list Z)) (V:=list Z) 2 0) true
               = Some (Ok ("<BlockMatrix containing 2 x 0 blocks>"
                           +:+ endl +:+ endl)))
    by (vm_compute; reflexivity).
  exact (conj H1
           (str_verbose_shows_no_block
              (λ (A : list (list Z)) (verbose : bool), "<Matrix>") id 1
              (BlockMatrix.create (M:=list (list Z)) (V:=list Z) 2 0)
              ("<BlockMatrix containing 2 x 0 blocks>" +:+ endl +:+ endl)
              H1)).
Defined.

Lemma mult_returns_iff_witness :
  (∃ y', BlockMatrix.mult sample.blocks [[1; 1]; [1]]%Z [[7]; [8]]%Z false
         = Ok y')
  ∧ BlockMatrix.matrices sample.blocks ≠ []
  ∧ (length (BlockMatrix.matrices sample.blocks)
     ≤ length ([[7]; [8]]%Z : BlockVector.t (list Z)))%nat
  ∧ Forall (λ row : list (option (list (list Z))),
              row ≠ []
              ∧ (length row
                 ≤ length ([[1; 1]; [1]]%Z : BlockVector.t (list Z)))%nat
              ∧ Forall is_Some row)
           (BlockMatrix.matrices sample.blocks).
Proof.
  assert (H1 : ∃ y', BlockMatrix.mult sample.blocks [[1; 1]; [1]]%Z
                       [[7]; [8]]%Z false = Ok y')
    by (exists [[4; 8]; [8]]%Z; vm_compute; reflexivity).
  exact (conj H1
           (proj1 (mult_returns_iff sample.blocks [[1; 1]; [1]]%Z
                     [[7]; [8]]%Z) H1)).
Defined.

Lemma mult_block_rows_witness :
  @mult_overwrites (list (list Z)) (list Z) sample.dense
  ∧ NoDup [3; 4]%positive
  ∧ (∀ p : ptr, p ∈ [1; 2]%positive → p ∉ [3; 4]%positive)
  ∧ Forall2 (λ (p : ptr) (v : list Z), sample.vectors !! p = Some v)
      [1; 2]%positive [[1; 1]; [1]]%Z
  ∧ BlockMatrix.mult_shared sample.blocks [1; 2]%positive [3; 4]%positive
      sample.vectors false
    = Ok (<[3%positive := [4; 8]%Z]> sample.vectors)
  ∧ (∀ p : ptr,
       (∀ r : nat, (r < length (BlockMatrix.matrices sample.blocks))%nat →
          [3; 4]%positive !! r ≠ Some p) →
       <[3%positive := [4; 8]%Z]> sample.vectors !! p = sample.vectors !! p)
  ∧ Forall2
      (λ (p : ptr) (v : list Z),
         <[3%positive := [4; 8]%Z]> sample.vectors !! p = Some v)
      [1; 2]%positive [[1; 1]; [1]]%Z
  ∧ (∀ (r : nat) (blocks : list (list (list Z))) (_y : ptr),
       BlockMatrix.matrices sample.blocks !! r = Some (Some <$> blocks) →
       [3; 4]%positive !! r = Some _y →
       ∃ (y_r : list Z) (A0 : list (list Z)),
         sample.vectors !! _y = Some y_r
         ∧ head blocks = Some A0
         ∧ <[3%positive := [4; 8]%Z]> sample.vectors !! _y
           = Some (block_row_sum blocks [[1; 1]; [1]]%Z
                     (la.vector_zero
                        (la.vector_resize y_r (la.matrix_size A0 0))))).
Proof.
  assert (H1 : @mult_overwrites (list (list Z)) (list Z) sample.dense)
    by (intros A v z z'; reflexivity).
  assert (H2 : NoDup [3; 4]%positive).
  { apply NoDup_cons. split; [| apply NoDup_singleton].
    rewrite list_elem_of_In. simpl. intros [Heq|[]]. discriminate Heq. }
  assert (H3 : ∀ p : ptr, p ∈ [1; 2]%positive → p ∉ [3; 4]%positive).
  { intros p Hp Hq. apply list_elem_of_In in Hp, Hq. simpl in Hp, Hq.
    destruct Hp as [<-|[<-|[]]]; destruct Hq as [Heq|[Heq|[]]];
      discriminate Heq. }
  assert (H4 : Forall2 (λ (p : ptr) (v : list Z),
                          sample.vectors !! p = Some v)
                 [1; 2]%positive [[1; 1]; [1]]%Z)
    by (repeat constructor).
  assert (H5 : BlockMatrix.mult_shared sample.blocks [1; 2]%positive
                 [3; 4]%positive sample.vectors false
               = Ok (<[3%positive := [4; 8]%Z]> sample.vectors))
    by (vm_compute; reflexivity).
  exact (conj H1 (conj H2 (conj H3 (conj H4 (conj H5
           (mult_block_rows sample.blocks [1; 2]%positive [[1; 1]; [1]]%Z
              [3; 4]%positive sample.vectors
              (<[3%positive := [4; 8]%Z]> sample.vectors)
              H1 H2 H3 H4 H5)))))).
Defined.

(** A block that [x] and [y] both hold is set to zero for [y] before it
    is read for [x]: with the one block [[2]] and the vector [[3]] as
    the block of both [x] and [y], [mult] leaves the vector [[0]], where
    it leaves [[6]] for two block vectors with a block [[3]] each. *)
Example mult_shared_block :
  BlockMatrix.mult_shared sample.doubling [1%positive] [1%positive]
    sample.three false
  = Ok {[ 1%positive := [0]%Z ]}
  ∧ BlockMatrix.mult sample.doubling [[3]]%Z [[3]]%Z false = Ok [[6]]%Z.
Proof. split; by vm_compute. Qed.
